(** * Fixed-point LIF inference and the register/stream emulator

    A shallow embedding of
    - [src/scripts/gen_snn_test_vectors.py] ([asr16], [snn_infer_int]),
    - [src/src/models/golden_inference.py] ([snn_infer_events]),
    - [src/src/fpga/regs.py] and [src/src/fpga/fpga_emulator.py]
      ([FPGAEmulator.reset], [write_reg], [_start_inference]),
    - [src/src/models/export_weights.py] ([quantize_int8], [write_hex_bytes]),
    - [src/src/fpga/overlay_driver.py] ([SNNOverlayDriver]),
    - [src/scripts/step0_gen_fpga_artifacts.py] and
      [src/scripts/step0_verify_bit_exact.py] (spike rows, masks, event lists
      and the memory file writers),
    - [src/src/models/golden_inference_float.py] ([shift_to_alpha]),
    - [src/src/models/snn_dataset.py] ([encode_window_posneg]) and
      [src/src/encoding/delta_encoder.py] ([encode_pos_neg]),
    - [src/src/preprocess/windowing.py] ([make_windows]) and
      [src/scripts/build_dataset.py] ([label_to_int], [concat_windows]),
    with the theorems that settle the specification's claims about them and
    further properties of the code. *)

From Stdlib Require Import ZArith QArith Lia.
From Stdlib Require Import Floats.SpecFloat.
From Stdlib Require Import Strings.Ascii.
From stdpp Require Import base option list gmap strings pretty.

Local Open Scope Z_scope.

(** ** NumPy scalars and arrays *)

(** [np.int16(x)], [np.int32(x)], [np.int64(x)] applied to a NumPy integer:
    a C cast, that is two's-complement wrap-around to the width. *)
Definition wrap_signed (w : Z) (x : Z) : Z :=
  (x + 2 ^ (w - 1)) mod 2 ^ w - 2 ^ (w - 1).

Definition np_int16 (x : Z) : Z := wrap_signed 16 x.
Definition np_int32 (x : Z) : Z := wrap_signed 32 x.

Definition is_int8 (x : Z) : Prop := -128 <= x <= 127.
Definition is_int16 (x : Z) : Prop := -32768 <= x <= 32767.
Definition is_int32 (x : Z) : Prop := -2147483648 <= x <= 2147483647.

Definition is_int16b (x : Z) : bool := (-32768 <=? x) && (x <=? 32767).

(** Arithmetic on [np.int32] values: the result is narrowed to 32 bits. *)
Definition add32 (a b : Z) : Z := np_int32 (a + b).
Definition sub32 (a b : Z) : Z := np_int32 (a - b).

(** [a >> s] on an [np.int32] for a shift count [0 <= s]: NumPy shifts
    arithmetically and fills with the sign once [s] reaches the width, which
    is what [Z.shiftr] computes.  A negative count is outside what Python's
    [>>] accepts; every theorem below that depends on the shift assumes
    [0 <= s]. *)
Definition rshift32 (a s : Z) : Z := np_int32 (Z.shiftr a s).

(** A two-dimensional [np.ndarray]: its shape and its entries.  Only entries
    inside the shape are ever read; an index outside raises [IndexError]. *)
Record ndarray2 : Type := Ndarray2 {
  nrows : nat;
  ncols : nat;
  at2 : nat -> nat -> Z
}.

(** [W[i, j]] *)
Definition get2 (W : ndarray2) (i j : nat) : option Z :=
  if (i <? nrows W)%nat && (j <? ncols W)%nat then Some (at2 W i j) else None.

(** [W[i]], a row as a one-dimensional array *)
Definition get_row (W : ndarray2) (i : nat) : option (list Z) :=
  if (i <? nrows W)%nat then Some (map (at2 W i) (seq 0 (ncols W))) else None.

Definition int8_matrix (W : ndarray2) : Prop :=
  forall i j, (i < nrows W)%nat -> (j < ncols W)%nat -> is_int8 (at2 W i j).

(** Two arrays are the same array when they have the same shape and the same
    entries inside it. *)
Definition same_array (W W' : ndarray2) : Prop :=
  nrows W = nrows W' /\ ncols W = ncols W' /\
  forall i j, (i < nrows W)%nat -> (j < ncols W)%nat -> at2 W i j = at2 W' i j.

(** [np.clip(x, lo, hi)] *)
Definition np_clip (x lo hi : Z) : Z := Z.min (Z.max x lo) hi.

(** [np.zeros(n, dtype=...)] *)
Definition np_zeros (n : nat) : list Z := replicate n 0.

(** [np.argmax(a)]: the index of the first occurrence of the maximum;
    [ValueError] on an empty array. *)
Fixpoint argmax_from (best_i : nat) (best : Z) (i : nat) (l : list Z) : nat :=
  match l with
  | [] => best_i
  | x :: l' =>
      if best <? x then argmax_from i x (S i) l'
      else argmax_from best_i best (S i) l'
  end.

Definition np_argmax (l : list Z) : option nat :=
  match l with
  | [] => None
  | x :: l' => Some (argmax_from 0 x 1 l')
  end.

(** A loop [for x in xs: st = step(st, x)] whose body may raise. *)
Fixpoint for_each {S A : Type} (step : S -> A -> option S) (st : S) (xs : list A)
  : option S :=
  match xs with
  | [] => Some st
  | x :: xs' => st' ← step st x; for_each step st' xs'
  end.

(** [range(T)] with [T = min(len(xs), window_len)]: the timesteps processed. *)
Definition window_of {A : Type} (xs : list A) (window_len : Z) : list A :=
  take (Z.to_nat (Z.min (Z.of_nat (length xs)) window_len)) xs.

(** ** gen_snn_test_vectors.py: the int16 engine *)

Module GenVec.

Record IntSNNParams : Type := {
  n_in : nat;
  n_hidden : nat;
  n_out : nat;
  window_len : Z;
  leak_h_shift : Z;
  leak_o_shift : Z;
  th_h : Z;
  th_o : Z
}.

(** [asr16(v, shift)]: both branches of the source return
    [np.int16(v32 >> shift)]. *)
Definition asr16 (v shift : Z) : Z :=
  let v32 := np_int32 v in
  if 0 <=? v32 then np_int16 (rshift32 v32 shift)
  else np_int16 (rshift32 v32 shift).

(** [for n in range(len(I)): I[n] = np.int16(np.int32(I[n]) + np.int32(W[r, n]))],
    started at column [n]. *)
Fixpoint add_row16 (W : ndarray2) (r n : nat) (I : list Z) : option (list Z) :=
  match I with
  | [] => Some []
  | x :: I' =>
      w ← get2 W r n;
      rest ← add_row16 W r (S n) I';
      Some (np_int16 (add32 (np_int32 x) (np_int32 w)) :: rest)
  end.

(** The weighted input of a layer: rows of [W] whose source is active are
    added into [I], sources visited in increasing order from [r].
    [active] lists, per source, whether it is active. *)
Fixpoint weighted_input16 (W : ndarray2) (r : nat) (active : list bool) (I : list Z)
  : option (list Z) :=
  match active with
  | [] => Some I
  | b :: active' =>
      I' ← (if b then add_row16 W r 0 I else Some I);
      weighted_input16 W (S r) active' I'
  end.

(** [(mask >> ch) & 1] as a truth value *)
Definition mask_bit (mask : Z) (ch : nat) : bool :=
  negb (Z.land (Z.shiftr mask (Z.of_nat ch)) 1 =? 0).

(** Step 2, leak: [v_leaked = np.int16(np.int32(v) - np.int32(asr16(v, shift)))] *)
Definition leak16 (shift v : Z) : Z :=
  np_int16 (sub32 (np_int32 v) (np_int32 (asr16 v shift))).

(** Step 3, accumulate: [v_new = np.int16(np.int32(v_leaked) + np.int32(i))] *)
Definition accumulate16 (v_leaked i : Z) : Z :=
  np_int16 (add32 (np_int32 v_leaked) (np_int32 i)).

(** Step 4, fire and reset *)
Definition fires (th v_new : Z) : bool := th <=? v_new.
Definition reset16 (th v_new : Z) : Z := if fires th v_new then np_int16 0 else v_new.

(** Steps 2 to 4 over a layer: the new potentials and the spikes. *)
Definition membrane16 (shift : Z) (V I : list Z) : list Z :=
  zip_with accumulate16 (map (leak16 shift) V) I.

(** [Cout[on] += 1] for the classes that fired *)
Definition count_spikes (Cout : list Z) (spikes : list bool) : list Z :=
  zip_with (fun c (s : bool) => if s then add32 c 1 else c) Cout spikes.

Record state : Type := State {
  Vh : list Z;
  Vo : list Z;
  Cout : list Z
}.

Definition init (p : IntSNNParams) : state :=
  {| Vh := np_zeros (n_hidden p); Vo := np_zeros (n_out p); Cout := np_zeros (n_out p) |}.

(** The body of [for t in range(T)]. *)
Definition timestep (W1 W2 : ndarray2) (p : IntSNNParams) (st : state) (m : Z)
  : option state :=
  let mask := Z.land m 0xFFF in
  Ih ← weighted_input16 W1 0 (map (mask_bit mask) (seq 0 (n_in p))) (np_zeros (n_hidden p));
  let Vh_new := membrane16 (leak_h_shift p) (Vh st) Ih in
  let h_spikes := map (fires (th_h p)) Vh_new in
  let Vh' := map (reset16 (th_h p)) Vh_new in
  Io ← weighted_input16 W2 0 h_spikes (np_zeros (n_out p));
  let Vo_new := membrane16 (leak_o_shift p) (Vo st) Io in
  let o_spikes := map (fires (th_o p)) Vo_new in
  Some {| Vh := Vh';
          Vo := map (reset16 (th_o p)) Vo_new;
          Cout := count_spikes (Cout st) o_spikes |}.

(** [snn_infer_int(spike_masks, W1, W2, p)]: the predicted class and the
    per-class counts ([trace] only records intermediate values). *)
Definition snn_infer_int (spike_masks : list Z) (W1 W2 : ndarray2) (p : IntSNNParams)
  : option (nat * list Z) :=
  st ← for_each (timestep W1 W2 p) (init p) (window_of spike_masks (window_len p));
  cls ← np_argmax (Cout st);
  Some (cls, Cout st).

End GenVec.

(** ** golden_inference.py: the int32 engine *)

Module Golden.

Record SNNParams : Type := {
  Nh : nat;
  No : nat;
  leak_h_shift : Z;
  leak_o_shift : Z;
  th_h : Z;
  th_o : Z;
  window_len : Z
}.

(** NumPy broadcasting of a one-dimensional operand against an array of
    length [n]: equal lengths pair up, a single element is repeated, anything
    else raises [ValueError]. *)
Definition np_broadcast_to (n : nat) (v : list Z) : option (list Z) :=
  if (length v =? n)%nat then Some v
  else match v with
       | [x] => Some (replicate n x)
       | _ => None
       end.

(** [Ih += weights.W1[src].astype(np.int32)] *)
Definition add_row32 (W : ndarray2) (Ih : list Z) (src : nat) : option (list Z) :=
  row ← get_row W src;
  row' ← np_broadcast_to (length Ih) (map np_int32 row);
  Some (zip_with add32 Ih row').

(** [V - (V >> shift)], elementwise on an int32 array *)
Definition leak32 (shift v : Z) : Z := sub32 v (rshift32 v shift).

(** [V - (V >> shift) + I] *)
Definition membrane32 (shift : Z) (V I : list Z) : list Z :=
  zip_with add32 (map (leak32 shift) V) I.

(** [(V >= th).astype(np.int32)] *)
Definition spike (th v : Z) : Z := if th <=? v then 1 else 0.

(** [np.where(spike == 1, 0, V)] *)
Definition where_reset (s v : Z) : Z := if s =? 1 then 0 else v.

(** The dot product of [x] with column [j] of [W], rows from [i] on. *)
Fixpoint dot_col (W : ndarray2) (j i : nat) (x : list Z) : Z :=
  match x with
  | [] => 0
  | xi :: x' => xi * at2 W i j + dot_col W j (S i) x'
  end.

(** [x @ W] for a one-dimensional [x], in int32: [ValueError] unless
    [len(x)] is the number of rows of [W]. *)
Definition matmul32 (x : list Z) (W : ndarray2) : option (list Z) :=
  if (length x =? nrows W)%nat
  then Some (map (fun j => np_int32 (dot_col W j 0 x)) (seq 0 (ncols W)))
  else None.

Record state : Type := State {
  Vh : list Z;
  Vo : list Z;
  Cout : list Z
}.

Definition init (p : SNNParams) : state :=
  {| Vh := np_zeros (Nh p); Vo := np_zeros (No p); Cout := np_zeros (No p) |}.

(** The hidden potentials before the threshold test, at one timestep. *)
Definition hidden_membrane (W1 : ndarray2) (p : SNNParams) (st : state) (ev : list nat)
  : option (list Z) :=
  Ih ← for_each (add_row32 W1) (np_zeros (Nh p)) ev;
  Some (membrane32 (leak_h_shift p) (Vh st) Ih).

(** The output potentials before the threshold test, given the hidden
    spikes.  [Vo - (Vo >> s) + Io] broadcasts [Io] against [Vo]. *)
Definition output_membrane (W2 : ndarray2) (p : SNNParams) (st : state) (spikeH : list Z)
  : option (list Z) :=
  Io ← matmul32 spikeH W2;
  Io' ← np_broadcast_to (length (Vo st)) Io;
  Some (membrane32 (leak_o_shift p) (Vo st) Io').

(** The body of [for t in range(T)]. *)
Definition timestep (W1 W2 : ndarray2) (p : SNNParams) (st : state) (ev : list nat)
  : option state :=
  Vh1 ← hidden_membrane W1 p st ev;
  let spikeH := map (spike (th_h p)) Vh1 in
  let Vh' := zip_with where_reset spikeH Vh1 in
  Vo1 ← output_membrane W2 p st spikeH;
  let spikeO := map (spike (th_o p)) Vo1 in
  Some {| Vh := Vh';
          Vo := zip_with where_reset spikeO Vo1;
          Cout := zip_with add32 (Cout st) spikeO |}.

(** [Cout.sum()]: NumPy accumulates an int32 array in the 64-bit platform
    integer. *)
Definition np_sum (l : list Z) : Z := wrap_signed 64 (foldr Z.add 0 l).

(** [(int(Cout[cls]) << 8) // max(s, 1)] on Python integers *)
Definition conf_q0_8 (c s : Z) : Z := Z.shiftl c 8 / Z.max s 1.

(** [snn_infer_events(events, weights, p)] returns [(cls, conf_q0_8, Cout)]. *)
Definition snn_infer_events (events : list (list nat)) (W1 W2 : ndarray2) (p : SNNParams)
  : option (nat * Z * list Z) :=
  st ← for_each (timestep W1 W2 p) (init p) (window_of events (window_len p));
  cls ← np_argmax (Cout st);
  c ← Cout st !! cls;
  Some (cls, conf_q0_8 c (np_sum (Cout st)), Cout st).

(** Whether every potential the int32 engine computes over the window,
    hidden and output, fits the signed 16-bit range. *)
Definition step_fits16 (W1 W2 : ndarray2) (p : SNNParams) (st : state) (ev : list nat)
  : bool :=
  match hidden_membrane W1 p st ev with
  | None => false
  | Some Vh1 =>
      forallb is_int16b Vh1 &&
      match output_membrane W2 p st (map (spike (th_h p)) Vh1) with
      | None => false
      | Some Vo1 => forallb is_int16b Vo1
      end
  end.

Fixpoint steps_fit16 (W1 W2 : ndarray2) (p : SNNParams) (st : state)
  (evs : list (list nat)) : bool :=
  match evs with
  | [] => true
  | ev :: evs' =>
      step_fits16 W1 W2 p st ev &&
      match timestep W1 W2 p st ev with
      | None => false
      | Some st' => steps_fit16 W1 W2 p st' evs'
      end
  end.

Definition run_fits16 (events : list (list nat)) (W1 W2 : ndarray2) (p : SNNParams)
  : bool :=
  steps_fit16 W1 W2 p (init p) (window_of events (window_len p)).

End Golden.

(** ** The two engines on the same window *)

(** The event list of a mask word, as [spikes_to_event_lists] builds it from
    the spike row the mask denotes: the active channels in increasing order. *)
Definition events_of_mask (n_in : nat) (m : Z) : list nat :=
  filter (fun ch => GenVec.mask_bit (Z.land m 0xFFF) ch = true) (seq 0 n_in).

(** The int32 engine's parameters for an int16 parameter set. *)
Definition golden_params (p : GenVec.IntSNNParams) : Golden.SNNParams :=
  {| Golden.Nh := GenVec.n_hidden p;
     Golden.No := GenVec.n_out p;
     Golden.leak_h_shift := GenVec.leak_h_shift p;
     Golden.leak_o_shift := GenVec.leak_o_shift p;
     Golden.th_h := GenVec.th_h p;
     Golden.th_o := GenVec.th_o p;
     Golden.window_len := GenVec.window_len p |}.

(** ** regs.py *)

Module Regs.

Definition CONTROL : Z := 0x00.
Definition STATUS : Z := 0x04.
Definition WINDOW_LEN : Z := 0x08.
Definition N_IN : Z := 0x0C.
Definition N_HIDDEN : Z := 0x10.
Definition N_OUT : Z := 0x14.
Definition RESULT_CLASS : Z := 0x18.
Definition COUNT0 : Z := 0x1C.
Definition COUNT1 : Z := 0x20.
Definition COUNT2 : Z := 0x24.
Definition CONF_Q15 : Z := 0x28.
Definition LATENCY_CYCLES : Z := 0x2C.

Definition CTRL_START : Z := Z.shiftl 1 0.
Definition CTRL_RESET : Z := Z.shiftl 1 1.
Definition CTRL_INTEN : Z := Z.shiftl 1 2.

Definition STS_DONE : Z := Z.shiftl 1 0.
Definition STS_BUSY : Z := Z.shiftl 1 1.
Definition STS_ERR : Z := Z.shiftl 1 2.

End Regs.

(** ** fpga_emulator.py *)

Module Emulator.

Import Regs.

Record EmulatorConfig : Type := {
  n_in : nat;
  n_hidden : nat;
  n_out : nat;
  window_len : Z;
  leak_h_shift : Z;
  leak_o_shift : Z;
  th_h : Q;
  th_o : Q
}.

(** [golden_inference_float.FloatSNNParams] *)
Record FloatSNNParams : Type := {
  fp_n_in : nat;
  fp_n_hidden : nat;
  fp_n_out : nat;
  fp_window_len : Z;
  fp_leak_h_shift : Z;
  fp_leak_o_shift : Z;
  fp_th_h : Q;
  fp_th_o : Q
}.

(** [_mask_to_spikes(mask, n_in)]: entry [i] is 1.0 when bit [i] is set. *)
Definition mask_to_spikes (n_in : nat) (mask : Z) : list bool :=
  map (fun i => negb (Z.land (Z.shiftr mask (Z.of_nat i)) 1 =? 0)) (seq 0 n_in).

(** Python slices [l[:k]] and [l[k:]]; a negative [k] counts from the end. *)
Definition py_slice_to {A : Type} (l : list A) (k : Z) : list A :=
  if 0 <=? k then take (Z.to_nat k) l
  else take (Z.to_nat (Z.of_nat (length l) + k)) l.

Definition py_slice_from {A : Type} (l : list A) (k : Z) : list A :=
  if 0 <=? k then drop (Z.to_nat k) l
  else drop (Z.to_nat (Z.of_nat (length l) + k)) l.

(** [int(x)] of a finite float: truncation towards zero. *)
Definition py_int (x : Q) : Z := Z.quot (Qnum x) (Zpos (Qden x)).

(** [round(x)] of a finite float: to the nearest integer, ties to even. *)
Definition py_round (x : Q) : Z :=
  let n := Qnum x in
  let d := Zpos (Qden x) in
  let fl := n / d in
  let r := 2 * (n mod d) in
  if r <? d then fl
  else if d <? r then fl + 1
  else if Z.even fl then fl else fl + 1.

(** The [FloatSNNParams(...)] that [_start_inference] builds from the
    configuration and the frame length. *)
Definition float_params (c : EmulatorConfig) (Texp : Z) : FloatSNNParams :=
  {| fp_n_in := n_in c; fp_n_hidden := n_hidden c; fp_n_out := n_out c;
     fp_window_len := Texp;
     fp_leak_h_shift := leak_h_shift c; fp_leak_o_shift := leak_o_shift c;
     fp_th_h := th_h c; fp_th_o := th_o c |}.

Section WithFloatEngine.

(** Float32 arrays, and [golden_inference_float.infer_counts] over them: the
    spike rows of the frame, the two weight arrays and the parameters give
    [(cls, confidence, counts)], or the call raises ([None]).  The float
    arithmetic itself is not modelled. *)
Variable farray : Type.
Variable infer_counts :
  list (list bool) -> farray -> farray -> FloatSNNParams -> option (Z * Q * list Q).

Record emulator : Type := Emu {
  cfg : EmulatorConfig;
  regs : gmap Z Z;
  stream_buf : list Z;
  W1 : option farray;
  W2 : option farray
}.

(** A method body: it updates the emulator and returns a value, or stops at
    an exception ([None]) with the updates made so far kept. *)
Definition M (A : Type) : Type := emulator -> emulator * option A.

Definition ret {A : Type} (a : A) : M A := fun e => (e, Some a).
Definition bind {A B : Type} (m : M A) (k : A -> M B) : M B :=
  fun e => match m e with
           | (e', Some a) => k a e'
           | (e', None) => (e', None)
           end.

#[local] Instance emulator_ret : MRet M := @ret.
#[local] Instance emulator_bind : MBind M := fun A B k m => bind m k.

(** [self._regs[offset] = value] *)
Definition set_reg (offset value : Z) : M unit :=
  fun e => ({| cfg := cfg e; regs := <[offset := value]> (regs e);
               stream_buf := stream_buf e; W1 := W1 e; W2 := W2 e |}, Some tt).

(** [self._regs[offset]]: [KeyError] when the key is absent *)
Definition get_reg (offset : Z) : M Z :=
  fun e => (e, regs e !! offset).

(** [self._stream_buf = buf] *)
Definition set_stream_buf (buf : list Z) : M unit :=
  fun e => ({| cfg := cfg e; regs := regs e;
               stream_buf := buf; W1 := W1 e; W2 := W2 e |}, Some tt).

(** A Python expression that may raise. *)
Definition lift_option {A : Type} (o : option A) : M A := fun e => (e, o).

(** [FPGAEmulator.__init__] without an exports directory, and with weights
    loaded by [load_exports]. *)
Definition new_emulator (c : EmulatorConfig) (w : option (farray * farray)) : emulator :=
  {| cfg := c;
     regs := <[N_OUT := Z.of_nat (n_out c)]> (<[N_HIDDEN := Z.of_nat (n_hidden c)]>
             (<[N_IN := Z.of_nat (n_in c)]> (<[WINDOW_LEN := window_len c]>
             (list_to_map (map (fun k => (k, 0))
                [CONTROL; STATUS; WINDOW_LEN; N_IN; N_HIDDEN; N_OUT;
                 RESULT_CLASS; COUNT0; COUNT1; COUNT2; CONF_Q15; LATENCY_CYCLES])))));
     stream_buf := [];
     W1 := fst <$> w;
     W2 := snd <$> w |}.

(** [FPGAEmulator.reset] *)
Definition reset : M unit :=
  set_stream_buf [] ;;
  set_reg STATUS 0 ;;
  set_reg RESULT_CLASS 0 ;;
  set_reg COUNT0 0 ;;
  set_reg COUNT1 0 ;;
  set_reg COUNT2 0 ;;
  set_reg CONF_Q15 0 ;;
  set_reg LATENCY_CYCLES 0.

(** [np.stack(rows, axis=0)]: [ValueError] on an empty list. *)
Definition np_stack {A : Type} (rows : list A) : option (list A) :=
  match rows with
  | [] => None
  | _ => Some rows
  end.

(** [FPGAEmulator._start_inference] *)
Definition start_inference : M unit :=
  fun e =>
  match W1 e, W2 e with
  | Some w1, Some w2 =>
     (Texp ← get_reg WINDOW_LEN;
      if Z.of_nat (length (stream_buf e)) <? Texp
      then set_reg STATUS STS_ERR
      else
        let frame := py_slice_to (stream_buf e) Texp in
        set_stream_buf (py_slice_from (stream_buf e) Texp) ;;
        set_reg STATUS STS_BUSY ;;
        x ← lift_option (np_stack (map (mask_to_spikes (n_in (cfg e))) frame));
        let p := float_params (cfg e) Texp in
        r ← lift_option (infer_counts x w1 w2 p);
        let '(pred, conf, counts) := r in
        set_reg RESULT_CLASS pred ;;
        c0 ← lift_option (counts !! 0%nat);
        set_reg COUNT0 (py_int c0) ;;
        c1 ← lift_option (counts !! 1%nat);
        set_reg COUNT1 (py_int c1) ;;
        c2 ← lift_option (counts !! 2%nat);
        set_reg COUNT2 (py_int c2) ;;
        set_reg CONF_Q15
          (np_clip (py_round (Qmult conf (inject_Z (Z.shiftl 1 15)))) 0 (Z.shiftl 1 15 - 1)) ;;
        set_reg LATENCY_CYCLES
          (Texp * (Z.of_nat (n_hidden (cfg e)) + Z.of_nat (n_out (cfg e)))) ;;
        set_reg STATUS STS_DONE) e
  | _, _ => set_reg STATUS STS_ERR e
  end.

(** [FPGAEmulator.write_reg] *)
Definition write_reg (offset value : Z) : M unit :=
  let value := Z.land value 0xFFFFFFFF in
  if offset =? CONTROL then
    (if Z.land value CTRL_RESET =? 0 then ret tt else reset) ;;
    (if Z.land value CTRL_START =? 0 then ret tt else start_inference) ;;
    set_reg offset value
  else if offset =? WINDOW_LEN then set_reg offset value
  else set_reg offset value.

(** [FPGAEmulator.read_reg] *)
Definition read_reg (offset : Z) (e : emulator) : Z :=
  default 0 (regs e !! offset).

(** [FPGAEmulator.stream_send_masks]: the words of a uint32 array are
    appended in order. *)
Definition stream_send_masks (masks : list Z) : M unit :=
  fun e => set_stream_buf (stream_buf e ++ masks) e.

End WithFloatEngine.

End Emulator.

(** ** export_weights.py: the quantizer *)

Module Quantizer.

(** IEEE 754 values, as the Standard Library specifies them; float32 is the
    format with 24 bits of precision and [emax = 128], float64 the one with
    53 bits and [emax = 1024]. *)
Abbreviation float := spec_float.

Definition f32_div : float -> float -> float := SFdiv 24 128.
Definition f64_div : float -> float -> float := SFdiv 53 1024.

(** [float(x)] of a float32: the same real number as a float64. *)
Definition to_f64 (x : float) : float :=
  match x with
  | S754_finite s m e => binary_round 53 1024 s m e
  | _ => x
  end.

(** A Python float entering a float32 computation: rounded to float32. *)
Definition to_f32 (x : float) : float :=
  match x with
  | S754_finite s m e => binary_round 24 128 s m e
  | _ => x
  end.

Definition is_nan (x : float) : bool :=
  match x with
  | S754_nan => true
  | _ => false
  end.

(** [np.maximum(a, b)]: a NaN operand wins. *)
Definition np_maximum (a b : float) : float :=
  if is_nan a then a else if is_nan b then b else if SFltb a b then b else a.

(** [np.max(a)] of a flattened array; [ValueError] when it is empty. *)
Definition np_max (a : list float) : option float :=
  match a with
  | [] => None
  | x :: a' => Some (foldl np_maximum x a')
  end.

(** The float64 literals [1e-12], [127.0] and [1.0]. *)
Definition f64_1e_12 : float := S754_finite false 4951760157141521 (-92).
Definition f64_127 : float := S754_finite false 8936830510563328 (-46).
Definition f64_1 : float := S754_finite false 4503599627370496 (-52).

(** The integer nearest to [m * 2^e], ties to even ([np.round]). *)
Definition rint_pos (m : positive) (e : Z) : Z :=
  if 0 <=? e then Z.shiftl (Zpos m) e
  else
    let mrs := fst (shr {| shr_m := Zpos m; shr_r := false; shr_s := false |} e (- e)) in
    round_nearest_even (shr_m mrs) (loc_of_shr_record mrs).

(** [np.clip(np.round(x), -127, 127).astype(np.int8)] on one entry.  The
    rounded value is an integer that float32 holds exactly, so the clip and
    the cast are taken on integers.  The cast of a NaN to int8 is undefined:
    [None]. *)
Definition round_clip_int8 (x : float) : option Z :=
  match x with
  | S754_nan => None
  | S754_infinity s => Some (if s then -127 else 127)
  | S754_zero _ => Some 0
  | S754_finite s m e =>
      let z := rint_pos m e in
      Some (np_clip (if s then - z else z) (-127) 127)
  end.

(** [quantize_int8(w)], on the matrix after [astype(np.float32)], row by
    row: the int8 matrix and the float64 scale. *)
Definition quantize_int8 (w : list (list float)) : option (list (list Z) * float) :=
  mx32 ← np_max (map SFabs (concat w));
  let mx := to_f64 mx32 in
  let scale := if SFltb f64_1e_12 mx then f64_div mx f64_127 else f64_1 in
  q ← mapM (mapM (fun x => round_clip_int8 (f32_div x (to_f32 scale)))) w;
  Some (q, scale).

End Quantizer.

(** A finite float32: a zero or a bounded mantissa and exponent. *)
Definition finite32 (x : Quantizer.float) : Prop :=
  match x with
  | S754_zero _ => True
  | S754_finite _ m e => bounded 24 128 m e = true
  | _ => False
  end.

Definition is_zero (x : Quantizer.float) : Prop :=
  match x with
  | S754_zero _ => True
  | _ => False
  end.

(** Neither a zero nor a NaN: what a divisor must be for [0 / d] to be 0. *)
Definition nonzero_number (x : Quantizer.float) : Prop :=
  match x with
  | S754_zero _ | S754_nan => False
  | _ => True
  end.

(** ** Concrete instances used in the closed examples *)

Definition const_matrix (r c : nat) (v : Z) : ndarray2 :=
  {| nrows := r; ncols := c; at2 := fun _ _ => v |}.

(** The default [EmulatorConfig()]. *)
Definition cfg_default : Emulator.EmulatorConfig :=
  {| Emulator.n_in := 12; Emulator.n_hidden := 32; Emulator.n_out := 3;
     Emulator.window_len := 10;
     Emulator.leak_h_shift := 4; Emulator.leak_o_shift := 4;
     Emulator.th_h := 1%Q; Emulator.th_o := 1%Q |}.

(** A stand-in for the float engine in closed examples: it answers class 2
    with counts [1, 0, 3] and confidence 3/4 on every frame. *)
Definition infer_fixed (x : list (list bool)) (w1 w2 : unit) (p : Emulator.FloatSNNParams)
  : option (Z * Q * list Q) :=
  Some (2, (3 # 4)%Q, [inject_Z 1; inject_Z 0; inject_Z 3]).

(** A fresh emulator with weights loaded. *)
Definition emu_loaded : Emulator.emulator unit :=
  Emulator.new_emulator unit cfg_default (Some (tt, tt)).

(** The same after three words were streamed in and [WINDOW_LEN] set to 2. *)
Definition emu_three_words : Emulator.emulator unit :=
  (Emulator.bind unit (Emulator.stream_send_masks unit [5; 6; 7])
     (fun _ => Emulator.write_reg unit infer_fixed Regs.WINDOW_LEN 2) emu_loaded).1.

(** A fresh emulator with weights loaded whose [WINDOW_LEN] was written 0. *)
Definition emu_window0 : Emulator.emulator unit :=
  (Emulator.write_reg unit infer_fixed Regs.WINDOW_LEN 0 emu_loaded).1.

(** The reference configuration: 12 inputs, 32 hidden, 3 outputs, window 10,
    leak shift 4, thresholds 64. *)
Definition p_ref : GenVec.IntSNNParams :=
  {| GenVec.n_in := 12; GenVec.n_hidden := 32; GenVec.n_out := 3;
     GenVec.window_len := 10;
     GenVec.leak_h_shift := 4; GenVec.leak_o_shift := 4;
     GenVec.th_h := 64; GenVec.th_o := 64 |}.

(** The same with a window of 11 timesteps. *)
Definition p_eleven : GenVec.IntSNNParams :=
  {| GenVec.n_in := 12; GenVec.n_hidden := 32; GenVec.n_out := 3;
     GenVec.window_len := 11;
     GenVec.leak_h_shift := 4; GenVec.leak_o_shift := 4;
     GenVec.th_h := 64; GenVec.th_o := 64 |}.

(** Small mixed-sign int8 weights. *)
Definition W1_mixed : ndarray2 :=
  {| nrows := 12; ncols := 32;
     at2 := fun i j => Z.of_nat (i * 7 + j * 3) mod 40 - 15 |}.
Definition W2_mixed : ndarray2 :=
  {| nrows := 32; ncols := 3;
     at2 := fun i j => Z.of_nat (i * 5 + j * 11) mod 50 - 20 |}.

(** Every hidden neuron driven at +127 by every channel; class 2 inhibited at
    -127 by every hidden neuron, classes 0 and 1 unconnected. *)
Definition W1_excite : ndarray2 := const_matrix 12 32 127.
Definition W2_inhibit2 : ndarray2 :=
  {| nrows := 32; ncols := 3; at2 := fun _ j => if (j =? 2)%nat then -127 else 0 |}.

Definition window_mixed : list Z :=
  [0x555; 0xAAA; 0x123; 0xFFF; 0x0F0; 7; 8; 9; 10; 11].

(** The same 12 x 32 array as [W1_mixed], read through another accessor. *)
Definition W1_mixed_copy : ndarray2 :=
  {| nrows := 12; ncols := 32;
     at2 := fun i j => if (i <? 12)%nat then at2 W1_mixed i j else 0 |}.

(** The reference thresholds and leak shifts with a window of 2^31 timesteps. *)
Definition q_long : Golden.SNNParams :=
  {| Golden.Nh := 32; Golden.No := 3;
     Golden.leak_h_shift := 4; Golden.leak_o_shift := 4;
     Golden.th_h := 64; Golden.th_o := 64;
     Golden.window_len := 2147483648 |}.

(** Every class driven at +127 by every hidden neuron. *)
Definition W2_excite : ndarray2 := const_matrix 32 3 127.

(** Only class 2 driven, at +127 by every hidden neuron. *)
Definition W2_excite2 : ndarray2 :=
  {| nrows := 32; ncols := 3; at2 := fun _ j => if (j =? 2)%nat then 127 else 0 |}.

(** The state in which every potential is zero and the counters are [C]. *)
Definition at_rest (C : list Z) : Golden.state :=
  {| Golden.Vh := np_zeros 32; Golden.Vo := np_zeros 3; Golden.Cout := C |}.

(** The float32 matrix [[0.5, -0.25, 0.1], [0.0, 1/3, -0.375]]. *)
Definition w_sample : list (list Quantizer.float) :=
  [[S754_finite false 8388608 (-24); S754_finite true 8388608 (-25);
    S754_finite false 13421773 (-27)];
   [S754_zero false; S754_finite false 11184811 (-25);
    S754_finite true 12582912 (-25)]].

(** The float32 [2^-50], about 8.9e-16. *)
Definition f32_tiny : Quantizer.float := S754_finite false 8388608 (-73).

(** The START and RESET bits of a word written to CONTROL. *)
Definition start_bit (value : Z) : bool := Z.testbit value 0.
Definition reset_bit (value : Z) : bool := Z.testbit value 1.

(** ** Closed forms used in the proofs *)

(** The exact weighted input of target [j]: the sum of [W[r+k, j]] over the
    active sources [k]. *)
Fixpoint active_sum (W : ndarray2) (j r : nat) (active : list bool) : Z :=
  match active with
  | [] => 0
  | b :: active' => (if b then at2 W r j else 0) + active_sum W j (S r) active'
  end.

(** The same over a list of source ids. *)
Fixpoint event_sum (W : ndarray2) (j : nat) (ev : list nat) : Z :=
  match ev with
  | [] => 0
  | src :: ev' => at2 W src j + event_sum W j ev'
  end.

(** The int32 state holding the same values as an int16 state. *)
Definition widen (st : GenVec.state) : Golden.state :=
  {| Golden.Vh := GenVec.Vh st; Golden.Vo := GenVec.Vo st; Golden.Cout := GenVec.Cout st |}.

(** What both engines maintain when their shapes agree with the parameters. *)
Record state_ok (p : GenVec.IntSNNParams) (st : GenVec.state) : Prop := {
  ok_Vh_len : length (GenVec.Vh st) = GenVec.n_hidden p;
  ok_Vo_len : length (GenVec.Vo st) = GenVec.n_out p;
  ok_Cout_len : length (GenVec.Cout st) = GenVec.n_out p;
  ok_Vh : Forall is_int16 (GenVec.Vh st);
  ok_Vo : Forall is_int16 (GenVec.Vo st);
  ok_Cout : Forall is_int32 (GenVec.Cout st)
}.

(** The weight shapes the parameters call for: [W1] is [n_in x n_hidden] and
    [W2] is [n_hidden x n_out]. *)
Definition shapes_ok (p : GenVec.IntSNNParams) (W1 W2 : ndarray2) : Prop :=
  nrows W1 = GenVec.n_in p /\ ncols W1 = GenVec.n_hidden p /\
  nrows W2 = GenVec.n_hidden p /\ ncols W2 = GenVec.n_out p.

Definition b2z (b : bool) : Z := if b then 1 else 0.

(** The hidden input of both engines at mask word [m], before narrowing. *)
Definition hidden_input32 (W1 : ndarray2) (p : GenVec.IntSNNParams) (m : Z) : list Z :=
  map (fun j => np_int32 (active_sum W1 j 0
         (map (GenVec.mask_bit (Z.land m 0xFFF)) (seq 0 (GenVec.n_in p)))))
      (seq 0 (GenVec.n_hidden p)).

(** The output input of both engines for hidden spikes [bs], before narrowing. *)
Definition output_input32 (W2 : ndarray2) (p : GenVec.IntSNNParams) (bs : list bool) : list Z :=
  map (fun j => np_int32 (active_sum W2 j 0 bs)) (seq 0 (GenVec.n_out p)).

(** The class [k] holds the first maximum of [l]. *)
Definition first_max (l : list Z) (k : nat) : Prop :=
  exists mx, l !! k = Some mx /\
    (forall j x, l !! j = Some x -> x <= mx) /\
    (forall j x, (j < k)%nat -> l !! j = Some x -> x < mx).

(** ** The LIF update rule *)

(** The update of one LIF neuron with state [v] and weighted input [i] to
    state [v'] and spike [s], the integration narrowed to 16 bits. *)
Definition lif_neuron16 (shift th v i v' : Z) (s : bool) : Prop :=
  let a := Z.shiftr v shift in
  let v_leaked := v - a in
  let v_new := np_int16 (v_leaked + i) in
  GenVec.asr16 v shift = a /\ a = v / 2 ^ shift /\ (v < 0 <-> a < 0) /\
  GenVec.leak16 shift v = v_leaked /\
  GenVec.accumulate16 v_leaked i = v_new /\
  (is_int16 (v_leaked + i) -> v_new = v_leaked + i) /\
  s = (th <=? v_new) /\
  v' = (if s then 0 else v_new).

(** The update of a layer, neuron by neuron. *)
Definition lif_layer16 (shift th : Z) (V I V' : list Z) (spikes : list bool) : Prop :=
  forall n v i, V !! n = Some v -> I !! n = Some i ->
    exists v' s, V' !! n = Some v' /\ spikes !! n = Some s /\ lif_neuron16 shift th v i v' s.

(** The weight shapes [snn_infer_events] needs: [W1] has [Nh] columns and
    [W2] is [Nh x No]. *)
Definition golden_shapes (p : Golden.SNNParams) (W1 W2 : ndarray2) : Prop :=
  ncols W1 = Golden.Nh p /\ nrows W2 = Golden.Nh p /\ ncols W2 = Golden.No p.

(** Every source id of the window is a row of [W1]. *)
Definition events_in_range (W1 : ndarray2) (events : list (list nat)) : Prop :=
  Forall (Forall (fun src => (src < nrows W1)%nat)) events.

(** The array lengths of an int32 state. *)
Definition golden_lengths (p : Golden.SNNParams) (st : Golden.state) : Prop :=
  length (Golden.Vh st) = Golden.Nh p /\
  length (Golden.Vo st) = Golden.No p /\
  length (Golden.Cout st) = Golden.No p.

(** The counters after [t] timesteps lie in [0, t], as long as [t] stays
    below 2^31. *)
Definition counts_within (t : Z) (C : list Z) : Prop := Forall (fun c => 0 <= c <= t) C.

(** ** Bounds on the potentials under the reference leak shift *)

(** [v] has magnitude at most [B]. *)
Definition within (B v : Z) : Prop := - B <= v <= B.

(** The magnitude a potential of magnitude [B] can reach in one timestep
    with leak shift 4 and a weighted input of magnitude at most [I]. *)
Definition next_bound (I B : Z) : Z := B - B / 16 + I.

(** The same after [t] timesteps from rest. *)
Fixpoint bound_after (I : Z) (t : nat) : Z :=
  match t with
  | O => 0
  | S t' => next_bound I (bound_after I t')
  end.

(** An int32 state of the right lengths whose hidden potentials are within
    [Bh] and whose output potentials are within [Bo]. *)
Definition state_within (p : GenVec.IntSNNParams) (Bh Bo : Z) (st : Golden.state) : Prop :=
  golden_lengths (golden_params p) st /\
  Forall (within Bh) (Golden.Vh st) /\ Forall (within Bo) (Golden.Vo st).

(** ** overlay_driver.py *)

Module Driver.

Import Regs.

(** The exceptions a driver call can end in: the driver's own
    [RuntimeError] and [AssertionError], NumPy's [OverflowError], and any
    exception raised inside the backend. *)
Inductive exn : Type := RuntimeError | AssertionError | OverflowError | BackendError.

Inductive outcome (A : Type) : Type :=
| Returned (a : A)
| Raised (x : exn).
Arguments Returned {A} a.
Arguments Raised {A} x.

Record InferenceResult : Type := {
  pred_class : Z;
  counts : list Z;
  conf : Q
}.

(** The inner loop of [spikes_to_masks]: [m |= (1 << i)] for every [i]
    with [x_spk[t, i]] non-zero. *)
Definition pack_row (x_spk : ndarray2) (t : nat) : Z :=
  fold_left (fun m i => if at2 x_spk t i =? 0 then m else Z.lor m (Z.shiftl 1 (Z.of_nat i)))
    (seq 0 (ncols x_spk)) 0.

(** [SNNOverlayDriver.spikes_to_masks], on the array [np.asarray] returns
    for [dtype=np.uint8]. *)
Definition spikes_to_masks (x_spk : ndarray2) : outcome (list Z) :=
  if (ncols x_spk =? 12)%nat
  then Returned (map (pack_row x_spk) (seq 0 (nrows x_spk)))
  else Raised AssertionError.

(** [np.array(l, dtype=np.int32)] of Python integers: [OverflowError] when
    one does not fit. *)
Definition np_array_int32 (l : list Z) : outcome (list Z) :=
  if forallb (fun c => (- 2 ^ 31 <=? c) && (c <? 2 ^ 31)) l then Returned l
  else Raised OverflowError.

Section WithBackend.

Variable farray : Type.
Variable infer_counts :
  list (list bool) -> farray -> farray -> Emulator.FloatSNNParams -> option (Z * Q * list Q).

(** A driver method: it updates the backend and returns or raises. *)
Definition D (A : Type) : Type :=
  Emulator.emulator farray -> Emulator.emulator farray * outcome A.

Definition dret {A : Type} (a : A) : D A := fun e => (e, Returned a).
Definition raise {A : Type} (x : exn) : D A := fun e => (e, Raised x).
Definition dbind {A B : Type} (m : D A) (k : A -> D B) : D B :=
  fun e => match m e with
           | (e', Returned a) => k a e'
           | (e', Raised x) => (e', Raised x)
           end.

#[local] Instance driver_ret : MRet D := @dret.
#[local] Instance driver_bind : MBind D := fun A B k m => dbind m k.

(** A call of a backend method; its exceptions pass through the driver. *)
Definition backend {A : Type} (m : Emulator.M farray A) : D A :=
  fun e => match m e with
           | (e', Some a) => (e', Returned a)
           | (e', None) => (e', Raised BackendError)
           end.

(** [self.backend.read_reg(offset)] *)
Definition read (offset : Z) : D Z :=
  fun e => (e, Returned (Emulator.read_reg farray offset e)).

(** A pure computation that may raise. *)
Definition lift {A : Type} (o : outcome A) : D A := fun e => (e, o).

(** [SNNOverlayDriver.reset] *)
Definition reset : D unit :=
  backend (Emulator.write_reg farray infer_counts CONTROL CTRL_RESET).

(** [SNNOverlayDriver.set_window_len] *)
Definition set_window_len (window_len : Z) : D unit :=
  backend (Emulator.write_reg farray infer_counts WINDOW_LEN (Z.land window_len 0xFFFFFFFF)).

(** [SNNOverlayDriver.__init__], the weights of the exports directory
    given: the backend is created with the default configuration. *)
Definition new_driver (w1 w2 : farray) (window_len : Z)
  : Emulator.emulator farray * outcome unit :=
  (set_window_len window_len ;; reset)
    (Emulator.new_emulator farray cfg_default (Some (w1, w2))).

(** [SNNOverlayDriver.infer_from_masks]; [q15] is below 2^15 where it is
    read, so [float(q15) / float(1 << 15)] is the exact quotient. *)
Definition infer_from_masks (masks : list Z) : D InferenceResult :=
  backend (Emulator.stream_send_masks farray masks) ;;
  backend (Emulator.write_reg farray infer_counts CONTROL CTRL_START) ;;
  st ← read STATUS;
  if Z.land st STS_ERR =? 0 then
    pred ← read RESULT_CLASS;
    c0 ← read COUNT0;
    c1 ← read COUNT1;
    c2 ← read COUNT2;
    q15 ← read CONF_Q15;
    cs ← lift (np_array_int32 [c0; c1; c2]);
    mret {| pred_class := pred; counts := cs; conf := Qmake q15 (Z.to_pos (Z.shiftl 1 15)) |}
  else raise RuntimeError.

(** [SNNOverlayDriver.infer_from_spikes] *)
Definition infer_from_spikes (x_spk : ndarray2) : D InferenceResult :=
  masks ← lift (spikes_to_masks x_spk);
  infer_from_masks masks.

End WithBackend.

End Driver.

(** ** More instances for the closed examples *)

(** A loaded emulator with four words queued and [WINDOW_LEN] set to 2. *)
Definition emu_four_words : Emulator.emulator unit :=
  (Emulator.bind unit (Emulator.stream_send_masks unit [5; 6; 7; 8])
     (fun _ => Emulator.write_reg unit infer_fixed Regs.WINDOW_LEN 2) emu_loaded).1.

(** A loaded emulator with an empty queue and [WINDOW_LEN] set to 2. *)
Definition emu_window2 : Emulator.emulator unit :=
  (Emulator.write_reg unit infer_fixed Regs.WINDOW_LEN 2 emu_loaded).1.

(** A 2 x 12 spike array: channels 0 and 2 at the first timestep, channel 11
    at the second. *)
Definition x_spk_sample : ndarray2 :=
  {| nrows := 2; ncols := 12;
     at2 := fun t i => if ((t =? 0)%nat && ((i =? 0)%nat || (i =? 2)%nat))
                          || ((t =? 1)%nat && (i =? 11)%nat) then 1 else 0 |}.

(** ** step0_gen_fpga_artifacts.py and step0_verify_bit_exact.py: spike rows,
    masks and event lists *)

Module Step0.

(** A two-dimensional float32 array. *)
Record farray2 : Type := Farray2 {
  f_nrows : nat;
  f_ncols : nat;
  f_at : nat -> nat -> Quantizer.float
}.

(** [x[t]], a row as a one-dimensional array; [IndexError] past the end. *)
Definition f_row (x : farray2) (t : nat) : option (list Quantizer.float) :=
  if (t <? f_nrows x)%nat then Some (map (f_at x t) (seq 0 (f_ncols x))) else None.

(** The float32 0.5, and the test [v > 0.5] (false on a NaN). *)
Definition f32_half : Quantizer.float := S754_finite false 8388608 (-24).
Definition gt_half (v : Quantizer.float) : bool := SFltb f32_half v.

(** [spikes_to_mask(x_spk_t)]: bit [i] is set when [x_spk_t[i] > 0.5]. *)
Fixpoint mask_from (i : nat) (x_spk_t : list Quantizer.float) (mask : Z) : Z :=
  match x_spk_t with
  | [] => mask
  | v :: rest =>
      mask_from (S i) rest
        (if gt_half v then Z.lor mask (Z.shiftl 1 (Z.of_nat i)) else mask)
  end.

Definition spikes_to_mask (x_spk_t : list Quantizer.float) : Z := mask_from 0 x_spk_t 0.

(** [spikes_to_event_lists(x_spk)]: per timestep, the channels above 0.5 in
    increasing order (the two scripts define the same function). *)
Definition spikes_to_event_lists (x_spk : farray2) : list (list nat) :=
  map (fun t => filter (fun ch => gt_half (f_at x_spk t ch) = true) (seq 0 (f_ncols x_spk)))
      (seq 0 (f_nrows x_spk)).

(** The masks of a test vector, as [main] builds them:
    [for t in range(window_len): masks.append(spikes_to_mask(x_np[t]))]. *)
Definition vector_masks (x_np : farray2) (window_len : Z) : option (list Z) :=
  mapM (fun t => spikes_to_mask <$> f_row x_np t) (seq 0 (Z.to_nat window_len)).

End Step0.

(** A 10 x 12 float32 spike array: channel [i] spikes (1.0) at timestep [t]
    when [t + i] is a multiple of 3, and is 0.0 otherwise. *)
Definition x_np_sample : Step0.farray2 :=
  {| Step0.f_nrows := 10; Step0.f_ncols := 12;
     Step0.f_at := fun t i => if ((t + i) mod 3 =? 0)%nat
                              then S754_finite false 8388608 (-23) else S754_zero false |}.

(** ** The weight, spike and result files: the .mem, .hex and .coe writers *)

Module Writers.

(** A hexadecimal digit, upper case. *)
Definition hex_digit (d : Z) : ascii :=
  match d with
  | 0 => "0" | 1 => "1" | 2 => "2" | 3 => "3" | 4 => "4" | 5 => "5" | 6 => "6" | 7 => "7"
  | 8 => "8" | 9 => "9" | 10 => "A" | 11 => "B" | 12 => "C" | 13 => "D" | 14 => "E"
  | _ => "F"
  end%char.

(** The digits of a non-negative integer, most significant first; [fuel]
    bounds their number. *)
Fixpoint hex_digits (fuel : nat) (n : Z) : list ascii :=
  match fuel with
  | O => []
  | S fuel' =>
      if n <? 16 then [hex_digit n]
      else hex_digits fuel' (n / 16) ++ [hex_digit (n mod 16)]
  end.

(** Python's [format(n, "0<width>X")]: the sign, then zeros up to the
    width, then the upper-case hexadecimal digits. *)
Definition format_X (width : nat) (n : Z) : string :=
  let digits := hex_digits (S (Z.to_nat (Z.log2 (Z.abs n)))) (Z.abs n) in
  let sign := if n <? 0 then ["-"%char] else [] in
  String.string_of_list_ascii
    (sign ++ replicate (width - length sign - length digits) "0"%char ++ digits).

(** [np.uint8(b)] of a NumPy integer scalar and [astype(np.int8)]. *)
Definition np_uint8 (b : Z) : Z := b mod 2 ^ 8.
Definition np_int8 (b : Z) : Z := wrap_signed 8 b.

(** [a.reshape(-1)]: the entries in row-major order. *)
Definition reshape_flat (a : ndarray2) : list Z :=
  concat (map (fun i => map (at2 a i) (seq 0 (ncols a))) (seq 0 (nrows a))).

(** Each writer is modelled by the lines it writes to its file, without
    the newline that ends every one of them. *)

(** [step0_gen_fpga_artifacts.int8_to_twos_complement_hex] *)
Definition int8_to_twos_complement_hex (val : Z) : string := format_X 2 (Z.land val 0xFF).

(** [step0_gen_fpga_artifacts.write_coe] *)
Definition write_coe (data : ndarray2) (radix : Z) : list string :=
  let flat := reshape_flat data in
  ("memory_initialization_radix=" +:+ pretty radix +:+ ";") ::
  "memory_initialization_vector=" ::
  imap (fun i val =>
          int8_to_twos_complement_hex val +:+
          (if (i =? length flat - 1)%nat then ";" else ",")) flat.

(** [write_mem], local to [step0_gen_fpga_artifacts.main] *)
Definition write_mem (data : ndarray2) : list string :=
  map (fun val => format_X 2 (Z.land val 0xFF)) (reshape_flat data).

(** [export_weights.write_hex_bytes] *)
Definition write_hex_bytes (q : ndarray2) : list string :=
  map (fun b => format_X 2 (np_uint8 b)) (reshape_flat q).

(** [gen_snn_test_vectors.write_weight_mem] *)
Definition write_weight_mem (W : ndarray2) (label : string) : list string :=
  let flat := map np_int8 (reshape_flat W) in
  ("// " +:+ label +:+ ": shape=[" +:+ pretty (nrows W) +:+ ", " +:+ pretty (ncols W)
     +:+ "], row-major, int8 two's complement") ::
  map (fun b => format_X 2 (np_uint8 b)) flat.

(** [gen_snn_test_vectors.write_spike_mem] *)
Definition write_spike_mem (masks : list Z) (label : string) : list string :=
  ("// " +:+ label +:+ ": " +:+ pretty (length masks) +:+ " words (32-bit spike masks)") ::
  map (format_X 8) masks.

(** [gen_snn_test_vectors.write_expected_mem]; [counts[0]], [counts[1]] and
    [counts[2]] of the comment line raise [IndexError] on fewer than three
    counts, before anything but the first line is written. *)
Definition write_expected_mem (cls : Z) (counts : list Z) (label : string)
  : option (list string) :=
  c0 ← counts !! 0%nat;
  c1 ← counts !! 1%nat;
  c2 ← counts !! 2%nat;
  Some (("// " +:+ label) ::
        ("// predicted_class=" +:+ pretty cls +:+ " counts=[" +:+ pretty c0 +:+ ","
           +:+ pretty c1 +:+ "," +:+ pretty c2 +:+ "]") ::
        format_X 8 cls ::
        map (format_X 8) counts).

End Writers.

(** The value of a string of upper-case hexadecimal digits. *)
Definition hex_digit_value (c : ascii) : option Z :=
  let n := Z.of_N (N_of_ascii c) in
  if (48 <=? n) && (n <=? 57) then Some (n - 48)
  else if (65 <=? n) && (n <=? 70) then Some (n - 55)
  else None.

Definition hex_value (s : list ascii) : option Z :=
  foldl (fun acc c => a ← acc; d ← hex_digit_value c; Some (16 * a + d)) (Some 0) s.

(** A line of eight hexadecimal digits that denote [v]. *)
Definition word_line (line : string) (v : Z) : Prop :=
  exists cs, line = String.string_of_list_ascii cs /\ length cs = 8%nat /\ hex_value cs = Some v.

(** ** golden_inference_float.py: the leak factor *)

Module FloatEngine.

(** [2.0 ** shift] for an integer [shift >= 1]: the power of two as a
    float64, exact while it is finite; [OverflowError] from 2^1024 on. *)
Definition pow2 (shift : Z) : option Quantizer.float :=
  if shift <? 1024 then Some (S754_finite false 4503599627370496 (shift - 52)) else None.

(** [shift_to_alpha(shift)] *)
Definition shift_to_alpha (shift : Z) : option Quantizer.float :=
  let shift := Z.max 1 shift in
  p ← pow2 shift;
  Some (SFsub 53 1024 Quantizer.f64_1 (Quantizer.f64_div Quantizer.f64_1 p)).

End FloatEngine.

(** The float64 [1 - 2^-s] for [1 <= s <= 53]: the integer [2^53 - 2^(53-s)]
    scaled by [2^-53]. *)
Definition one_minus_pow2 (s : Z) : Quantizer.float :=
  S754_finite false (Z.to_pos (2 ^ 53 - 2 ^ (53 - s))) (-53).

(** ** gen_snn_test_vectors.py: the test patterns *)

Module TestPatterns.

(** [[x] * n]: empty when [n] is zero or negative. *)
Definition py_repeat {A : Type} (x : A) (n : Z) : list A := replicate (Z.to_nat n) x.

(** [range(n)] *)
Definition py_range (n : Z) : list Z := map Z.of_nat (seq 0 (Z.to_nat n)).

(** [generate_test_cases(W1, W2, p)].  The two random patterns draw from
    [np.random.RandomState(42)] and [RandomState(123)], which are not
    modelled: [rand42 k] and [rand123 k] stand for their [k]-th
    [randint(0, 0x1000)]. *)
Definition generate_test_cases (p : GenVec.IntSNNParams) (rand42 rand123 : Z -> Z)
  : list (string * list Z) :=
  let window_len := GenVec.window_len p in
  [ ("tc0_zeros", py_repeat 0x000 window_len);
    ("tc1_allones", py_repeat 0xFFF window_len);
    ("tc2_ch0_only", py_repeat 0x001 window_len);
    ("tc3_alternating",
       map (fun t => if t mod 2 =? 0 then 0x555 else 0xAAA) (py_range window_len));
    ("tc4_ramp",
       map (fun t => Z.shiftl 1 (Z.min (t + 1) 12) - 1) (py_range window_len));
    ("tc5_burst_then_silence", 0xFFF :: py_repeat 0x000 (window_len - 1));
    ("tc6_random_seed42", map rand42 (py_range window_len));
    ("tc7_random_seed123", map rand123 (py_range window_len)) ].

End TestPatterns.

(** ** snn_dataset.py and delta_encoder.py: the delta encoders *)

Module Encoder.

(** What one feature does at one timestep. *)
Inductive spike : Type := Pos | Neg | NoSpike.

Section Format.

(** The float format of the arrays: 24 and 128 for the float32 arrays of
    [WindowSpikeDataset]. *)
Variables (prec emax : Z).

(** The body of the inner loop for feature [k]: [d = x[t, k] - acc[k]],
    then [acc[k] += thr] on [d >= thr], [acc[k] -= thr] on [d <= -thr]. *)
Definition delta_step (x acc thr : Quantizer.float) : Quantizer.float * spike :=
  let d := SFsub prec emax x acc in
  if SFleb thr d then (SFadd prec emax acc thr, Pos)
  else if SFleb d (SFopp thr) then (SFsub prec emax acc thr, Neg)
  else (acc, NoSpike).

(** The inner loop [for k in range(F)] over one row; [thresholds[k]] raises
    [IndexError] when there are fewer thresholds than features. *)
Fixpoint row_step (xs acc thresholds : list Quantizer.float)
  : option (list (Quantizer.float * spike)) :=
  match xs, acc with
  | x :: xs', a :: acc' =>
      thr ← head thresholds;
      rest ← row_step xs' acc' (tail thresholds);
      Some (delta_step x a thr :: rest)
  | _, _ => Some []
  end.

(** The outer loop [for t in range(T)]: the accumulator after the rows and
    what every feature did at every timestep. *)
Fixpoint rows_step (rows : list (list Quantizer.float)) (acc thresholds : list Quantizer.float)
  : option (list (list spike)) :=
  match rows with
  | [] => Some []
  | xs :: rows' =>
      r ← row_step xs acc thresholds;
      rest ← rows_step rows' (map fst r) thresholds;
      Some (map snd r :: rest)
  end.

Definition one : Quantizer.float := binary_normalize prec emax 1 0 false.

(** [snn_dataset.encode_window_posneg(x_win, thresholds)]: the rows of the
    [T x 2F] spike array, positive channels first.  [x_win[0]] raises
    [IndexError] on an empty window. *)
Definition encode_window_posneg (x_win : Step0.farray2) (thresholds : list Quantizer.float)
  : option (list (list Quantizer.float)) :=
  acc ← Step0.f_row x_win 0;
  rows ← mapM (Step0.f_row x_win) (seq 0 (Step0.f_nrows x_win));
  spk ← rows_step rows acc thresholds;
  Some (map (fun r => map (fun s => match s with Pos => one | _ => S754_zero false end) r ++
                      map (fun s => match s with Neg => one | _ => S754_zero false end) r) spk).

(** The events of one timestep, features in increasing order: [k] for a
    positive spike, [F + k] for a negative one. *)
Fixpoint row_events (F k : nat) (r : list spike) : list nat :=
  match r with
  | [] => []
  | Pos :: r' => k :: row_events F (S k) r'
  | Neg :: r' => (F + k)%nat :: row_events F (S k) r'
  | NoSpike :: r' => row_events F (S k) r'
  end.

(** [delta_encoder.encode_pos_neg(x, cfg)] with [cfg.thresholds]:
    [ValueError] unless there is one threshold per feature. *)
Definition encode_pos_neg (x : Step0.farray2) (thresholds : list Quantizer.float)
  : option (list (list nat)) :=
  if (length thresholds =? Step0.f_ncols x)%nat then
    acc ← Step0.f_row x 0;
    rows ← mapM (Step0.f_row x) (seq 0 (Step0.f_nrows x));
    spk ← rows_step rows acc thresholds;
    Some (map (row_events (Step0.f_ncols x) 0) spk)
  else None.

End Format.

End Encoder.

(** A threshold above zero: a positive number or plus infinity. *)
Definition positive_float (x : Quantizer.float) : Prop :=
  match x with
  | S754_finite false _ _ | S754_infinity false => True
  | _ => False
  end.

(** The channels of a spike row that are above 0.5, in increasing order:
    what [spikes_to_event_lists] reads from the row. *)
Definition channels_above_half (row : list Quantizer.float) : list nat :=
  filter (fun ch => match row !! ch with Some v => Step0.gt_half v | None => false end = true)
    (seq 0 (length row)).

(** Whether a feature spiked up, or down, at a timestep. *)
Definition is_pos (s : option Encoder.spike) : bool :=
  match s with Some Encoder.Pos => true | _ => false end.

Definition is_neg (s : option Encoder.spike) : bool :=
  match s with Some Encoder.Neg => true | _ => false end.

(** A float32 window of three rows and two features, [[0, 0], [2, -2],
    [2, -2]], with thresholds [[1, 1]], and the spike array the window
    encodes to: from the second row on feature 0 spikes up and feature 1
    down. *)
Definition x_win_sample : Step0.farray2 :=
  {| Step0.f_nrows := 3; Step0.f_ncols := 2;
     Step0.f_at := fun t k => if (t =? 0)%nat then S754_zero false
                              else S754_finite (k =? 1)%nat 8388608 (-22) |}.

Definition thresholds_sample : list Quantizer.float :=
  [S754_finite false 8388608 (-23); S754_finite false 8388608 (-23)].

Definition x_win_spikes : Step0.farray2 :=
  {| Step0.f_nrows := 3; Step0.f_ncols := 4;
     Step0.f_at := fun t c => if negb (t =? 0)%nat && ((c =? 0)%nat || (c =? 3)%nat)
                              then S754_finite false 8388608 (-23) else S754_zero false |}.

(** ** windowing.py and build_dataset.py: windows and labels *)

Module Dataset.

(** [range(start, stop, step)]: [ValueError] on a zero step. *)
Definition py_range3 (start stop step : Z) : option (list Z) :=
  if step =? 0 then None
  else
    let n := if 0 <? step then (stop - start + step - 1) / step
             else (start - stop - step - 1) / (- step) in
    Some (map (fun i => start + Z.of_nat i * step) (seq 0 (Z.to_nat n))).

(** A slice bound as Python reads it: a negative one counts from the end,
    and the result is clamped to [0, len]. *)
Definition py_bound (len i : Z) : Z :=
  Z.max 0 (Z.min len (if i <? 0 then i + len else i)).

(** [x[a:b]] on the rows of an array *)
Definition py_slice {A : Type} (x : list A) (a b : Z) : list A :=
  let len := Z.of_nat (length x) in
  let a' := py_bound len a in
  let b' := py_bound len b in
  take (Z.to_nat (b' - a')) (drop (Z.to_nat a') x).

(** [np.stack(windows, axis=0)]: [ValueError] unless all windows have the
    same number of rows. *)
Definition np_stack_windows {A : Type} (windows : list (list A)) : option (list (list A)) :=
  match windows with
  | [] => None
  | w :: _ =>
      if forallb (fun w' => (length w' =? length w)%nat) windows then Some windows else None
  end.

(** [make_windows(x, y, window_len, stride)] on the rows of a
    two-dimensional array: the windows and their labels.  [np.zeros] refuses
    a negative [window_len], [np.array(labels, dtype=np.int64)] a label
    outside 64 bits. *)
Definition make_windows {A : Type} (x : list A) (y window_len stride : Z)
  : option (list (list A) * list Z) :=
  let T := Z.of_nat (length x) in
  starts ← py_range3 0 (T - window_len + 1) stride;
  let windows := map (fun start => py_slice x start (start + window_len)) starts in
  let labels := map (fun _ => y) starts in
  match windows with
  | [] => if window_len <? 0 then None else Some ([], [])
  | _ =>
      Xw ← np_stack_windows windows;
      if (- 2 ^ 63 <=? y) && (y <? 2 ^ 63) then Some (Xw, labels) else None
  end.

(** [classes.index(label)]: the first position of the label. *)
Fixpoint list_index (label : string) (classes : list string) : option nat :=
  match classes with
  | [] => None
  | c :: classes' => if String.eqb c label then Some 0%nat else S <$> list_index label classes'
  end.

(** [label_to_int(label, classes)]: [ValueError] on an unknown label. *)
Definition label_to_int (label : string) (classes : list string) : option nat :=
  if bool_decide (label ∈ classes) then list_index label classes else None.

End Dataset.

(** ** build_dataset.py: the windows of all runs *)

Module Build.

(** The rows of a [T x F] array. *)
Definition rows_of (x : Step0.farray2) : list (list Quantizer.float) :=
  map (fun t => map (Step0.f_at x t) (seq 0 (Step0.f_ncols x))) (seq 0 (Step0.f_nrows x)).

(** [np.concatenate(arrays, axis=0)] on window arrays, each given with its
    shape after the first axis, [(rows per window, F)]: [ValueError] on an
    empty list or when the shapes differ. *)
Definition np_concatenate {A : Type} (arrays : list ((nat * nat) * list A)) : option (list A) :=
  match arrays with
  | [] => None
  | (shape0, _) :: _ =>
      if forallb (fun a => (a.1.1 =? shape0.1)%nat && (a.1.2 =? shape0.2)%nat) arrays
      then Some (concat (map snd arrays)) else None
  end.

(** [concat_windows(items, window_len, stride)]; an item is a run with its
    label, its [meta] is not read.  A run without a window is left out; the
    label arrays of the others are one-dimensional and always concatenate. *)
Definition concat_windows (items : list (Step0.farray2 * Z)) (window_len stride : Z)
  : option (list (list (list Quantizer.float)) * list Z) :=
  per_run ← mapM (fun item : Step0.farray2 * Z =>
                    r ← Dataset.make_windows (rows_of item.1) item.2 window_len stride;
                    Some (Step0.f_ncols item.1, r)) items;
  let kept := filter (fun r : nat * (list (list (list Quantizer.float)) * list Z) =>
                        (0 < length r.2.1)%nat) per_run in
  match kept with
  | [] => if window_len <? 0 then None else Some ([], [])
  | _ =>
      X ← np_concatenate (map (fun r => ((length (hd [] r.2.1), r.1), r.2.1)) kept);
      Some (X, concat (map (fun r => r.2.2) kept))
  end.

End Build.

(** The number of windows of a run of [T] rows. *)
Definition window_count (T window_len stride : Z) : nat :=
  Z.to_nat (if T <? window_len then 0 else (T - window_len) / stride + 1).

(** Window [k] of a run: [window_len] rows from row [k * stride] on. *)
Definition windows_of {A : Type} (x : list A) (window_len stride : Z) : list (list A) :=
  map (fun k => take (Z.to_nat window_len) (drop (k * Z.to_nat stride) x))
    (seq 0 (window_count (Z.of_nat (length x)) window_len stride)).

(** Two runs of five and two rows of one feature. *)
Definition run_five : Step0.farray2 :=
  {| Step0.f_nrows := 5; Step0.f_ncols := 1;
     Step0.f_at := fun t _ => S754_finite false (Z.to_pos (8388608 + Z.of_nat t)) (-23) |}.

Definition run_two : Step0.farray2 :=
  {| Step0.f_nrows := 2; Step0.f_ncols := 1; Step0.f_at := fun _ _ => S754_zero false |}.

(** * Theorems *)

(** ** Bits of the control word *)

Lemma land_bit (a : Z) (k : Z) :
  0 <= k -> (Z.land a (Z.shiftl 1 k) =? 0) = negb (Z.testbit a k).
Proof.
  intros Hk.
  assert (E : Z.land a (Z.shiftl 1 k) = if Z.testbit a k then 2 ^ k else 0).
  { apply Z.bits_inj'. intros n Hn.
    rewrite Z.land_spec, Z.shiftl_spec by lia.
    destruct (Z.eq_dec n k) as [->|Hne].
    - rewrite Z.sub_diag. simpl. rewrite andb_true_r.
      destruct (Z.testbit a k); [now rewrite Z.pow2_bits_true | now rewrite Z.bits_0].
    - replace (Z.testbit 1 (n - k)) with false.
      + rewrite andb_false_r.
        destruct (Z.testbit a k); [now rewrite Z.pow2_bits_false by lia | now rewrite Z.bits_0].
      + destruct (Z.ltb_spec n k).
        * now rewrite Z.testbit_neg_r by lia.
        * symmetry. change 1 with (2 ^ 0). apply Z.pow2_bits_false. lia. }
  rewrite E. destruct (Z.testbit a k); simpl; [|reflexivity].
  apply Z.eqb_neq. pose proof (Z.pow_pos_nonneg 2 k). lia.
Qed.

Lemma land_u32_bit (v k : Z) :
  0 <= k < 32 -> Z.testbit (Z.land v 0xFFFFFFFF) k = Z.testbit v k.
Proof.
  intros Hk. rewrite Z.land_spec.
  change 0xFFFFFFFF with (Z.ones 32). rewrite Z.ones_spec_low by lia.
  apply andb_true_r.
Qed.

(** ** The register/stream emulator *)

Section EmulatorProps.

Import Emulator Regs.

Variable farray : Type.
Variable infer_counts :
  list (list bool) -> farray -> farray -> FloatSNNParams -> option (Z * Q * list Q).

#[local] Abbreviation emulator := (Emulator.emulator farray).
#[local] Abbreviation write_reg := (Emulator.write_reg farray infer_counts).
#[local] Abbreviation read_reg := (Emulator.read_reg farray).

Lemma write_control_unfold (value : Z) (e : emulator) :
  write_reg CONTROL value e =
  Emulator.bind farray (if reset_bit value then Emulator.reset farray else Emulator.ret farray tt)
    (fun _ => Emulator.bind farray
       (if start_bit value then Emulator.start_inference farray infer_counts else Emulator.ret farray tt)
       (fun _ => Emulator.set_reg farray CONTROL (Z.land value 0xFFFFFFFF))) e.
Proof.
  unfold Emulator.write_reg. change (CONTROL =? CONTROL) with true. cbv iota.
  unfold CTRL_RESET, CTRL_START.
  rewrite !land_bit by lia. rewrite !land_u32_bit by lia.
  unfold reset_bit, start_bit.
  destruct (Z.testbit value 1), (Z.testbit value 0); reflexivity.
Qed.

(** Claim C3.  A write to CONTROL with START set and RESET clear, when a
    weight matrix is missing or the stream buffer holds fewer than WINDOW_LEN
    words, returns normally with STATUS = ERR; RESULT_CLASS, COUNT0..COUNT2,
    CONF_Q15, LATENCY_CYCLES and the stream buffer are unchanged. *)
Theorem start_without_frame_sets_err (e : emulator) (value : Z) :
  start_bit value = true ->
  reset_bit value = false ->
  (W1 _ e = None \/ W2 _ e = None \/
   exists t, regs _ e !! WINDOW_LEN = Some t /\ Z.of_nat (length (stream_buf _ e)) < t) ->
  exists e',
    write_reg CONTROL value e = (e', Some tt) /\
    read_reg STATUS e' = STS_ERR /\
    read_reg RESULT_CLASS e' = read_reg RESULT_CLASS e /\
    read_reg COUNT0 e' = read_reg COUNT0 e /\
    read_reg COUNT1 e' = read_reg COUNT1 e /\
    read_reg COUNT2 e' = read_reg COUNT2 e /\
    read_reg CONF_Q15 e' = read_reg CONF_Q15 e /\
    read_reg LATENCY_CYCLES e' = read_reg LATENCY_CYCLES e /\
    stream_buf _ e' = stream_buf _ e.
Proof.
  intros Hs Hr Hcase. rewrite write_control_unfold, Hs, Hr.
  unfold Emulator.bind, Emulator.ret, Emulator.start_inference.
  assert (Herr : forall e0 : emulator,
    exists e', (let (e', o) := Emulator.set_reg farray STATUS STS_ERR e0 in
       match o with Some a => Emulator.set_reg farray CONTROL (Z.land value 4294967295) e' | None => (e', None) end) = (e', Some tt) /\
       read_reg STATUS e' = STS_ERR /\
       (forall off, off <> STATUS -> off <> CONTROL -> read_reg off e' = read_reg off e0) /\
       stream_buf _ e' = stream_buf _ e0).
  { intros e0. eexists. split; [reflexivity|]. unfold Emulator.read_reg. simpl.
    split; [|split]; [| |reflexivity].
    - rewrite lookup_insert_ne by done. now rewrite lookup_insert_eq.
    - intros off H1 H2. now rewrite !lookup_insert_ne by done. }
  assert (Hfin : exists e', (let (e', o) := Emulator.set_reg farray STATUS STS_ERR e in
       match o with Some a => Emulator.set_reg farray CONTROL (Z.land value 4294967295) e' | None => (e', None) end) = (e', Some tt) /\
    read_reg STATUS e' = STS_ERR /\
    read_reg RESULT_CLASS e' = read_reg RESULT_CLASS e /\
    read_reg COUNT0 e' = read_reg COUNT0 e /\
    read_reg COUNT1 e' = read_reg COUNT1 e /\
    read_reg COUNT2 e' = read_reg COUNT2 e /\
    read_reg CONF_Q15 e' = read_reg CONF_Q15 e /\
    read_reg LATENCY_CYCLES e' = read_reg LATENCY_CYCLES e /\
    stream_buf _ e' = stream_buf _ e).
  { destruct (Herr e) as (e' & E & Hst & Hoth & Hbuf). exists e'.
    repeat split; try assumption; apply Hoth; discriminate. }
  destruct (W1 _ e) as [w1|] eqn:E1; [|exact Hfin].
  destruct (W2 _ e) as [w2|] eqn:E2; [|exact Hfin].
  destruct Hcase as [H|[H|(t & Ht & Hlen)]]; try discriminate.
  unfold mbind, emulator_bind, Emulator.bind, Emulator.get_reg. rewrite Ht.
  apply Z.ltb_lt in Hlen. rewrite Hlen. exact Hfin.
Qed.

Ltac regs_lookup :=
  repeat first [ rewrite lookup_insert_eq | rewrite lookup_insert_ne by done ].

Lemma reset_spec (e : emulator) :
  exists e', Emulator.reset farray e = (e', Some tt) /\
    stream_buf _ e' = [] /\ W1 _ e' = W1 _ e /\ W2 _ e' = W2 _ e /\ cfg _ e' = cfg _ e /\
    regs _ e' !! WINDOW_LEN = regs _ e !! WINDOW_LEN /\
    read_reg STATUS e' = 0 /\ read_reg RESULT_CLASS e' = 0 /\
    read_reg COUNT0 e' = 0 /\ read_reg COUNT1 e' = 0 /\ read_reg COUNT2 e' = 0 /\
    read_reg CONF_Q15 e' = 0 /\ read_reg LATENCY_CYCLES e' = 0.
Proof.
  eexists. split; [reflexivity|]. unfold Emulator.read_reg. simpl.
  repeat split; try reflexivity;
    repeat (first [ rewrite lookup_insert_eq; reflexivity
                  | rewrite lookup_insert_ne by done ]); reflexivity.
Qed.

(** Claim C5, as amended.  A write to CONTROL with RESET set empties the
    stream buffer and zeroes RESULT_CLASS, COUNT0..COUNT2 and CONF_Q15,
    whatever the other bits of the word.  STATUS ends 0 when START is clear;
    when START is set as well the start runs after the reset, on the emptied
    buffer, and STATUS ends ERR (weights missing, or WINDOW_LEN at least 1). *)
Theorem control_reset_clears (e : emulator) (value : Z) :
  reset_bit value = true ->
  (start_bit value = false \/ W1 _ e = None \/ W2 _ e = None \/
   exists t, regs _ e !! WINDOW_LEN = Some t /\ 1 <= t) ->
  exists e',
    write_reg CONTROL value e = (e', Some tt) /\
    stream_buf _ e' = [] /\
    read_reg STATUS e' = (if start_bit value then STS_ERR else 0) /\
    read_reg RESULT_CLASS e' = 0 /\
    read_reg COUNT0 e' = 0 /\ read_reg COUNT1 e' = 0 /\ read_reg COUNT2 e' = 0 /\
    read_reg CONF_Q15 e' = 0.
Proof.
  intros Hr Hcase. rewrite write_control_unfold, Hr.
  destruct (reset_spec e) as (e1 & E1 & Hbuf & HW1 & HW2 & _ & HWL & Hst & Hrc & H0 & H1 & H2 & Hq & _).
  unfold Emulator.bind at 1. rewrite E1.
  destruct (start_bit value) eqn:Hs.
  - assert (Hs' : start_bit value = true) by exact Hs.
    assert (Hcase' : W1 _ e1 = None \/ W2 _ e1 = None \/
       exists t, regs _ e1 !! WINDOW_LEN = Some t /\ Z.of_nat (length (stream_buf _ e1)) < t).
    { rewrite HW1, HW2, HWL, Hbuf. destruct Hcase as [H|[H|[H|(t & Ht & Hlt)]]];
        [discriminate | auto | auto |].
      right; right. exists t. split; [exact Ht | simpl; lia]. }
    clear Hcase.
    unfold Emulator.bind, Emulator.start_inference.
    assert (Hfin : exists e', (let (e', o) := Emulator.set_reg farray STATUS STS_ERR e1 in
       match o with Some a => Emulator.set_reg farray CONTROL (Z.land value 4294967295) e' | None => (e', None) end) = (e', Some tt) /\
       stream_buf _ e' = [] /\ read_reg STATUS e' = STS_ERR /\
       read_reg RESULT_CLASS e' = 0 /\
       read_reg COUNT0 e' = 0 /\ read_reg COUNT1 e' = 0 /\ read_reg COUNT2 e' = 0 /\
       read_reg CONF_Q15 e' = 0).
    { eexists. split; [reflexivity|]. revert Hst Hrc H0 H1 H2 Hq.
      unfold Emulator.read_reg. simpl. intros.
      repeat split; regs_lookup; assumption || reflexivity. }
    destruct (W1 _ e1) as [w1|]; [|exact Hfin].
    destruct (W2 _ e1) as [w2|]; [|exact Hfin].
    destruct Hcase' as [H|[H|(t & Ht & Hlen)]]; try discriminate.
    unfold mbind, emulator_bind, Emulator.bind, Emulator.get_reg. rewrite Ht.
    apply Z.ltb_lt in Hlen. rewrite Hlen. exact Hfin.
  - unfold Emulator.bind, Emulator.ret. eexists. split; [reflexivity|].
    revert Hst Hrc H0 H1 H2 Hq. unfold Emulator.read_reg. simpl. intros.
    repeat split; regs_lookup; assumption || reflexivity.
Qed.

(** Claim C4, as amended.  With weights loaded, WINDOW_LEN = t with
    [1 <= t <= m] words queued, and the float engine returning on the frame
    with at least three counts, a write to CONTROL with START set and RESET
    clear runs the engine on exactly the first [t] words, leaves the other
    [m - t] queued in order, stores the result and ends with STATUS = DONE. *)
Theorem start_consumes_one_frame (e : emulator) (value : Z)
    (w1 w2 : farray) (t pred : Z) (conf : Q) (counts : list Q) :
  start_bit value = true ->
  reset_bit value = false ->
  W1 _ e = Some w1 -> W2 _ e = Some w2 ->
  regs _ e !! WINDOW_LEN = Some t ->
  1 <= t <= Z.of_nat (length (stream_buf _ e)) ->
  infer_counts (map (mask_to_spikes (n_in (cfg _ e))) (take (Z.to_nat t) (stream_buf _ e)))
    w1 w2 (float_params (cfg _ e) t) = Some (pred, conf, counts) ->
  (3 <= length counts)%nat ->
  exists e',
    write_reg CONTROL value e = (e', Some tt) /\
    stream_buf _ e = take (Z.to_nat t) (stream_buf _ e) ++ stream_buf _ e' /\
    Z.of_nat (length (stream_buf _ e')) = Z.of_nat (length (stream_buf _ e)) - t /\
    read_reg STATUS e' = STS_DONE /\
    read_reg RESULT_CLASS e' = pred /\
    Some (read_reg COUNT0 e') = py_int <$> counts !! 0%nat /\
    Some (read_reg COUNT1 e') = py_int <$> counts !! 1%nat /\
    Some (read_reg COUNT2 e') = py_int <$> counts !! 2%nat.
Proof.
  intros Hs Hr E1 E2 Ht [Ht1 Ht2] Hinf Hlen.
  rewrite write_control_unfold, Hs, Hr.
  unfold Emulator.bind at 1. unfold Emulator.ret at 1.
  unfold Emulator.bind at 1. unfold Emulator.start_inference. rewrite E1, E2.
  unfold mbind at 1. unfold emulator_bind, Emulator.bind at 1.
  unfold Emulator.get_reg at 1. rewrite Ht.
  replace (Z.of_nat (length (stream_buf _ e)) <? t) with false by (symmetry; apply Z.ltb_ge; lia).
  unfold py_slice_to, py_slice_from.
  replace (0 <=? t) with true by (symmetry; apply Z.leb_le; lia).
  destruct (take (Z.to_nat t) (stream_buf _ e)) as [|m0 frame] eqn:Efr.
  { apply (f_equal length) in Efr. rewrite length_take in Efr. simpl in Efr. lia. }
  destruct counts as [|c0 [|c1 [|c2 counts]]]; simpl in Hlen; try lia.
  unfold mbind, emulator_bind, Emulator.bind, Emulator.set_stream_buf, Emulator.set_reg,
    Emulator.lift_option. simpl. simpl in Hinf. rewrite Hinf. simpl.
  eexists. split; [reflexivity|]. unfold Emulator.read_reg. simpl.
  split; [|split].
  - rewrite <- (take_drop (Z.to_nat t) (stream_buf _ e)) at 1. rewrite Efr. reflexivity.
  - rewrite length_drop. lia.
  - repeat split; regs_lookup; reflexivity.
Qed.
End EmulatorProps.

Lemma start_without_frame_sets_err_witness :
  exists e',
    Emulator.write_reg unit infer_fixed Regs.CONTROL 1 emu_loaded = (e', Some tt) /\
    Emulator.read_reg unit Regs.STATUS e' = Regs.STS_ERR /\
    Emulator.read_reg unit Regs.RESULT_CLASS e' = Emulator.read_reg unit Regs.RESULT_CLASS emu_loaded /\
    Emulator.read_reg unit Regs.COUNT0 e' = Emulator.read_reg unit Regs.COUNT0 emu_loaded /\
    Emulator.read_reg unit Regs.COUNT1 e' = Emulator.read_reg unit Regs.COUNT1 emu_loaded /\
    Emulator.read_reg unit Regs.COUNT2 e' = Emulator.read_reg unit Regs.COUNT2 emu_loaded /\
    Emulator.read_reg unit Regs.CONF_Q15 e' = Emulator.read_reg unit Regs.CONF_Q15 emu_loaded /\
    Emulator.read_reg unit Regs.LATENCY_CYCLES e' =
      Emulator.read_reg unit Regs.LATENCY_CYCLES emu_loaded /\
    Emulator.stream_buf unit e' = Emulator.stream_buf unit emu_loaded.
Proof.
  apply (start_without_frame_sets_err unit infer_fixed emu_loaded 1).
  - reflexivity.
  - reflexivity.
  - right; right. exists 10. split; [vm_compute; reflexivity | simpl; lia].
Defined.

(** START on a loaded emulator whose WINDOW_LEN is 0: the empty frame makes
    [np.stack] raise, and STATUS is left at BUSY, not DONE. *)
Lemma start_on_empty_window_raises :
  Emulator.W1 unit emu_window0 = Some tt /\
  Emulator.W2 unit emu_window0 = Some tt /\
  Emulator.regs unit emu_window0 !! Regs.WINDOW_LEN = Some 0 /\
  0 <= Z.of_nat (length (Emulator.stream_buf unit emu_window0)) /\
  (Emulator.write_reg unit infer_fixed Regs.CONTROL Regs.CTRL_START emu_window0).2 = None /\
  Emulator.read_reg unit Regs.STATUS
    (Emulator.write_reg unit infer_fixed Regs.CONTROL Regs.CTRL_START emu_window0).1
    = Regs.STS_BUSY /\
  Regs.STS_BUSY <> Regs.STS_DONE.
Proof. vm_compute. repeat split; congruence. Qed.

Lemma start_consumes_one_frame_witness :
  exists e',
    Emulator.write_reg unit infer_fixed Regs.CONTROL 1 emu_three_words = (e', Some tt) /\
    Emulator.stream_buf unit emu_three_words =
      take (Z.to_nat 2) (Emulator.stream_buf unit emu_three_words) ++ Emulator.stream_buf unit e' /\
    Z.of_nat (length (Emulator.stream_buf unit e')) =
      Z.of_nat (length (Emulator.stream_buf unit emu_three_words)) - 2 /\
    Emulator.read_reg unit Regs.STATUS e' = Regs.STS_DONE /\
    Emulator.read_reg unit Regs.RESULT_CLASS e' = 2 /\
    Some (Emulator.read_reg unit Regs.COUNT0 e') =
      Emulator.py_int <$> [inject_Z 1; inject_Z 0; inject_Z 3] !! 0%nat /\
    Some (Emulator.read_reg unit Regs.COUNT1 e') =
      Emulator.py_int <$> [inject_Z 1; inject_Z 0; inject_Z 3] !! 1%nat /\
    Some (Emulator.read_reg unit Regs.COUNT2 e') =
      Emulator.py_int <$> [inject_Z 1; inject_Z 0; inject_Z 3] !! 2%nat.
Proof.
  apply (start_consumes_one_frame unit infer_fixed emu_three_words 1 tt tt 2 2 (3 # 4)%Q).
  - reflexivity.
  - reflexivity.
  - reflexivity.
  - reflexivity.
  - vm_compute; reflexivity.
  - vm_compute; split; discriminate.
  - reflexivity.
  - simpl; lia.
Defined.

(** A write of RESET|START to a loaded emulator with three words queued: the
    start runs after the reset and STATUS ends ERR, not 0. *)
Lemma reset_with_start_ends_err :
  reset_bit 3 = true /\
  Emulator.read_reg unit Regs.STATUS
    (Emulator.write_reg unit infer_fixed Regs.CONTROL 3 emu_three_words).1 = Regs.STS_ERR /\
  Regs.STS_ERR <> 0.
Proof. vm_compute. repeat split; congruence. Qed.

Lemma control_reset_clears_witness :
  exists e',
    Emulator.write_reg unit infer_fixed Regs.CONTROL 3 emu_three_words = (e', Some tt) /\
    Emulator.stream_buf unit e' = [] /\
    Emulator.read_reg unit Regs.STATUS e' = (if start_bit 3 then Regs.STS_ERR else 0) /\
    Emulator.read_reg unit Regs.RESULT_CLASS e' = 0 /\
    Emulator.read_reg unit Regs.COUNT0 e' = 0 /\
    Emulator.read_reg unit Regs.COUNT1 e' = 0 /\
    Emulator.read_reg unit Regs.COUNT2 e' = 0 /\
    Emulator.read_reg unit Regs.CONF_Q15 e' = 0.
Proof.
  apply (control_reset_clears unit infer_fixed emu_three_words 3).
  - reflexivity.
  - right; right; right. exists 2. split; [vm_compute; reflexivity | lia].
Defined.

(** ** Fixed-width arithmetic *)

Ltac wrap_arith :=
  unfold np_int16, np_int32, add32, sub32, wrap_signed, is_int16, is_int32 in *;
  change (2 ^ (16 - 1)) with 32768 in *; change (2 ^ 16) with 65536 in *;
  change (2 ^ (32 - 1)) with 2147483648 in *; change (2 ^ 32) with 4294967296 in *;
  Z.to_euclidean_division_equations; lia.

Lemma np_int16_id (x : Z) : is_int16 x -> np_int16 x = x.
Proof. intros H. wrap_arith. Qed.

Lemma np_int32_id (x : Z) : is_int32 x -> np_int32 x = x.
Proof. intros H. wrap_arith. Qed.

Lemma np_int16_range (x : Z) : is_int16 (np_int16 x).
Proof. wrap_arith. Qed.

Lemma np_int32_range (x : Z) : is_int32 (np_int32 x).
Proof. wrap_arith. Qed.

Lemma is_int16_int32 (x : Z) : is_int16 x -> is_int32 x.
Proof. unfold is_int16, is_int32. lia. Qed.

Lemma np_int16_int32 (x : Z) : np_int16 (np_int32 x) = np_int16 x.
Proof. wrap_arith. Qed.

Lemma np_int16_add_l (a b : Z) : np_int16 (np_int16 a + b) = np_int16 (a + b).
Proof. wrap_arith. Qed.

Lemma np_int16_add_r (a b : Z) : np_int16 (a + np_int16 b) = np_int16 (a + b).
Proof. wrap_arith. Qed.

Lemma np_int32_add_l (a b : Z) : np_int32 (np_int32 a + b) = np_int32 (a + b).
Proof. wrap_arith. Qed.

Lemma np_int32_add_r (a b : Z) : np_int32 (a + np_int32 b) = np_int32 (a + b).
Proof. wrap_arith. Qed.

Lemma is_int16b_spec (x : Z) : is_int16b x = true <-> is_int16 x.
Proof. unfold is_int16b, is_int16. rewrite andb_true_iff, !Z.leb_le. tauto. Qed.

(** The arithmetic shift keeps the sign and never grows the magnitude. *)
Lemma shiftr_nonneg_bounds (v s : Z) : 0 <= s -> 0 <= v -> 0 <= Z.shiftr v s <= v.
Proof.
  intros Hs Hv. rewrite Z.shiftr_div_pow2 by lia.
  pose proof (Z.pow_pos_nonneg 2 s ltac:(lia) Hs) as Hp.
  split; [apply Z.div_pos; lia|].
  apply Z.div_le_upper_bound; [lia|]. nia.
Qed.

Lemma shiftr_neg_bounds (v s : Z) : 0 <= s -> v < 0 -> v <= Z.shiftr v s <= -1.
Proof.
  intros Hs Hv. rewrite Z.shiftr_div_pow2 by lia.
  pose proof (Z.pow_pos_nonneg 2 s ltac:(lia) Hs) as Hp.
  split.
  - apply Z.div_le_lower_bound; [lia|]. nia.
  - assert (v / 2 ^ s < 0) by (apply Z.div_lt_upper_bound; lia). lia.
Qed.

Lemma shiftr_int16 (v s : Z) : 0 <= s -> is_int16 v -> is_int16 (Z.shiftr v s).
Proof.
  intros Hs Hv. unfold is_int16 in *.
  destruct (Z.lt_ge_cases v 0).
  - pose proof (shiftr_neg_bounds v s Hs ltac:(lia)). lia.
  - pose proof (shiftr_nonneg_bounds v s Hs ltac:(lia)). lia.
Qed.

Lemma leak_int16 (v s : Z) : 0 <= s -> is_int16 v -> is_int16 (v - Z.shiftr v s).
Proof.
  intros Hs Hv. unfold is_int16 in *.
  destruct (Z.lt_ge_cases v 0).
  - pose proof (shiftr_neg_bounds v s Hs ltac:(lia)). lia.
  - pose proof (shiftr_nonneg_bounds v s Hs ltac:(lia)). lia.
Qed.

Lemma asr16_exact (v s : Z) : 0 <= s -> is_int16 v -> GenVec.asr16 v s = Z.shiftr v s.
Proof.
  intros Hs Hv. unfold GenVec.asr16, rshift32.
  rewrite (np_int32_id v) by now apply is_int16_int32.
  pose proof (shiftr_int16 v s Hs Hv) as Hr.
  rewrite (np_int32_id (Z.shiftr v s)) by now apply is_int16_int32.
  rewrite (np_int16_id _ Hr). now destruct (0 <=? v).
Qed.

Lemma leak16_exact (v s : Z) : 0 <= s -> is_int16 v -> GenVec.leak16 s v = v - Z.shiftr v s.
Proof.
  intros Hs Hv. unfold GenVec.leak16, sub32. rewrite asr16_exact by assumption.
  pose proof (shiftr_int16 v s Hs Hv) as Hr. pose proof (leak_int16 v s Hs Hv) as Hl.
  rewrite (np_int32_id v), (np_int32_id (Z.shiftr v s)) by now apply is_int16_int32.
  rewrite (np_int32_id _ (is_int16_int32 _ Hl)). now apply np_int16_id.
Qed.

Lemma leak32_exact (v s : Z) : 0 <= s -> is_int16 v -> Golden.leak32 s v = v - Z.shiftr v s.
Proof.
  intros Hs Hv. unfold Golden.leak32, sub32, rshift32.
  pose proof (shiftr_int16 v s Hs Hv) as Hr. pose proof (leak_int16 v s Hs Hv) as Hl.
  rewrite (np_int32_id (Z.shiftr v s)) by now apply is_int16_int32.
  now rewrite (np_int32_id _ (is_int16_int32 _ Hl)).
Qed.

Lemma np_int16_add_int32_r (a b : Z) : np_int16 (a + np_int32 b) = np_int16 (a + b).
Proof. wrap_arith. Qed.

Lemma np_int16_add_int32_l (a b : Z) : np_int16 (np_int32 a + b) = np_int16 (a + b).
Proof. rewrite Z.add_comm, np_int16_add_int32_r. f_equal. lia. Qed.

Lemma accumulate16_wrap (a i : Z) : GenVec.accumulate16 a i = np_int16 (a + i).
Proof.
  unfold GenVec.accumulate16, add32.
  now rewrite np_int16_int32, np_int16_add_int32_r, np_int16_add_int32_l.
Qed.

Lemma add16_step (x w : Z) :
  np_int16 (add32 (np_int32 (np_int16 x)) (np_int32 w)) = np_int16 (x + w).
Proof.
  unfold add32.
  now rewrite np_int16_int32, np_int16_add_int32_r, np_int16_add_int32_l, np_int16_add_l.
Qed.

Lemma add32_step (x w : Z) : add32 (np_int32 x) (np_int32 w) = np_int32 (x + w).
Proof. unfold add32. now rewrite np_int32_add_l, np_int32_add_r. Qed.

(** ** The weighted input of a layer, in closed form *)

Section WeightedInput.

Variable W : ndarray2.

Lemma get2_in (i j : nat) :
  (i < nrows W)%nat -> (j < ncols W)%nat -> get2 W i j = Some (at2 W i j).
Proof.
  intros Hi Hj. unfold get2.
  apply Nat.ltb_lt in Hi. apply Nat.ltb_lt in Hj. now rewrite Hi, Hj.
Qed.

Lemma add_row16_closed (r : nat) (c : nat -> Z) (m k : nat) :
  (r < nrows W)%nat -> (k + m <= ncols W)%nat ->
  GenVec.add_row16 W r k (map (fun j => np_int16 (c j)) (seq k m)) =
  Some (map (fun j => np_int16 (c j + at2 W r j)) (seq k m)).
Proof.
  intros Hr. revert k. induction m as [|m IH]; intros k Hk; [reflexivity|].
  simpl. rewrite get2_in by lia. simpl.
  rewrite IH by lia. simpl. now rewrite add16_step.
Qed.

Lemma weighted_input16_closed (active : list bool) (r n : nat) (c : nat -> Z) :
  (r + length active <= nrows W)%nat -> (n <= ncols W)%nat ->
  GenVec.weighted_input16 W r active (map (fun j => np_int16 (c j)) (seq 0 n)) =
  Some (map (fun j => np_int16 (c j + active_sum W j r active)) (seq 0 n)).
Proof.
  revert r c. induction active as [|b active IH]; intros r c Hr Hn.
  - simpl. f_equal. apply map_ext. intros j. now rewrite Z.add_0_r.
  - simpl in Hr. simpl GenVec.weighted_input16. destruct b.
    + rewrite (add_row16_closed r c n 0) by lia. simpl.
      rewrite (IH (S r) (fun j => c j + at2 W r j)) by lia.
      f_equal. apply map_ext. intros j. simpl. f_equal. lia.
    + simpl. rewrite (IH (S r) c) by lia. reflexivity.
Qed.

Lemma np_zeros_closed16 (n : nat) : np_zeros n = map (fun _ : nat => np_int16 0) (seq 0 n).
Proof.
  unfold np_zeros. generalize 0%nat. induction n as [|n IH]; intros k; [reflexivity|].
  simpl. now rewrite <- IH.
Qed.

Lemma np_zeros_closed32 (n : nat) : np_zeros n = map (fun _ : nat => np_int32 0) (seq 0 n).
Proof.
  unfold np_zeros. generalize 0%nat. induction n as [|n IH]; intros k; [reflexivity|].
  simpl. now rewrite <- IH.
Qed.

(** The int16 weighted input of a layer, from zero. *)
Lemma weighted_input16_zeros (active : list bool) (n : nat) :
  (length active <= nrows W)%nat -> (n <= ncols W)%nat ->
  GenVec.weighted_input16 W 0 active (np_zeros n) =
  Some (map (fun j => np_int16 (active_sum W j 0 active)) (seq 0 n)).
Proof.
  intros Ha Hn. rewrite np_zeros_closed16.
  now rewrite (weighted_input16_closed active 0 n (fun _ => 0)) by lia.
Qed.

Lemma add_row32_closed (src n : nat) (c : nat -> Z) :
  (src < nrows W)%nat -> n = ncols W ->
  Golden.add_row32 W (map (fun j => np_int32 (c j)) (seq 0 n)) src =
  Some (map (fun j => np_int32 (c j + at2 W src j)) (seq 0 n)).
Proof.
  intros Hs ->. unfold Golden.add_row32, get_row.
  apply Nat.ltb_lt in Hs. rewrite Hs. simpl.
  unfold Golden.np_broadcast_to. rewrite !length_map, !length_seq, Nat.eqb_refl. simpl.
  f_equal. rewrite map_map. generalize 0%nat.
  induction (ncols W) as [|m IH]; intros k; [reflexivity|].
  simpl. rewrite IH. f_equal. apply add32_step.
Qed.

Lemma for_each_add_row32_closed (ev : list nat) (n : nat) (c : nat -> Z) :
  Forall (fun src => (src < nrows W)%nat) ev -> n = ncols W ->
  for_each (Golden.add_row32 W) (map (fun j => np_int32 (c j)) (seq 0 n)) ev =
  Some (map (fun j => np_int32 (c j + event_sum W j ev)) (seq 0 n)).
Proof.
  intros Hev Hn. revert c. induction Hev as [|src ev Hsrc Hev IH]; intros c.
  - simpl. f_equal. apply map_ext. intros j. now rewrite Z.add_0_r.
  - simpl. rewrite add_row32_closed by assumption. simpl.
    rewrite (IH (fun j => c j + at2 W src j)).
    f_equal. apply map_ext. intros j. f_equal. lia.
Qed.

Lemma event_sum_filter (j : nat) (f : nat -> bool) (m r : nat) :
  event_sum W j (filter (fun ch => f ch = true) (seq r m)) =
  active_sum W j r (map f (seq r m)).
Proof.
  revert r. induction m as [|m IH]; intros r; [reflexivity|].
  simpl. rewrite filter_cons. destruct (f r) eqn:E.
  - rewrite decide_True by reflexivity. simpl. now rewrite IH.
  - rewrite decide_False by discriminate. now rewrite IH.
Qed.

Lemma dot_col_active (j : nat) (bs : list bool) (i : nat) :
  Golden.dot_col W j i (map (fun b : bool => if b then 1 else 0) bs) = active_sum W j i bs.
Proof.
  revert i. induction bs as [|b bs IH]; intros i; [reflexivity|].
  simpl. rewrite IH. destruct b; lia.
Qed.

End WeightedInput.

(** ** The first maximum *)

Lemma argmax_from_spec (l pre : list Z) (bi : nat) (b : Z) :
  pre !! bi = Some b ->
  (forall j x, pre !! j = Some x -> x <= b) ->
  (forall j x, (j < bi)%nat -> pre !! j = Some x -> x < b) ->
  first_max (pre ++ l) (argmax_from bi b (length pre) l).
Proof.
  revert pre bi b. induction l as [|x l IH]; intros pre bi b Hb Hle Hlt.
  - simpl. rewrite app_nil_r. exists b. auto.
  - simpl. replace (pre ++ x :: l) with ((pre ++ [x]) ++ l) by now rewrite <- app_assoc.
    replace (S (length pre)) with (length (pre ++ [x])) by (rewrite length_app; simpl; lia).
    destruct (Z.ltb_spec b x) as [Hbx|Hbx]; apply IH.
    + rewrite lookup_app_r by lia. now rewrite Nat.sub_diag.
    + intros j y Hj. apply lookup_app_Some in Hj as [Hj|[_ Hj]].
      * specialize (Hle j y Hj). lia.
      * destruct (j - length pre)%nat; simpl in Hj; [|discriminate]. injection Hj as <-. lia.
    + intros j y Hjl Hj. rewrite lookup_app_l in Hj by exact Hjl.
      specialize (Hle j y Hj). lia.
    + rewrite lookup_app_l; [exact Hb|]. now apply lookup_lt_Some in Hb.
    + intros j y Hj. apply lookup_app_Some in Hj as [Hj|[_ Hj]].
      * exact (Hle j y Hj).
      * destruct (j - length pre)%nat; simpl in Hj; [|discriminate]. injection Hj as <-. lia.
    + intros j y Hjl Hj. apply lookup_app_Some in Hj as [Hj|[Hge _]].
      * exact (Hlt j y Hjl Hj).
      * apply lookup_lt_Some in Hb. lia.
Qed.

Lemma np_argmax_spec (l : list Z) :
  (1 <= length l)%nat -> exists k, np_argmax l = Some k /\ first_max l k.
Proof.
  destruct l as [|x l]; simpl; [lia|]. intros _. eexists. split; [reflexivity|].
  apply (argmax_from_spec l [x] 0 x).
  - reflexivity.
  - intros [|j] y Hj; simpl in Hj; [injection Hj as <-; lia | discriminate].
  - intros j y Hj. lia.
Qed.

Lemma np_argmax_first_max (l : list Z) (k : nat) :
  np_argmax l = Some k -> first_max l k.
Proof.
  intros H. destruct l as [|x l]; [discriminate|].
  destruct (np_argmax_spec (x :: l)) as (k' & E & Hk); [simpl; lia|]. congruence.
Qed.

(** ** The two engines step together *)

Section LayerAgreement.

Variables (shift th : Z).
Hypothesis shift_nonneg : 0 <= shift.

Lemma membrane_agree (V I : list Z) :
  Forall is_int16 V ->
  Forall is_int16 (Golden.membrane32 shift V I) ->
  GenVec.membrane16 shift V (map np_int16 I) = Golden.membrane32 shift V I.
Proof.
  unfold GenVec.membrane16, Golden.membrane32.
  intros HV. revert I. induction HV as [|v V Hv HV IH]; intros I Hfit; [reflexivity|].
  destruct I as [|i I]; [reflexivity|]. simpl in *.
  apply Forall_cons in Hfit as [Hi Hfit]. rewrite (IH I Hfit). f_equal.
  rewrite accumulate16_wrap, np_int16_add_r, leak16_exact by assumption.
  rewrite leak32_exact in * by assumption. unfold add32 in *.
  rewrite <- np_int16_int32. now apply np_int16_id.
Qed.

Lemma spikes_agree (Vn : list Z) :
  map (Golden.spike th) Vn = map b2z (map (GenVec.fires th) Vn).
Proof.
  rewrite map_map. apply map_ext. intros v.
  unfold Golden.spike, GenVec.fires, b2z. reflexivity.
Qed.

Lemma reset_agree (Vn : list Z) :
  zip_with Golden.where_reset (map (Golden.spike th) Vn) Vn = map (GenVec.reset16 th) Vn.
Proof.
  induction Vn as [|v Vn IH]; [reflexivity|]. simpl. rewrite IH. f_equal.
  unfold Golden.where_reset, Golden.spike, GenVec.reset16, GenVec.fires.
  now destruct (th <=? v).
Qed.

Lemma reset_int16 (Vn : list Z) :
  Forall is_int16 Vn -> Forall is_int16 (map (GenVec.reset16 th) Vn).
Proof.
  intros H. apply Forall_map. eapply Forall_impl; [exact H|].
  intros v Hv. unfold GenVec.reset16. simpl. destruct (GenVec.fires th v); [|exact Hv].
  apply np_int16_range.
Qed.

Lemma counts_agree (C Vn : list Z) :
  Forall is_int32 C ->
  zip_with add32 C (map (Golden.spike th) Vn) =
  GenVec.count_spikes C (map (GenVec.fires th) Vn).
Proof.
  unfold GenVec.count_spikes. intros HC. revert Vn.
  induction HC as [|c C Hc HC IH]; intros Vn; [reflexivity|].
  destruct Vn as [|v Vn]; [reflexivity|]. simpl. rewrite IH. f_equal.
  unfold Golden.spike, GenVec.fires. destruct (th <=? v); [reflexivity|].
  unfold add32. rewrite Z.add_0_r. now apply np_int32_id.
Qed.

Lemma count_spikes_int32 (C : list Z) (bs : list bool) :
  Forall is_int32 C -> Forall is_int32 (GenVec.count_spikes C bs).
Proof.
  unfold GenVec.count_spikes. intros HC. revert bs.
  induction HC as [|c C Hc HC IH]; intros bs; [constructor|].
  destruct bs as [|b bs]; [constructor|]. simpl. constructor; [|apply IH].
  destruct b; [apply np_int32_range | exact Hc].
Qed.

End LayerAgreement.

Section EngineAgreement.

Variables (W1 W2 : ndarray2) (p : GenVec.IntSNNParams).
Hypothesis shapes : shapes_ok p W1 W2.
Hypothesis shift_h_nonneg : 0 <= GenVec.leak_h_shift p.
Hypothesis shift_o_nonneg : 0 <= GenVec.leak_o_shift p.

Lemma hidden_input16_closed (m : Z) :
  GenVec.weighted_input16 W1 0
    (map (GenVec.mask_bit (Z.land m 0xFFF)) (seq 0 (GenVec.n_in p)))
    (np_zeros (GenVec.n_hidden p)) = Some (map np_int16 (hidden_input32 W1 p m)).
Proof.
  destruct shapes as (R1 & C1 & _).
  rewrite weighted_input16_zeros by (rewrite ?length_map, ?length_seq; lia).
  unfold hidden_input32. rewrite map_map. f_equal. apply map_ext. intros j.
  now rewrite np_int16_int32.
Qed.

Lemma events_of_mask_bound (m : Z) :
  Forall (fun src => (src < nrows W1)%nat) (events_of_mask (GenVec.n_in p) m).
Proof.
  destruct shapes as (R1 & _). unfold events_of_mask.
  apply Forall_forall. intros src Hin.
  apply list_elem_of_filter in Hin as [_ Hin].
  apply elem_of_seq in Hin. lia.
Qed.

Lemma hidden_input32_closed (m : Z) :
  for_each (Golden.add_row32 W1) (np_zeros (GenVec.n_hidden p))
    (events_of_mask (GenVec.n_in p) m) = Some (hidden_input32 W1 p m).
Proof.
  destruct shapes as (R1 & C1 & _).
  rewrite np_zeros_closed32.
  rewrite (for_each_add_row32_closed W1 _ _ (fun _ => 0))
    by (auto using events_of_mask_bound).
  unfold hidden_input32, events_of_mask. f_equal. apply map_ext. intros j.
  now rewrite event_sum_filter.
Qed.

Lemma output_input16_closed (bs : list bool) :
  length bs = GenVec.n_hidden p ->
  GenVec.weighted_input16 W2 0 bs (np_zeros (GenVec.n_out p)) =
  Some (map np_int16 (output_input32 W2 p bs)).
Proof.
  destruct shapes as (_ & _ & R2 & C2). intros Hb.
  rewrite weighted_input16_zeros by lia.
  unfold output_input32. rewrite map_map. f_equal. apply map_ext. intros j.
  now rewrite np_int16_int32.
Qed.

Lemma matmul32_closed (bs : list bool) :
  length bs = GenVec.n_hidden p ->
  Golden.matmul32 (map b2z bs) W2 = Some (output_input32 W2 p bs).
Proof.
  destruct shapes as (_ & _ & R2 & C2). intros Hb.
  unfold Golden.matmul32. rewrite length_map, Hb, R2, Nat.eqb_refl, C2.
  unfold output_input32. f_equal. apply map_ext. intros j.
  unfold b2z. now rewrite dot_col_active.
Qed.

Lemma np_broadcast_same (n : nat) (v : list Z) :
  length v = n -> Golden.np_broadcast_to n v = Some v.
Proof. intros <-. unfold Golden.np_broadcast_to. now rewrite Nat.eqb_refl. Qed.

Lemma length_membrane32 (s : Z) (V I : list Z) :
  length V = length I -> length (Golden.membrane32 s V I) = length V.
Proof.
  intros H. unfold Golden.membrane32. rewrite length_zip_with, length_map. lia.
Qed.

(** One timestep: when the int32 engine's potentials fit 16 bits, both
    engines step to the same state. *)
Lemma timestep_agree (st : GenVec.state) (m : Z) :
  state_ok p st ->
  Golden.step_fits16 W1 W2 (golden_params p) (widen st)
    (events_of_mask (GenVec.n_in p) m) = true ->
  exists st',
    GenVec.timestep W1 W2 p st m = Some st' /\
    Golden.timestep W1 W2 (golden_params p) (widen st)
      (events_of_mask (GenVec.n_in p) m) = Some (widen st') /\
    state_ok p st'.
Proof.
  intros [LVh LVo LC HVh HVo HC] Hfit.
  unfold Golden.step_fits16, Golden.timestep, Golden.hidden_membrane,
    Golden.output_membrane, GenVec.timestep in *.
  simpl in *. rewrite hidden_input32_closed in *. rewrite hidden_input16_closed.
  simpl in *.
  set (Vh1 := Golden.membrane32 (GenVec.leak_h_shift p) (GenVec.Vh st) (hidden_input32 W1 p m)) in *.
  assert (LVh1 : length Vh1 = GenVec.n_hidden p).
  { unfold Vh1. rewrite length_membrane32; [exact LVh|].
    unfold hidden_input32. now rewrite length_map, length_seq. }
  apply andb_true_iff in Hfit as [Hfh Hfo].
  assert (HVh1 : Forall is_int16 Vh1).
  { apply Forall_forall. intros v Hv. apply is_int16b_spec.
    rewrite forallb_forall in Hfh. apply Hfh. now apply list_elem_of_In. }
  rewrite (membrane_agree _ shift_h_nonneg _ _ HVh HVh1). fold Vh1.
  rewrite spikes_agree in *.
  set (bs := map (GenVec.fires (GenVec.th_h p)) Vh1) in *.
  assert (Lbs : length bs = GenVec.n_hidden p) by (unfold bs; now rewrite length_map).
  rewrite (matmul32_closed bs Lbs) in *. rewrite (output_input16_closed bs Lbs).
  simpl in *.
  assert (LIo : length (output_input32 W2 p bs) = GenVec.n_out p).
  { unfold output_input32. now rewrite length_map, length_seq. }
  rewrite np_broadcast_same in * by lia. simpl in *.
  set (Vo1 := Golden.membrane32 (GenVec.leak_o_shift p) (GenVec.Vo st) (output_input32 W2 p bs)) in *.
  assert (LVo1 : length Vo1 = GenVec.n_out p).
  { unfold Vo1. rewrite length_membrane32; lia. }
  assert (HVo1 : Forall is_int16 Vo1).
  { apply Forall_forall. intros v Hv. apply is_int16b_spec.
    rewrite forallb_forall in Hfo. apply Hfo. now apply list_elem_of_In. }
  rewrite (membrane_agree _ shift_o_nonneg _ _ HVo HVo1). fold Vo1.
  eexists. split; [reflexivity|]. split.
  - unfold widen. simpl. f_equal. f_equal.
    + unfold bs. rewrite <- spikes_agree. apply reset_agree.
    + apply reset_agree.
    + now apply counts_agree.
  - constructor; simpl.
    + now rewrite length_map.
    + now rewrite length_map.
    + unfold GenVec.count_spikes. rewrite length_zip_with, length_map. lia.
    + now apply reset_int16.
    + now apply reset_int16.
    + now apply count_spikes_int32.
Qed.

End EngineAgreement.

Lemma window_of_map {A B : Type} (f : A -> B) (xs : list A) (wl : Z) :
  window_of (map f xs) wl = map f (window_of xs wl).
Proof. unfold window_of. rewrite length_map. symmetry. apply (fmap_take f). Qed.

Lemma init_ok (p : GenVec.IntSNNParams) : state_ok p (GenVec.init p).
Proof.
  constructor; simpl; unfold np_zeros; rewrite ?length_replicate; try reflexivity;
    apply Forall_replicate; unfold is_int16, is_int32; lia.
Qed.

Lemma widen_init (p : GenVec.IntSNNParams) :
  widen (GenVec.init p) = Golden.init (golden_params p).
Proof. reflexivity. Qed.

Section RunAgreement.

Variables (W1 W2 : ndarray2) (p : GenVec.IntSNNParams).
Hypothesis shapes : shapes_ok p W1 W2.
Hypothesis shift_h_nonneg : 0 <= GenVec.leak_h_shift p.
Hypothesis shift_o_nonneg : 0 <= GenVec.leak_o_shift p.

Lemma run_agree (masks : list Z) (st : GenVec.state) :
  state_ok p st ->
  Golden.steps_fit16 W1 W2 (golden_params p) (widen st)
    (map (events_of_mask (GenVec.n_in p)) masks) = true ->
  exists st',
    for_each (GenVec.timestep W1 W2 p) st masks = Some st' /\
    for_each (Golden.timestep W1 W2 (golden_params p)) (widen st)
      (map (events_of_mask (GenVec.n_in p)) masks) = Some (widen st') /\
    state_ok p st'.
Proof.
  revert st. induction masks as [|m masks IH]; intros st Hok Hfit.
  - exists st. auto.
  - simpl in Hfit. apply andb_true_iff in Hfit as [Hstep Hrest].
    destruct (timestep_agree W1 W2 p shapes shift_h_nonneg shift_o_nonneg st m Hok Hstep)
      as (st1 & E16 & E32 & Hok1).
    rewrite E32 in Hrest. destruct (IH st1 Hok1 Hrest) as (st' & F16 & F32 & Hok').
    exists st'. simpl. rewrite E16, E32. simpl. auto.
Qed.


End RunAgreement.

Lemma W1_mixed_int8 : int8_matrix W1_mixed.
Proof.
  intros i j _ _. unfold is_int8. simpl.
  pose proof (Z.mod_pos_bound (Z.of_nat (i * 7 + j * 3)) 40). lia.
Qed.

Lemma W2_mixed_int8 : int8_matrix W2_mixed.
Proof.
  intros i j _ _. unfold is_int8. simpl.
  pose proof (Z.mod_pos_bound (Z.of_nat (i * 5 + j * 11)) 50). lia.
Qed.



(** ** The reference configuration stays within 16 bits *)

(** The leak never grows the magnitude bound. *)
Lemma leak_within (B v : Z) :
  within B v -> within (B - B / 16) (v - Z.shiftr v 4).
Proof.
  unfold within. intros H. rewrite Z.shiftr_div_pow2 by lia.
  change (2 ^ 4) with 16. Z.to_euclidean_division_equations. lia.
Qed.

Lemma active_sum_within (W : ndarray2) (j : nat) (active : list bool) (r : nat) :
  int8_matrix W -> (j < ncols W)%nat -> (r + length active <= nrows W)%nat ->
  within (128 * Z.of_nat (length active)) (active_sum W j r active).
Proof.
  intros HW Hj. revert r. induction active as [|b active IH]; intros r Hr.
  - unfold within. simpl. lia.
  - simpl in Hr. specialize (IH (S r) ltac:(lia)).
    pose proof (HW r j ltac:(lia) Hj) as Hw. unfold is_int8 in Hw.
    unfold within in *. simpl active_sum. simpl length.
    destruct b; lia.
Qed.

Lemma within_int16 (B v : Z) : B <= 32767 -> within B v -> is_int16 v.
Proof. unfold within, is_int16. lia. Qed.

Lemma within_mono (B B' v : Z) : B <= B' -> within B v -> within B' v.
Proof. unfold within. lia. Qed.

Lemma membrane32_within (B I : Z) (V Iv : list Z) :
  next_bound I B <= 32767 -> 0 <= I -> 0 <= B <= 32767 ->
  Forall (within B) V -> Forall (within I) Iv ->
  Forall (within (next_bound I B)) (Golden.membrane32 4 V Iv).
Proof.
  intros Hn HI HB HV. revert Iv. unfold Golden.membrane32.
  induction HV as [|v V Hv HV IH]; intros Iv HIv; [constructor|].
  destruct HIv as [|i Iv Hi HIv]; [constructor|]. simpl.
  constructor; [|now apply IH].
  rewrite leak32_exact by (try lia; now apply (within_int16 B)).
  pose proof (leak_within B v Hv) as Hl.
  unfold add32, next_bound, within in *.
  rewrite np_int32_id by (unfold is_int32; lia). lia.
Qed.

Lemma reset_within (B th : Z) (Vn : list Z) :
  0 <= B -> Forall (within B) Vn ->
  Forall (within B) (zip_with Golden.where_reset (map (Golden.spike th) Vn) Vn).
Proof.
  intros HB H. induction H as [|v Vn Hv H IH]; [constructor|].
  simpl. constructor; [|exact IH].
  unfold Golden.where_reset, Golden.spike. destruct (th <=? v); simpl; [|exact Hv].
  unfold within. lia.
Qed.

Section ReferenceBounds.

Variables (W1 W2 : ndarray2) (p : GenVec.IntSNNParams).
Hypothesis shapes : shapes_ok p W1 W2.
Hypothesis W1_int8 : int8_matrix W1.
Hypothesis W2_int8 : int8_matrix W2.
Hypothesis n_in_ref : (GenVec.n_in p <= 12)%nat.
Hypothesis n_hidden_ref : (GenVec.n_hidden p <= 32)%nat.
Hypothesis leak_h_ref : GenVec.leak_h_shift p = 4.
Hypothesis leak_o_ref : GenVec.leak_o_shift p = 4.

Lemma hidden_input_within (m : Z) : Forall (within 1536) (hidden_input32 W1 p m).
Proof.
  destruct shapes as (R1 & C1 & _). unfold hidden_input32.
  apply Forall_map, Forall_forall. intros j Hj. apply elem_of_seq in Hj. simpl.
  pose proof (active_sum_within W1 j
    (map (GenVec.mask_bit (Z.land m 0xFFF)) (seq 0 (GenVec.n_in p))) 0 W1_int8) as H.
  rewrite length_map, length_seq in H. specialize (H ltac:(lia) ltac:(lia)).
  unfold within in *. rewrite np_int32_id by (unfold is_int32; lia). lia.
Qed.

Lemma output_input_within (bs : list bool) :
  length bs = GenVec.n_hidden p -> Forall (within 4096) (output_input32 W2 p bs).
Proof.
  destruct shapes as (_ & _ & R2 & C2). intros Hb. unfold output_input32.
  apply Forall_map, Forall_forall. intros j Hj. apply elem_of_seq in Hj. simpl.
  pose proof (active_sum_within W2 j bs 0 W2_int8 ltac:(lia) ltac:(lia)) as H.
  unfold within in *. rewrite np_int32_id by (unfold is_int32; lia). lia.
Qed.

Lemma step_within (st : Golden.state) (m : Z) (Bh Bo : Z) :
  0 <= Bh <= 32767 -> 0 <= Bo <= 32767 ->
  next_bound 1536 Bh <= 32767 -> next_bound 4096 Bo <= 32767 ->
  state_within p Bh Bo st ->
  Golden.step_fits16 W1 W2 (golden_params p) st (events_of_mask (GenVec.n_in p) m) = true /\
  exists st',
    Golden.timestep W1 W2 (golden_params p) st (events_of_mask (GenVec.n_in p) m) = Some st' /\
    state_within p (next_bound 1536 Bh) (next_bound 4096 Bo) st'.
Proof.
  intros HBh HBo Hnh Hno ((LVh & LVo & LC) & HVh & HVo).
  simpl in LVh, LVo, LC.
  unfold Golden.step_fits16, Golden.timestep, Golden.hidden_membrane, Golden.output_membrane.
  simpl. rewrite (hidden_input32_closed W1 W2 p shapes). simpl.
  rewrite leak_h_ref, leak_o_ref.
  set (Vh1 := Golden.membrane32 4 (Golden.Vh st) (hidden_input32 W1 p m)).
  assert (HVh1 : Forall (within (next_bound 1536 Bh)) Vh1).
  { apply membrane32_within; try assumption; try lia. apply hidden_input_within. }
  assert (LVh1 : length Vh1 = GenVec.n_hidden p).
  { unfold Vh1. rewrite length_membrane32; [exact LVh|].
    unfold hidden_input32. now rewrite length_map, length_seq. }
  rewrite spikes_agree.
  set (bs := map (GenVec.fires (GenVec.th_h p)) Vh1).
  assert (Lbs : length bs = GenVec.n_hidden p) by (unfold bs; now rewrite length_map).
  rewrite (matmul32_closed W1 W2 p shapes bs Lbs). simpl.
  assert (LIo : length (output_input32 W2 p bs) = GenVec.n_out p).
  { unfold output_input32. now rewrite length_map, length_seq. }
  rewrite np_broadcast_same by lia. simpl.
  set (Vo1 := Golden.membrane32 4 (Golden.Vo st) (output_input32 W2 p bs)).
  assert (HVo1 : Forall (within (next_bound 4096 Bo)) Vo1).
  { apply membrane32_within; try assumption; try lia. now apply output_input_within. }
  assert (LVo1 : length Vo1 = GenVec.n_out p).
  { unfold Vo1. rewrite length_membrane32; lia. }
  split.
  - apply andb_true_iff. split; apply forallb_forall; intros v Hv;
      apply is_int16b_spec; apply list_elem_of_In in Hv.
    + rewrite Forall_forall in HVh1. now apply (within_int16 (next_bound 1536 Bh)), HVh1.
    + rewrite Forall_forall in HVo1. now apply (within_int16 (next_bound 4096 Bo)), HVo1.
  - eexists. split; [reflexivity|]. split; [|split]; simpl.
    + repeat split; simpl.
      * rewrite length_zip_with, !length_map. lia.
      * rewrite length_zip_with, !length_map. lia.
      * rewrite length_zip_with, !length_map. lia.
    + unfold bs. rewrite <- spikes_agree. apply reset_within; [|exact HVh1].
      unfold next_bound. Z.to_euclidean_division_equations. lia.
    + apply reset_within; [|exact HVo1].
      unfold next_bound. Z.to_euclidean_division_equations. lia.
Qed.

Lemma bound_after_hidden (t : nat) :
  (t <= 10)%nat -> 0 <= bound_after 1536 t <= 32767.
Proof.
  intros Ht. do 11 (destruct t as [|t]; [vm_compute; split; discriminate|]). lia.
Qed.

Lemma bound_after_output (t : nat) :
  (t <= 10)%nat -> 0 <= bound_after 4096 t <= 32767.
Proof.
  intros Ht. do 11 (destruct t as [|t]; [vm_compute; split; discriminate|]). lia.
Qed.

Lemma run_within (masks : list Z) (t : nat) (st : Golden.state) :
  (t + length masks <= 10)%nat ->
  state_within p (bound_after 1536 t) (bound_after 4096 t) st ->
  Golden.steps_fit16 W1 W2 (golden_params p) st
    (map (events_of_mask (GenVec.n_in p)) masks) = true.
Proof.
  revert t st. induction masks as [|m masks IH]; intros t st Ht Hst; [reflexivity|].
  simpl in Ht. simpl.
  destruct (step_within st m _ _
    (bound_after_hidden t ltac:(lia)) (bound_after_output t ltac:(lia))
    (proj2 (bound_after_hidden (S t) ltac:(lia))) (proj2 (bound_after_output (S t) ltac:(lia)))
    Hst) as (Hfit & st' & E & Hst').
  rewrite Hfit, E. simpl. apply (IH (S t)); [lia | exact Hst'].
Qed.

Lemma init_within :
  state_within p (bound_after 1536 0) (bound_after 4096 0) (Golden.init (golden_params p)).
Proof.
  split; [|split]; simpl.
  - repeat split; simpl; unfold np_zeros; now rewrite length_replicate.
  - apply Forall_replicate. unfold within. lia.
  - apply Forall_replicate. unfold within. lia.
Qed.

Lemma length_window_le {A : Type} (xs : list A) (wl : Z) :
  wl <= 10 -> (length (window_of xs wl) <= 10)%nat.
Proof. intros H. unfold window_of. rewrite length_take. lia. Qed.

(** With at most 12 input channels, at most 32 hidden neurons, leak shift 4
    in both layers and a window of at most 10 timesteps, no potential the
    int32 engine computes leaves the signed 16-bit range, whatever the int8
    weights, the thresholds and the spike window. *)
Theorem reference_window_fits_int16 (masks : list Z) :
  GenVec.window_len p <= 10 ->
  Golden.run_fits16 (map (events_of_mask (GenVec.n_in p)) masks) W1 W2 (golden_params p) = true.
Proof.
  intros Hw. unfold Golden.run_fits16. rewrite window_of_map. simpl Golden.window_len.
  apply (run_within _ 0); [|exact init_within].
  pose proof (length_window_le masks _ Hw). lia.
Qed.

(** Under the same bounds on the dimensions, the leak shift and the window,
    and with at least one class, [snn_infer_events] and [snn_infer_int] both
    return, with the same predicted class and the same per-class counts. *)
Theorem engines_agree_on_reference_window (masks : list Z) :
  GenVec.window_len p <= 10 -> (1 <= GenVec.n_out p)%nat ->
  exists cls conf counts,
    Golden.snn_infer_events (map (events_of_mask (GenVec.n_in p)) masks) W1 W2 (golden_params p)
      = Some (cls, conf, counts) /\
    GenVec.snn_infer_int masks W1 W2 p = Some (cls, counts).
Proof.
  intros Hw Hout.
  pose proof (run_within (window_of masks (GenVec.window_len p)) 0 _
    ltac:(pose proof (length_window_le masks _ Hw); lia) init_within) as Hfit.
  unfold Golden.snn_infer_events, GenVec.snn_infer_int.
  rewrite window_of_map. simpl Golden.window_len.
  rewrite <- widen_init in *.
  destruct (run_agree W1 W2 p shapes ltac:(lia) ltac:(lia) _ _ (init_ok p) Hfit)
    as (st' & E16 & E32 & Hok).
  rewrite E16, E32. simpl.
  destruct (np_argmax_spec (GenVec.Cout st')) as (cls & Ecls & mx & Hmx & _).
  { rewrite (ok_Cout_len _ _ Hok). exact Hout. }
  rewrite Ecls. simpl. rewrite Hmx. simpl. eauto.
Qed.

End ReferenceBounds.

Lemma W1_excite_int8 : int8_matrix W1_excite.
Proof. intros i j _ _. unfold is_int8. simpl. lia. Qed.

Lemma W2_inhibit2_int8 : int8_matrix W2_inhibit2.
Proof. intros i j _ _. unfold is_int8. simpl. destruct (j =? 2)%nat; lia. Qed.

Lemma reference_window_fits_int16_witness :
  Golden.run_fits16 (map (events_of_mask (GenVec.n_in p_ref)) (replicate 10 0xFFF))
    W1_excite W2_inhibit2 (golden_params p_ref) = true.
Proof.
  apply (reference_window_fits_int16 W1_excite W2_inhibit2 p_ref).
  - repeat split.
  - exact W1_excite_int8.
  - exact W2_inhibit2_int8.
  - simpl; lia.
  - simpl; lia.
  - reflexivity.
  - reflexivity.
  - simpl; lia.
Defined.

Lemma engines_agree_on_reference_window_witness :
  exists cls conf counts,
    Golden.snn_infer_events (map (events_of_mask (GenVec.n_in p_ref)) (replicate 10 0xFFF))
      W1_excite W2_inhibit2 (golden_params p_ref) = Some (cls, conf, counts) /\
    GenVec.snn_infer_int (replicate 10 0xFFF) W1_excite W2_inhibit2 p_ref = Some (cls, counts).
Proof.
  apply (engines_agree_on_reference_window W1_excite W2_inhibit2 p_ref).
  - repeat split.
  - exact W1_excite_int8.
  - exact W2_inhibit2_int8.
  - simpl; lia.
  - simpl; lia.
  - reflexivity.
  - reflexivity.
  - simpl; lia.
  - simpl; lia.
Defined.

(** ** The update rule of one timestep *)

Lemma lif_neuron16_holds (shift th v i : Z) :
  0 <= shift -> is_int16 v ->
  lif_neuron16 shift th v i
    (GenVec.reset16 th (GenVec.accumulate16 (GenVec.leak16 shift v) i))
    (GenVec.fires th (GenVec.accumulate16 (GenVec.leak16 shift v) i)).
Proof.
  intros Hs Hv. unfold lif_neuron16.
  rewrite leak16_exact, asr16_exact, accumulate16_wrap by assumption.
  repeat split.
  - now apply Z.shiftr_div_pow2.
  - intros Hneg. pose proof (shiftr_neg_bounds v shift Hs Hneg). lia.
  - intros Hneg. destruct (Z.lt_ge_cases v 0) as [|Hge]; [assumption|].
    pose proof (shiftr_nonneg_bounds v shift Hs Hge). lia.
  - intros Hfit. now apply np_int16_id.
Qed.

Lemma lif_layer16_holds (shift th : Z) (V I : list Z) :
  0 <= shift -> Forall is_int16 V ->
  lif_layer16 shift th V I
    (map (GenVec.reset16 th) (GenVec.membrane16 shift V I))
    (map (GenVec.fires th) (GenVec.membrane16 shift V I)).
Proof.
  intros Hs HV n v i Hv Hi.
  assert (E : GenVec.membrane16 shift V I !! n =
              Some (GenVec.accumulate16 (GenVec.leak16 shift v) i)).
  { unfold GenVec.membrane16. rewrite lookup_zip_with, list_lookup_fmap, Hv. simpl.
    now rewrite Hi. }
  do 2 eexists. rewrite !list_lookup_fmap, E. simpl.
  split; [reflexivity|]. split; [reflexivity|].
  apply lif_neuron16_holds; [exact Hs|].
  rewrite Forall_lookup in HV. exact (HV n v Hv).
Qed.

(** Claim C2, as amended.  In one timestep of [snn_infer_int], for every
    neuron of the hidden and of the output layer with 16-bit state [v] and
    weighted input [i]: the leak is exactly [v - (v >> shift)] with a
    sign-preserving shift; [v_new] is [v_leaked + i] narrowed to 16 bits
    (the exact sum whenever that fits); the neuron spikes exactly when
    [v_new >= threshold], its potential becoming 0, and otherwise keeps
    [v_new] without a spike. *)
Theorem timestep_lif_update (W1 W2 : ndarray2) (p : GenVec.IntSNNParams)
    (st st' : GenVec.state) (m : Z) :
  0 <= GenVec.leak_h_shift p -> 0 <= GenVec.leak_o_shift p ->
  Forall is_int16 (GenVec.Vh st) -> Forall is_int16 (GenVec.Vo st) ->
  GenVec.timestep W1 W2 p st m = Some st' ->
  exists Ih Io h_spikes o_spikes,
    GenVec.weighted_input16 W1 0
      (map (GenVec.mask_bit (Z.land m 0xFFF)) (seq 0 (GenVec.n_in p)))
      (np_zeros (GenVec.n_hidden p)) = Some Ih /\
    GenVec.weighted_input16 W2 0 h_spikes (np_zeros (GenVec.n_out p)) = Some Io /\
    lif_layer16 (GenVec.leak_h_shift p) (GenVec.th_h p) (GenVec.Vh st) Ih
      (GenVec.Vh st') h_spikes /\
    lif_layer16 (GenVec.leak_o_shift p) (GenVec.th_o p) (GenVec.Vo st) Io
      (GenVec.Vo st') o_spikes /\
    GenVec.Cout st' = GenVec.count_spikes (GenVec.Cout st) o_spikes.
Proof.
  intros Hh Ho HVh HVo Hstep. unfold GenVec.timestep in Hstep.
  destruct (GenVec.weighted_input16 W1 _ _ _) as [Ih|] eqn:EIh; [|discriminate].
  simpl in Hstep.
  destruct (GenVec.weighted_input16 W2 _ _ _) as [Io|] eqn:EIo; [|discriminate].
  simpl in Hstep. injection Hstep as <-. simpl.
  exists Ih, Io. do 2 eexists.
  split; [reflexivity|]. split; [exact EIo|].
  split; [now apply lif_layer16_holds|]. split; [now apply lif_layer16_holds|reflexivity].
Qed.

Lemma timestep_lif_update_witness :
  exists Ih Io h_spikes o_spikes,
    GenVec.weighted_input16 W1_mixed 0
      (map (GenVec.mask_bit (Z.land 0xFFF 0xFFF)) (seq 0 (GenVec.n_in p_ref)))
      (np_zeros (GenVec.n_hidden p_ref)) = Some Ih /\
    GenVec.weighted_input16 W2_mixed 0 h_spikes (np_zeros (GenVec.n_out p_ref)) = Some Io /\
    lif_layer16 (GenVec.leak_h_shift p_ref) (GenVec.th_h p_ref)
      (GenVec.Vh (GenVec.init p_ref)) Ih
      (GenVec.Vh (default (GenVec.init p_ref)
         (GenVec.timestep W1_mixed W2_mixed p_ref (GenVec.init p_ref) 0xFFF))) h_spikes /\
    lif_layer16 (GenVec.leak_o_shift p_ref) (GenVec.th_o p_ref)
      (GenVec.Vo (GenVec.init p_ref)) Io
      (GenVec.Vo (default (GenVec.init p_ref)
         (GenVec.timestep W1_mixed W2_mixed p_ref (GenVec.init p_ref) 0xFFF))) o_spikes /\
    GenVec.Cout (default (GenVec.init p_ref)
         (GenVec.timestep W1_mixed W2_mixed p_ref (GenVec.init p_ref) 0xFFF)) =
      GenVec.count_spikes (GenVec.Cout (GenVec.init p_ref)) o_spikes.
Proof.
  apply (timestep_lif_update W1_mixed W2_mixed p_ref (GenVec.init p_ref)).
  - simpl; lia.
  - simpl; lia.
  - apply Forall_replicate. unfold is_int16. lia.
  - apply Forall_replicate. unfold is_int16. lia.
  - vm_compute. reflexivity.
Defined.

(** From the state the engine reaches after ten all-ones words, the eleventh
    drives class 2 to -30918 + 1933 - 4064 = -33049: below the threshold 64 as
    an integer, yet the narrowed value fires and the potential is reset. *)
Lemma integration_wraps_past_int16 :
  exists st st',
    for_each (GenVec.timestep W1_excite W2_inhibit2 p_eleven) (GenVec.init p_eleven)
      (replicate 10 0xFFF) = Some st /\
    Forall is_int16 (GenVec.Vo st) /\
    GenVec.Vo st !! 2%nat = Some (-30918) /\
    GenVec.weighted_input16 W2_inhibit2 0 (replicate 32 true) (np_zeros 3)
      = Some [0; 0; -4064] /\
    GenVec.timestep W1_excite W2_inhibit2 p_eleven st 0xFFF = Some st' /\
    (-30918 - Z.shiftr (-30918) 4) + -4064 = -33049 /\
    -33049 < GenVec.th_o p_eleven /\
    GenVec.Vo st' !! 2%nat = Some 0 /\
    GenVec.Cout st !! 2%nat = Some 0 /\
    GenVec.Cout st' !! 2%nat = Some 1.
Proof.
  do 2 eexists. split; [vm_compute; reflexivity|].
  split; [repeat constructor; unfold is_int16; lia|].
  vm_compute. repeat split; congruence.
Qed.

(** ** Both engines return *)

Lemma for_each_app {S A : Type} (f : S -> A -> option S) (st : S) (xs ys : list A) :
  for_each f st (xs ++ ys) = st' ← for_each f st xs; for_each f st' ys.
Proof.
  revert st. induction xs as [|x xs IH]; intros st; [reflexivity|].
  simpl. destruct (f st x) as [st1|]; simpl; [apply IH | reflexivity].
Qed.

Section GoldenTotal.

Variables (W1 W2 : ndarray2) (p : Golden.SNNParams).
Hypothesis shapes : golden_shapes p W1 W2.

Lemma golden_timestep_total (st : Golden.state) (ev : list nat) :
  golden_lengths p st ->
  Forall (fun src => (src < nrows W1)%nat) ev ->
  exists st' Vo1,
    Golden.timestep W1 W2 p st ev = Some st' /\
    golden_lengths p st' /\
    length Vo1 = Golden.No p /\
    Golden.Cout st' = zip_with add32 (Golden.Cout st) (map (Golden.spike (Golden.th_o p)) Vo1).
Proof.
  destruct shapes as (C1 & R2 & C2). intros (LVh & LVo & LC) Hev.
  unfold Golden.timestep, Golden.hidden_membrane, Golden.output_membrane.
  rewrite np_zeros_closed32.
  rewrite (for_each_add_row32_closed W1 ev _ (fun _ => 0) Hev) by congruence.
  simpl.
  set (Vh1 := Golden.membrane32 _ (Golden.Vh st) _).
  assert (LVh1 : length Vh1 = Golden.Nh p).
  { unfold Vh1. rewrite length_membrane32; [exact LVh|].
    now rewrite length_map, length_seq. }
  unfold Golden.matmul32. rewrite length_map, LVh1, R2, Nat.eqb_refl. simpl.
  rewrite np_broadcast_same by (rewrite length_map, length_seq; congruence).
  simpl.
  set (Vo1 := Golden.membrane32 _ (Golden.Vo st) _).
  assert (LVo1 : length Vo1 = Golden.No p).
  { unfold Vo1. rewrite length_membrane32; [exact LVo|].
    rewrite length_map, length_seq. congruence. }
  exists {| Golden.Vh := zip_with Golden.where_reset (map (Golden.spike (Golden.th_h p)) Vh1) Vh1;
            Golden.Vo := zip_with Golden.where_reset (map (Golden.spike (Golden.th_o p)) Vo1) Vo1;
            Golden.Cout := zip_with add32 (Golden.Cout st) (map (Golden.spike (Golden.th_o p)) Vo1) |}, Vo1.
  split; [reflexivity|]. split; [|split; [exact LVo1 | reflexivity]].
  repeat split; simpl; rewrite length_zip_with, ?length_map; lia.
Qed.

Lemma count_step_within (t : Z) (C Vo1 : list Z) (th : Z) :
  0 <= t < 2147483647 ->
  counts_within t C ->
  counts_within (t + 1) (zip_with add32 C (map (Golden.spike th) Vo1)).
Proof.
  intros Ht HC. revert Vo1. induction HC as [|c C Hc HC IH]; intros Vo1; [constructor|].
  destruct Vo1 as [|v Vo1]; [constructor|]. simpl. constructor; [|apply IH].
  unfold add32, Golden.spike. rewrite np_int32_id by (unfold is_int32; destruct (th <=? v); lia).
  destruct (th <=? v); lia.
Qed.

Lemma golden_run_total (evs : list (list nat)) (st : Golden.state) (t : Z) :
  golden_lengths p st ->
  events_in_range W1 evs ->
  exists st',
    for_each (Golden.timestep W1 W2 p) st evs = Some st' /\
    golden_lengths p st' /\
    (0 <= t -> t + Z.of_nat (length evs) < 2147483648 ->
     counts_within t (Golden.Cout st) ->
     counts_within (t + Z.of_nat (length evs)) (Golden.Cout st')).
Proof.
  intros Hl Hev. revert st t Hl.
  induction Hev as [|ev evs Hev Hevs IH]; intros st t Hl.
  - exists st. split; [reflexivity|]. split; [exact Hl|].
    intros _ _ HC. simpl. now rewrite Z.add_0_r.
  - destruct (golden_timestep_total st ev Hl Hev) as (st1 & Vo1 & E & Hl1 & _ & EC).
    destruct (IH st1 (t + 1) Hl1) as (st' & E' & Hl' & HC').
    exists st'. simpl for_each. rewrite E. simpl. split; [exact E'|]. split; [exact Hl'|].
    intros Ht Hb HC. simpl length in *.
    replace (t + Z.of_nat (S (length evs))) with (t + 1 + Z.of_nat (length evs)) by lia.
    apply HC'; [lia | lia |]. rewrite EC. apply count_step_within; [lia | exact HC].
Qed.

Lemma golden_init_lengths : golden_lengths p (Golden.init p).
Proof. repeat split; simpl; apply length_replicate. Qed.

Lemma take_in_range (n : nat) (events : list (list nat)) :
  events_in_range W1 events -> events_in_range W1 (take n events).
Proof. apply Forall_take. Qed.

(** Under the shapes, [snn_infer_events] returns, and its class is the first
    maximum of its counts. *)
Lemma snn_infer_events_total (events : list (list nat)) :
  (1 <= Golden.No p)%nat ->
  events_in_range W1 events ->
  exists st cls c,
    for_each (Golden.timestep W1 W2 p) (Golden.init p) (window_of events (Golden.window_len p))
      = Some st /\
    golden_lengths p st /\
    np_argmax (Golden.Cout st) = Some cls /\
    first_max (Golden.Cout st) cls /\
    Golden.Cout st !! cls = Some c /\
    Golden.snn_infer_events events W1 W2 p
      = Some (cls, Golden.conf_q0_8 c (Golden.np_sum (Golden.Cout st)), Golden.Cout st).
Proof.
  intros Hno Hev. unfold Golden.snn_infer_events.
  destruct (golden_run_total (window_of events (Golden.window_len p)) (Golden.init p) 0
              golden_init_lengths (take_in_range _ _ Hev)) as (st & E & Hl & _).
  destruct (np_argmax_spec (Golden.Cout st)) as (cls & Ecls & Hfm).
  { destruct Hl as (_ & _ & ->). exact Hno. }
  pose proof Hfm as (mx & Hmx & _).
  exists st, cls, mx. rewrite E. simpl. rewrite Ecls. simpl. rewrite Hmx. simpl. auto 10.
Qed.

End GoldenTotal.

Section GenVecTotal.

Variables (W1 W2 : ndarray2) (p : GenVec.IntSNNParams).
Hypothesis shapes : shapes_ok p W1 W2.

Lemma membrane16_int16 (s : Z) (V I : list Z) : Forall is_int16 (GenVec.membrane16 s V I).
Proof.
  unfold GenVec.membrane16. apply Forall_forall. intros x Hx.
  apply elem_of_lookup_zip_with in Hx as (n & a & b & -> & _).
  rewrite accumulate16_wrap. apply np_int16_range.
Qed.

Lemma genvec_timestep_total (st : GenVec.state) (m : Z) :
  state_ok p st ->
  exists st', GenVec.timestep W1 W2 p st m = Some st' /\ state_ok p st'.
Proof.
  intros [LVh LVo LC HVh HVo HC]. unfold GenVec.timestep.
  rewrite (hidden_input16_closed W1 W2 p shapes). simpl.
  set (Vh1 := GenVec.membrane16 _ (GenVec.Vh st) _).
  assert (LVh1 : length Vh1 = GenVec.n_hidden p).
  { unfold Vh1, GenVec.membrane16, hidden_input32.
    rewrite length_zip_with, !length_map, length_seq. lia. }
  rewrite (output_input16_closed W1 W2 p shapes) by now rewrite length_map.
  simpl.
  set (Vo1 := GenVec.membrane16 _ (GenVec.Vo st) _).
  assert (LVo1 : length Vo1 = GenVec.n_out p).
  { unfold Vo1, GenVec.membrane16, output_input32.
    rewrite length_zip_with, !length_map, length_seq. lia. }
  eexists. split; [reflexivity|]. constructor; simpl.
  - now rewrite length_map.
  - now rewrite length_map.
  - unfold GenVec.count_spikes. rewrite length_zip_with, length_map. lia.
  - apply reset_int16, membrane16_int16.
  - apply reset_int16, membrane16_int16.
  - now apply count_spikes_int32.
Qed.

Lemma genvec_run_total (masks : list Z) (st : GenVec.state) :
  state_ok p st ->
  exists st', for_each (GenVec.timestep W1 W2 p) st masks = Some st' /\ state_ok p st'.
Proof.
  revert st. induction masks as [|m masks IH]; intros st Hok; [eauto|].
  destruct (genvec_timestep_total st m Hok) as (st1 & E & Hok1).
  destruct (IH st1 Hok1) as (st' & E' & Hok'). exists st'. simpl. rewrite E. auto.
Qed.

Lemma snn_infer_int_total (masks : list Z) :
  (1 <= GenVec.n_out p)%nat ->
  exists cls counts,
    GenVec.snn_infer_int masks W1 W2 p = Some (cls, counts) /\ first_max counts cls.
Proof.
  intros Hno. unfold GenVec.snn_infer_int.
  destruct (genvec_run_total (window_of masks (GenVec.window_len p)) _ (init_ok p))
    as (st & E & Hok).
  destruct (np_argmax_spec (GenVec.Cout st)) as (cls & Ecls & Hfm).
  { rewrite (ok_Cout_len _ _ Hok). exact Hno. }
  exists cls, (GenVec.Cout st). rewrite E. simpl. rewrite Ecls. auto.
Qed.

End GenVecTotal.

Lemma golden_shapes_of (p : GenVec.IntSNNParams) (W1 W2 : ndarray2) :
  shapes_ok p W1 W2 -> golden_shapes (golden_params p) W1 W2.
Proof. intros (_ & C1 & R2 & C2). repeat split; assumption. Qed.

(** Claim C6.  With weights of the shapes the parameters call for and at
    least one class, both engines return, and the class [c] they return is
    [argmax(counts)] with ties to the lowest index: [counts[c] >= counts[j]]
    for every [j], and [counts[i] < counts[c]] for every [i < c]. *)
Theorem predicted_class_is_first_max
    (masks : list Z) (events : list (list nat)) (W1 W2 : ndarray2) (p : GenVec.IntSNNParams) :
  shapes_ok p W1 W2 ->
  (1 <= GenVec.n_out p)%nat ->
  events_in_range W1 events ->
  (exists cls counts,
     GenVec.snn_infer_int masks W1 W2 p = Some (cls, counts) /\
     exists mx, counts !! cls = Some mx /\
       (forall j x, counts !! j = Some x -> x <= mx) /\
       (forall i x, (i < cls)%nat -> counts !! i = Some x -> x < mx)) /\
  (exists cls conf counts,
     Golden.snn_infer_events events W1 W2 (golden_params p) = Some (cls, conf, counts) /\
     exists mx, counts !! cls = Some mx /\
       (forall j x, counts !! j = Some x -> x <= mx) /\
       (forall i x, (i < cls)%nat -> counts !! i = Some x -> x < mx)).
Proof.
  intros Hs Hno Hev. split.
  - destruct (snn_infer_int_total W1 W2 p Hs masks Hno) as (cls & counts & E & Hfm).
    exists cls, counts. split; [exact E | exact Hfm].
  - destruct (snn_infer_events_total W1 W2 _ (golden_shapes_of _ _ _ Hs) events Hno Hev)
      as (st & cls & c & _ & _ & _ & Hfm & _ & E).
    do 3 eexists. split; [exact E | exact Hfm].
Qed.

Lemma predicted_class_is_first_max_witness :
  (exists cls counts,
     GenVec.snn_infer_int window_mixed W1_mixed W2_mixed p_ref = Some (cls, counts) /\
     exists mx, counts !! cls = Some mx /\
       (forall j x, counts !! j = Some x -> x <= mx) /\
       (forall i x, (i < cls)%nat -> counts !! i = Some x -> x < mx)) /\
  (exists cls conf counts,
     Golden.snn_infer_events [[0; 3]; [5]; []; [11; 2; 2]]%nat W1_mixed W2_mixed
       (golden_params p_ref) = Some (cls, conf, counts) /\
     exists mx, counts !! cls = Some mx /\
       (forall j x, counts !! j = Some x -> x <= mx) /\
       (forall i x, (i < cls)%nat -> counts !! i = Some x -> x < mx)).
Proof.
  apply (predicted_class_is_first_max window_mixed [[0; 3]; [5]; []; [11; 2; 2]]%nat
           W1_mixed W2_mixed p_ref).
  - repeat split.
  - simpl; lia.
  - repeat constructor; simpl; lia.
Defined.

(** ** A silent window *)

Section Silent.

Variables (W1 W2 : ndarray2).

Lemma mask_bit_zero (m : Z) (ch : nat) :
  Z.land m 0xFFF = 0 -> GenVec.mask_bit (Z.land m 0xFFF) ch = false.
Proof. intros ->. unfold GenVec.mask_bit. now rewrite Z.shiftr_0_l. Qed.

Lemma weighted_input16_silent (W : ndarray2) (n r : nat) (I : list Z) :
  GenVec.weighted_input16 W r (replicate n false) I = Some I.
Proof. revert r. induction n as [|n IH]; intros r; [reflexivity|]. simpl. apply IH. Qed.

Lemma silent_channels (m : Z) (n : nat) :
  Z.land m 0xFFF = 0 ->
  map (GenVec.mask_bit (Z.land m 0xFFF)) (seq 0 n) = replicate n false.
Proof.
  intros Hm. generalize 0%nat. induction n as [|n IH]; intros k; [reflexivity|].
  simpl. now rewrite IH, mask_bit_zero.
Qed.

Lemma leak16_zero (s : Z) : GenVec.leak16 s 0 = 0.
Proof.
  unfold GenVec.leak16, GenVec.asr16, rshift32.
  change (np_int32 0) with 0. simpl. rewrite Z.shiftr_0_l. reflexivity.
Qed.

Lemma membrane16_zeros (s : Z) (n : nat) :
  GenVec.membrane16 s (np_zeros n) (np_zeros n) = np_zeros n.
Proof.
  unfold GenVec.membrane16, np_zeros. induction n as [|n IH]; [reflexivity|].
  simpl. rewrite IH, leak16_zero. reflexivity.
Qed.

Lemma fires_zeros (th : Z) (n : nat) :
  0 < th -> map (GenVec.fires th) (np_zeros n) = replicate n false.
Proof.
  intros Hth. unfold np_zeros. induction n as [|n IH]; [reflexivity|].
  simpl. rewrite IH. unfold GenVec.fires.
  now replace (th <=? 0) with false by (symmetry; apply Z.leb_gt; lia).
Qed.

Lemma reset16_zeros (th : Z) (n : nat) :
  map (GenVec.reset16 th) (np_zeros n) = np_zeros n.
Proof.
  unfold np_zeros. induction n as [|n IH]; [reflexivity|].
  simpl. rewrite IH. unfold GenVec.reset16. now destruct (GenVec.fires th 0).
Qed.

Lemma count_spikes_silent (n : nat) :
  GenVec.count_spikes (np_zeros n) (replicate n false) = np_zeros n.
Proof.
  unfold GenVec.count_spikes, np_zeros. induction n as [|n IH]; [reflexivity|].
  simpl. now rewrite IH.
Qed.

Lemma genvec_timestep_silent (p : GenVec.IntSNNParams) (m : Z) :
  Z.land m 0xFFF = 0 -> 0 < GenVec.th_h p -> 0 < GenVec.th_o p ->
  GenVec.timestep W1 W2 p (GenVec.init p) m = Some (GenVec.init p).
Proof.
  intros Hm Hh Ho. unfold GenVec.timestep, GenVec.init. simpl.
  rewrite silent_channels by exact Hm. rewrite weighted_input16_silent. simpl.
  rewrite membrane16_zeros, fires_zeros, reset16_zeros by exact Hh.
  rewrite weighted_input16_silent. simpl.
  rewrite membrane16_zeros, fires_zeros, reset16_zeros by exact Ho.
  now rewrite count_spikes_silent.
Qed.

Lemma for_each_fixed {S A : Type} (f : S -> A -> option S) (st : S) (xs : list A) :
  Forall (fun x => f st x = Some st) xs -> for_each f st xs = Some st.
Proof.
  induction 1 as [|x xs Hx _ IH]; [reflexivity|]. simpl. rewrite Hx. exact IH.
Qed.

Lemma leak32_zero (s : Z) : Golden.leak32 s 0 = 0.
Proof. unfold Golden.leak32, rshift32. rewrite Z.shiftr_0_l. reflexivity. Qed.

Lemma membrane32_zeros (s : Z) (n : nat) :
  Golden.membrane32 s (np_zeros n) (np_zeros n) = np_zeros n.
Proof.
  unfold Golden.membrane32, np_zeros. induction n as [|n IH]; [reflexivity|].
  simpl. rewrite IH, leak32_zero. reflexivity.
Qed.

Lemma spike_zeros (th : Z) (n : nat) :
  0 < th -> map (Golden.spike th) (np_zeros n) = np_zeros n.
Proof.
  intros Hth. unfold np_zeros. induction n as [|n IH]; [reflexivity|].
  simpl. rewrite IH. unfold Golden.spike.
  now replace (th <=? 0) with false by (symmetry; apply Z.leb_gt; lia).
Qed.

Lemma where_reset_zeros (n : nat) :
  zip_with Golden.where_reset (np_zeros n) (np_zeros n) = np_zeros n.
Proof.
  unfold np_zeros. induction n as [|n IH]; [reflexivity|]. simpl. now rewrite IH.
Qed.

Lemma add32_zeros (n : nat) : zip_with add32 (np_zeros n) (np_zeros n) = np_zeros n.
Proof.
  unfold np_zeros. induction n as [|n IH]; [reflexivity|]. simpl. now rewrite IH.
Qed.

Lemma dot_col_zeros (W : ndarray2) (j i n : nat) : Golden.dot_col W j i (np_zeros n) = 0.
Proof.
  unfold np_zeros. revert i. induction n as [|n IH]; intros i; [reflexivity|].
  simpl. now rewrite IH.
Qed.

Lemma matmul32_zeros (p : Golden.SNNParams) :
  nrows W2 = Golden.Nh p -> ncols W2 = Golden.No p ->
  Golden.matmul32 (np_zeros (Golden.Nh p)) W2 = Some (np_zeros (Golden.No p)).
Proof.
  intros R2 C2. unfold Golden.matmul32.
  unfold np_zeros at 1. rewrite length_replicate, R2, Nat.eqb_refl, C2. f_equal.
  rewrite (np_zeros_closed32 (Golden.No p)). apply map_ext. intros j.
  now rewrite dot_col_zeros.
Qed.

Lemma golden_timestep_silent (p : Golden.SNNParams) :
  nrows W2 = Golden.Nh p -> ncols W2 = Golden.No p ->
  0 < Golden.th_h p -> 0 < Golden.th_o p ->
  Golden.timestep W1 W2 p (Golden.init p) [] = Some (Golden.init p).
Proof.
  intros R2 C2 Hh Ho.
  unfold Golden.timestep, Golden.hidden_membrane, Golden.output_membrane, Golden.init.
  simpl. rewrite membrane32_zeros, spike_zeros by exact Hh.
  rewrite (matmul32_zeros p R2 C2). simpl.
  rewrite np_broadcast_same by reflexivity. simpl.
  rewrite membrane32_zeros, spike_zeros by exact Ho.
  now rewrite !where_reset_zeros, add32_zeros.
Qed.

Lemma events_of_zero_mask (n : nat) (m : Z) :
  Z.land m 0xFFF = 0 -> events_of_mask n m = [].
Proof.
  intros Hm. unfold events_of_mask. generalize 0%nat.
  induction n as [|n IH]; intros k; [reflexivity|].
  simpl. rewrite filter_cons, decide_False; [apply IH|].
  rewrite mask_bit_zero by exact Hm. discriminate.
Qed.

(** Claim C7.  For a window whose mask is zero at every timestep and
    positive thresholds, with three classes, both engines return class 0 and
    counts [0, 0, 0]; the int32 engine also needs [W2] shaped for its matrix
    product. *)
Theorem silent_window_counts_nothing (masks : list Z) (p : GenVec.IntSNNParams) :
  Forall (fun m => m = 0) masks ->
  0 < GenVec.th_h p -> 0 < GenVec.th_o p ->
  GenVec.n_out p = 3%nat ->
  nrows W2 = GenVec.n_hidden p -> ncols W2 = GenVec.n_out p ->
  GenVec.snn_infer_int masks W1 W2 p = Some (0%nat, [0; 0; 0]) /\
  Golden.snn_infer_events (map (events_of_mask (GenVec.n_in p)) masks) W1 W2 (golden_params p)
    = Some (0%nat, 0, [0; 0; 0]).
Proof.
  intros Hz Hh Ho Hn R2 C2.
  assert (Hz' : Forall (fun m => Z.land m 0xFFF = 0) masks).
  { eapply Forall_impl; [exact Hz|]. now intros m ->. }
  split.
  - unfold GenVec.snn_infer_int. rewrite for_each_fixed.
    + simpl. unfold np_zeros. rewrite Hn. reflexivity.
    + apply Forall_take. eapply Forall_impl; [exact Hz'|].
      intros m Hm. now apply genvec_timestep_silent.
  - unfold Golden.snn_infer_events. rewrite window_of_map, for_each_fixed.
    + simpl. unfold np_zeros. rewrite Hn. reflexivity.
    + apply Forall_map, Forall_take. eapply Forall_impl; [exact Hz'|].
      intros m Hm. simpl. rewrite events_of_zero_mask by exact Hm.
      now apply golden_timestep_silent.
Qed.

End Silent.

Lemma silent_window_counts_nothing_witness :
  GenVec.snn_infer_int (replicate 10 0) W1_mixed W2_mixed p_ref = Some (0%nat, [0; 0; 0]) /\
  Golden.snn_infer_events (map (events_of_mask (GenVec.n_in p_ref)) (replicate 10 0))
    W1_mixed W2_mixed (golden_params p_ref) = Some (0%nat, 0, [0; 0; 0]).
Proof.
  apply (silent_window_counts_nothing W1_mixed W2_mixed (replicate 10 0) p_ref).
  - now apply Forall_replicate.
  - simpl; lia.
  - simpl; lia.
  - reflexivity.
  - reflexivity.
  - reflexivity.
Defined.

(** ** The result depends on the arrays only *)

Lemma for_each_ext {S A : Type} (f g : S -> A -> option S) (st : S) (xs : list A) :
  (forall s x, f s x = g s x) -> for_each f st xs = for_each g st xs.
Proof.
  intros Hfg. revert st. induction xs as [|x xs IH]; intros st; [reflexivity|].
  simpl. rewrite Hfg. destruct (g st x); simpl; [apply IH | reflexivity].
Qed.

Section SameArray.

Variables (W W' : ndarray2).
Hypothesis same : same_array W W'.

Lemma get2_same (i j : nat) : get2 W i j = get2 W' i j.
Proof.
  destruct same as (R & C & E). unfold get2. rewrite <- R, <- C.
  destruct (Nat.ltb_spec i (nrows W)); [|reflexivity].
  destruct (Nat.ltb_spec j (ncols W)); [|reflexivity].
  simpl. f_equal. now apply E.
Qed.

Lemma add_row16_same (r n : nat) (I : list Z) :
  GenVec.add_row16 W r n I = GenVec.add_row16 W' r n I.
Proof.
  revert n. induction I as [|x I IH]; intros n; [reflexivity|].
  simpl. now rewrite get2_same, IH.
Qed.

Lemma weighted_input16_same (active : list bool) (r : nat) (I : list Z) :
  GenVec.weighted_input16 W r active I = GenVec.weighted_input16 W' r active I.
Proof.
  revert r I. induction active as [|b active IH]; intros r I; [reflexivity|].
  simpl. destruct b.
  - rewrite add_row16_same. destruct (GenVec.add_row16 W' r 0 I); simpl; [apply IH | reflexivity].
  - simpl. apply IH.
Qed.

Lemma get_row_same (i : nat) : get_row W i = get_row W' i.
Proof.
  destruct same as (R & C & E). unfold get_row. rewrite <- R, <- C.
  destruct (Nat.ltb_spec i (nrows W)); [|reflexivity].
  f_equal. apply map_ext_in. intros j Hj. apply in_seq in Hj. apply E; lia.
Qed.

Lemma add_row32_same (Ih : list Z) (src : nat) :
  Golden.add_row32 W Ih src = Golden.add_row32 W' Ih src.
Proof. unfold Golden.add_row32. now rewrite get_row_same. Qed.

Lemma dot_col_same (j i : nat) (x : list Z) :
  (j < ncols W)%nat -> (i + length x <= nrows W)%nat ->
  Golden.dot_col W j i x = Golden.dot_col W' j i x.
Proof.
  destruct same as (_ & _ & E). intros Hj. revert i.
  induction x as [|xi x IH]; intros i Hi; [reflexivity|].
  simpl in *. rewrite IH by lia. rewrite E by lia. reflexivity.
Qed.

Lemma matmul32_same (x : list Z) : Golden.matmul32 x W = Golden.matmul32 x W'.
Proof.
  pose proof same as (R & C & _). unfold Golden.matmul32. rewrite <- R, <- C.
  destruct (Nat.eqb_spec (length x) (nrows W)) as [Hx|]; [|reflexivity].
  f_equal. apply map_ext_in. intros j Hj. apply in_seq in Hj.
  f_equal. apply dot_col_same; lia.
Qed.

End SameArray.


Lemma same_array_refl (W : ndarray2) : same_array W W.
Proof. repeat split. Qed.

Lemma W1_mixed_copy_same : same_array W1_mixed W1_mixed_copy.
Proof.
  repeat split. intros i j Hi _. simpl in *.
  apply Nat.ltb_lt in Hi. now rewrite Hi.
Qed.


(** ** The integer confidence *)

Lemma wrap64_id (x : Z) :
  -9223372036854775808 <= x <= 9223372036854775807 -> wrap_signed 64 x = x.
Proof.
  intros H. unfold wrap_signed.
  change (2 ^ (64 - 1)) with 9223372036854775808.
  change (2 ^ 64) with 18446744073709551616.
  Z.to_euclidean_division_equations; lia.
Qed.

Lemma sum_within (t : Z) (C : list Z) :
  0 <= t -> counts_within t C ->
  0 <= foldr Z.add 0 C <= Z.of_nat (length C) * t.
Proof.
  intros Ht HC. induction HC as [|c C Hc HC IH]; simpl foldr; simpl length; [lia|]. nia.
Qed.

Lemma sum_above_entry (t : Z) (C : list Z) (k : nat) (c : Z) :
  counts_within t C -> C !! k = Some c -> 0 <= c <= foldr Z.add 0 C.
Proof.
  intros HC. revert k. induction HC as [|x C Hx HC IH]; intros k Hk; [discriminate|].
  destruct k as [|k]; simpl in *.
  - injection Hk as ->. assert (0 <= foldr Z.add 0 C); [|lia].
    clear IH. induction HC as [|y C Hy HC IH]; simpl; lia.
  - specialize (IH k Hk). lia.
Qed.

Lemma conf_q0_8_range (c s : Z) : 0 <= c <= s -> 0 <= Golden.conf_q0_8 c s <= 256.
Proof.
  intros Hcs. unfold Golden.conf_q0_8. rewrite Z.shiftl_mul_pow2 by lia.
  change (2 ^ 8) with 256. split.
  - apply Z.div_pos; lia.
  - apply Z.div_le_upper_bound; lia.
Qed.

Lemma conf_q0_8_full (c : Z) : 0 < c -> Golden.conf_q0_8 c c = 256.
Proof.
  intros Hc. unfold Golden.conf_q0_8. rewrite Z.shiftl_mul_pow2 by lia.
  rewrite Z.max_l by lia. rewrite Z.mul_comm. apply Z.div_mul. lia.
Qed.

Lemma length_window_of {A : Type} (xs : list A) (wl : Z) :
  Z.of_nat (length (window_of xs wl)) = Z.max 0 (Z.min (Z.of_nat (length xs)) wl).
Proof. unfold window_of. rewrite length_take. lia. Qed.

Section Confidence.

Variables (W1 W2 : ndarray2) (p : Golden.SNNParams).
Hypothesis shapes : golden_shapes p W1 W2.

Lemma conf_within_256 (events : list (list nat)) :
  (1 <= Golden.No p)%nat ->
  Z.of_nat (Golden.No p) < 2 ^ 32 ->
  events_in_range W1 events ->
  Z.min (Z.of_nat (length events)) (Golden.window_len p) < 2 ^ 31 ->
  exists cls conf counts,
    Golden.snn_infer_events events W1 W2 p = Some (cls, conf, counts) /\
    0 <= conf <= 256 /\
    (forall c, counts !! cls = Some c -> 0 < c -> foldr Z.add 0 counts = c -> conf = 256).
Proof.
  intros Hno Hno32 Hev HT. unfold Golden.snn_infer_events.
  set (w := window_of events (Golden.window_len p)).
  pose proof (length_window_of events (Golden.window_len p)) as Lw. fold w in Lw.
  destruct (golden_run_total W1 W2 p shapes w (Golden.init p) 0
              (golden_init_lengths p) (take_in_range W1 _ _ Hev)) as (st & E & Hl & HC).
  assert (Hin : counts_within (Z.of_nat (length w)) (Golden.Cout st)).
  { apply (HC ltac:(lia)); [change (2 ^ 31) with 2147483648 in HT; lia|].
    simpl. apply Forall_replicate. lia. }
  rewrite E. simpl.
  destruct (np_argmax_spec (Golden.Cout st)) as (cls & Ecls & mx & Hmx & _).
  { destruct Hl as (_ & _ & ->). exact Hno. }
  rewrite Ecls. simpl. rewrite Hmx. simpl.
  pose proof (sum_within (Z.of_nat (length w)) _ ltac:(lia) Hin) as Hsum.
  pose proof (sum_above_entry _ _ _ _ Hin Hmx) as Hmxs.
  assert (Es : Golden.np_sum (Golden.Cout st) = foldr Z.add 0 (Golden.Cout st)).
  { unfold Golden.np_sum. apply wrap64_id. destruct Hl as (_ & _ & LC). rewrite LC in Hsum.
    change (2 ^ 32) with 4294967296 in Hno32. change (2 ^ 31) with 2147483648 in HT. nia. }
  do 3 eexists. split; [reflexivity|]. rewrite Es. split.
  - now apply conf_q0_8_range.
  - intros c Hc Hpos Hall. assert (c = mx) as -> by congruence.
    rewrite Hall. now apply conf_q0_8_full.
Qed.

End Confidence.

Lemma excited_step (C : list Z) :
  Golden.timestep W1_excite W2_excite q_long (at_rest C) [0%nat]
  = Some (at_rest (zip_with add32 C [1; 1; 1])).
Proof. reflexivity. Qed.

Lemma excited_count (k : Z) :
  zip_with add32 [np_int32 k; np_int32 k; np_int32 k] [1; 1; 1]
  = [np_int32 (k + 1); np_int32 (k + 1); np_int32 (k + 1)].
Proof. simpl. unfold add32. now rewrite np_int32_add_l. Qed.

Lemma excited_run (n : nat) (k : Z) :
  for_each (Golden.timestep W1_excite W2_excite q_long)
    (at_rest [np_int32 k; np_int32 k; np_int32 k]) (replicate n [0%nat])
  = Some (at_rest [np_int32 (k + Z.of_nat n); np_int32 (k + Z.of_nat n);
                   np_int32 (k + Z.of_nat n)]).
Proof.
  revert k. induction n as [|n IH]; intros k.
  - simpl. now rewrite Z.add_0_r.
  - cbn [replicate for_each]. rewrite excited_step. cbn [mbind option_bind].
    rewrite excited_count, IH.
    now replace (k + 1 + Z.of_nat n) with (k + Z.of_nat (S n)) by lia.
Qed.

Lemma window_of_replicate {A : Type} (x : A) (n : nat) (wl : Z) :
  Z.of_nat n = wl -> window_of (replicate n x) wl = replicate n x.
Proof.
  intros <-. unfold window_of. rewrite length_replicate, Z.min_id, Nat2Z.id.
  apply take_ge. now rewrite length_replicate.
Qed.

Lemma excited_inference (n : nat) :
  Z.of_nat n = 2147483648 ->
  Golden.snn_infer_events (replicate n [0%nat]) W1_excite W2_excite q_long
  = Some (0%nat, -549755813888, [-2147483648; -2147483648; -2147483648]).
Proof.
  intros Hn. unfold Golden.snn_infer_events.
  rewrite (window_of_replicate _ n (Golden.window_len q_long) Hn).
  change (Golden.init q_long) with (at_rest [np_int32 0; np_int32 0; np_int32 0]).
  rewrite excited_run, Hn. reflexivity.
Qed.

(** A window of 2^31 timesteps in which all three classes fire at every step:
    the int32 counters wrap to -2^31 and the confidence is negative. *)
Lemma conf_q0_8_negative_after_wrap :
  golden_shapes q_long W1_excite W2_excite /\
  int8_matrix W1_excite /\ int8_matrix W2_excite /\
  Golden.snn_infer_events (replicate (Z.to_nat 2147483648) [0%nat])
    W1_excite W2_excite q_long
  = Some (0%nat, -549755813888, [-2147483648; -2147483648; -2147483648]) /\
  -549755813888 < 0.
Proof.
  split; [repeat split|].
  split; [intros i j _ _; unfold is_int8; simpl; lia|].
  split; [intros i j _ _; unfold is_int8; simpl; lia|].
  split; [|lia]. apply excited_inference. now rewrite Z2Nat.id.
Qed.

(** Claim C10, as amended.  For weights of the shapes [snn_infer_events]
    needs, source ids that are rows of [W1], fewer than 2^32 classes and a
    window of fewer than 2^31 timesteps (so that no int32 counter wraps),
    the engine returns and its confidence
    [(counts[cls] << 8) // max(sum(counts), 1)] lies in [0, 256]; it is 256
    whenever all output spikes belong to the predicted class, as on ten
    timesteps that drive class 2 alone, and 256 does not fit 8 unsigned bits. *)
Theorem conf_q0_8_between_0_and_256 :
  (forall (events : list (list nat)) (W1 W2 : ndarray2) (p : Golden.SNNParams),
     golden_shapes p W1 W2 ->
     (1 <= Golden.No p)%nat ->
     Z.of_nat (Golden.No p) < 2 ^ 32 ->
     events_in_range W1 events ->
     Z.min (Z.of_nat (length events)) (Golden.window_len p) < 2 ^ 31 ->
     exists cls conf counts,
       Golden.snn_infer_events events W1 W2 p = Some (cls, conf, counts) /\
       0 <= conf <= 256 /\
       (forall c, counts !! cls = Some c -> 0 < c -> foldr Z.add 0 counts = c ->
                  conf = 256)) /\
  Golden.snn_infer_events (replicate 10 [0%nat]) W1_excite W2_excite2 (golden_params p_ref)
    = Some (2%nat, 256, [0; 0; 10]) /\
  2 ^ 8 - 1 < 256.
Proof.
  split; [|split; [vm_compute; reflexivity | reflexivity]].
  intros events W1 W2 p Hs. now apply conf_within_256.
Qed.

Lemma conf_q0_8_between_0_and_256_witness :
  exists cls conf counts,
    Golden.snn_infer_events (replicate 10 [0%nat]) W1_excite W2_excite2 (golden_params p_ref)
      = Some (cls, conf, counts) /\
    0 <= conf <= 256 /\
    (forall c, counts !! cls = Some c -> 0 < c -> foldr Z.add 0 counts = c -> conf = 256).
Proof.
  apply (proj1 conf_q0_8_between_0_and_256 (replicate 10 [0%nat]) W1_excite W2_excite2
           (golden_params p_ref)).
  - repeat split.
  - simpl; lia.
  - simpl; lia.
  - repeat constructor.
  - simpl; lia.
Defined.

(** ** Rounding in the Standard Library's IEEE 754 specification *)

Lemma Zdigits2_log2 (p : positive) : Zdigits2 (Zpos p) = Z.log2 (Zpos p) + 1.
Proof.
  simpl Zdigits2. induction p as [p IH|p IH|].
  - cbn [digits2_pos]. rewrite Pos2Z.inj_succ, IH, Pos2Z.inj_xI.
    rewrite Z.log2_succ_double by lia. lia.
  - cbn [digits2_pos]. rewrite Pos2Z.inj_succ, IH, Pos2Z.inj_xO.
    rewrite Z.log2_double by lia. lia.
  - reflexivity.
Qed.

Lemma Zdigits2_pos_log2 (m : Z) : 1 <= m -> Zdigits2 m = Z.log2 m + 1.
Proof. destruct m as [|p|p]; try lia. intros _. apply Zdigits2_log2. Qed.

Lemma shr_1_m (mrs : shr_record) :
  0 <= shr_m mrs -> shr_m (shr_1 mrs) = shr_m mrs / 2.
Proof.
  destruct mrs as [m r s]. simpl. intros Hm.
  destruct m as [|p|p]; [reflexivity| |lia].
  destruct p as [p|p|]; simpl.
  - rewrite Pos2Z.inj_xI. apply (Z.div_unique _ _ _ 1); lia.
  - rewrite Pos2Z.inj_xO. apply (Z.div_unique _ _ _ 0); lia.
  - reflexivity.
Qed.

Lemma pow2_xO (p : positive) : 2 ^ Zpos p~0 = 2 ^ Zpos p * 2 ^ Zpos p.
Proof. rewrite <- Z.pow_add_r by lia. f_equal. lia. Qed.

Lemma pow2_xI (p : positive) : 2 ^ Zpos p~1 = 2 * (2 ^ Zpos p * 2 ^ Zpos p).
Proof.
  rewrite <- Z.pow_add_r by lia. rewrite <- (Z.pow_succ_r 2) by lia. f_equal. lia.
Qed.

Lemma iter_pos_shr_m (p : positive) (mrs : shr_record) :
  0 <= shr_m mrs ->
  shr_m (SpecFloat.iter_pos shr_1 p mrs) = shr_m mrs / 2 ^ Zpos p.
Proof.
  revert mrs. induction p as [p IH|p IH|]; intros mrs Hm.
  - cbn [SpecFloat.iter_pos].
    pose proof (Z.pow_pos_nonneg 2 (Zpos p) ltac:(lia) ltac:(lia)) as Hp.
    assert (H1 : 0 <= shr_m (shr_1 mrs)) by (rewrite shr_1_m by lia; apply Z.div_pos; lia).
    assert (H2 : 0 <= shr_m (SpecFloat.iter_pos shr_1 p (shr_1 mrs))).
    { rewrite IH by lia. apply Z.div_pos; lia. }
    rewrite IH, IH, shr_1_m by lia.
    rewrite !Z.div_div by lia. now rewrite pow2_xI, Z.mul_assoc.
  - cbn [SpecFloat.iter_pos].
    pose proof (Z.pow_pos_nonneg 2 (Zpos p) ltac:(lia) ltac:(lia)) as Hp.
    assert (H2 : 0 <= shr_m (SpecFloat.iter_pos shr_1 p mrs)).
    { rewrite IH by lia. apply Z.div_pos; lia. }
    rewrite IH, IH by lia.
    rewrite !Z.div_div by lia. now rewrite pow2_xO.
  - cbn [SpecFloat.iter_pos]. rewrite shr_1_m by lia. reflexivity.
Qed.

Lemma shr_record_of_loc_m (m : Z) (l : location) : shr_m (shr_record_of_loc m l) = m.
Proof. destruct l as [|[| |]]; reflexivity. Qed.

(** A right shift by [n] bits of a non-negative mantissa. *)
Lemma shr_m_nonneg (mrs : shr_record) (e n : Z) :
  0 <= shr_m mrs -> 0 <= shr_m (fst (shr mrs e n)).
Proof.
  intros Hm. destruct n as [|p|p]; simpl; try exact Hm.
  rewrite iter_pos_shr_m by exact Hm. apply Z.div_pos; [lia|].
  apply Z.pow_pos_nonneg; lia.
Qed.

Lemma round_nearest_even_bounds (m : Z) (l : location) :
  m <= round_nearest_even m l <= m + 1.
Proof.
  unfold round_nearest_even. destruct l as [|[| |]]; try lia.
  destruct (Z.even m); lia.
Qed.

Lemma iter_xO_pow2 (m d : positive) : Zpos (Pos.iter xO m d) = Zpos m * 2 ^ Zpos d.
Proof.
  induction d as [|d IH] using Pos.peano_ind.
  - simpl. lia.
  - rewrite Pos.iter_succ, Pos2Z.inj_xO, IH, Pos2Z.inj_succ, Z.pow_succ_r by lia. lia.
Qed.

Section Round.

Variables (prec emax : Z).
Hypothesis prec_pos : 1 <= prec.

(** [binary_round_aux] of a non-negative mantissa is never a NaN. *)
Lemma binary_round_aux_not_nan (s : bool) (m e : Z) (l : location) :
  0 <= m -> binary_round_aux prec emax s m e l <> S754_nan.
Proof.
  intros Hm. unfold binary_round_aux, shr_fexp.
  destruct (shr (shr_record_of_loc m l) e _) as [mrs1 e1] eqn:E1.
  assert (H1 : 0 <= shr_m mrs1).
  { replace mrs1 with (fst (shr (shr_record_of_loc m l) e
      (fexp prec emax (Zdigits2 m + e) - e))) by now rewrite E1.
    apply shr_m_nonneg. now rewrite shr_record_of_loc_m. }
  pose proof (round_nearest_even_bounds (shr_m mrs1) (loc_of_shr_record mrs1)) as Hr.
  set (m1 := round_nearest_even _ _) in *.
  destruct (shr (shr_record_of_loc m1 loc_Exact) e1 _) as [mrs2 e2] eqn:E2.
  assert (H2 : 0 <= shr_m mrs2).
  { replace mrs2 with (fst (shr (shr_record_of_loc m1 loc_Exact) e1
      (fexp prec emax (Zdigits2 m1 + e1) - e1))) by now rewrite E2.
    apply shr_m_nonneg. simpl. lia. }
  destruct (shr_m mrs2) as [|p|p]; [discriminate| |lia].
  destruct (e2 <=? emax - prec); discriminate.
Qed.

(** The shift of [shr_fexp] keeps a positive mantissa positive and does not
    change [digits + exponent], as long as the value is above the underflow
    threshold. *)
Lemma shr_fexp_pos (m e : Z) (l : location) :
  1 <= m -> emin prec emax < Zdigits2 m + e ->
  1 <= shr_m (fst (shr_fexp prec emax m e l)) /\
  Zdigits2 (shr_m (fst (shr_fexp prec emax m e l))) + snd (shr_fexp prec emax m e l)
    = Zdigits2 m + e.
Proof.
  intros Hm Hx. unfold shr_fexp.
  set (n := fexp prec emax (Zdigits2 m + e) - e).
  assert (Hn : n <= Zdigits2 m - 1) by (unfold n, fexp; lia).
  destruct n as [|p|p] eqn:En; simpl; rewrite ?shr_record_of_loc_m; try (split; [lia|reflexivity]).
  rewrite iter_pos_shr_m by (rewrite shr_record_of_loc_m; lia).
  rewrite shr_record_of_loc_m.
  rewrite Zdigits2_pos_log2 in Hn by lia.
  pose proof (Z.log2_spec m ltac:(lia)) as [Hlo Hhi].
  assert (Hq : 1 <= m / 2 ^ Zpos p).
  { apply Z.div_le_lower_bound; [apply Z.pow_pos_nonneg; lia|].
    rewrite Z.mul_1_r. etransitivity; [|exact Hlo]. apply Z.pow_le_mono_r; lia. }
  split; [exact Hq|].
  rewrite !Zdigits2_pos_log2 by lia.
  rewrite <- Z.shiftr_div_pow2 by lia. rewrite Z.log2_shiftr by lia. lia.
Qed.

Lemma Zdigits2_mono (a b : Z) : 1 <= a <= b -> Zdigits2 a <= Zdigits2 b.
Proof.
  intros H. rewrite !Zdigits2_pos_log2 by lia.
  pose proof (Z.log2_le_mono a b). lia.
Qed.

(** Above the underflow threshold, [binary_round_aux] of a positive mantissa
    is a non-zero number of the same sign, of at least the same magnitude
    class, or an infinity. *)
Lemma binary_round_aux_pos (s : bool) (m e : Z) (l : location) :
  1 <= m -> emin prec emax < Zdigits2 m + e ->
  binary_round_aux prec emax s m e l = S754_infinity s \/
  exists m' e', binary_round_aux prec emax s m e l = S754_finite s m' e' /\
    Zdigits2 m + e <= Zdigits2 (Zpos m') + e'.
Proof.
  intros Hm Hx. unfold binary_round_aux.
  pose proof (shr_fexp_pos m e l Hm Hx) as [H1 D1].
  destruct (shr_fexp prec emax m e l) as [mrs1 e1]. simpl in H1, D1.
  pose proof (round_nearest_even_bounds (shr_m mrs1) (loc_of_shr_record mrs1)) as Hr.
  set (m1 := round_nearest_even _ _) in *.
  pose proof (Zdigits2_mono (shr_m mrs1) m1 ltac:(lia)) as Hd.
  pose proof (shr_fexp_pos m1 e1 loc_Exact ltac:(lia) ltac:(lia)) as [H2 D2].
  destruct (shr_fexp prec emax m1 e1 loc_Exact) as [mrs2 e2]. simpl in H2, D2.
  destruct (shr_m mrs2) as [|p|p]; try lia.
  destruct (e2 <=? emax - prec); [right|left; reflexivity].
  exists p, e2. split; [reflexivity|lia].
Qed.

(** [binary_round] of a positive number above the underflow threshold. *)
Lemma binary_round_pos (s : bool) (m : positive) (e : Z) :
  emin prec emax < Zdigits2 (Zpos m) + e ->
  binary_round prec emax s m e = S754_infinity s \/
  exists m' e', binary_round prec emax s m e = S754_finite s m' e'.
Proof.
  intros Hx. unfold binary_round.
  set (fx := fexp prec emax (Z.pos (digits2_pos m) + e)).
  destruct (shl_align m e fx) as [mz ez] eqn:Ea.
  assert (Hz : Zdigits2 (Zpos mz) + ez = Zdigits2 (Zpos m) + e).
  { unfold shl_align in Ea.
    destruct (fx - e) as [|d|d] eqn:Ed; try (injection Ea as <- <-; reflexivity).
    injection Ea as <- <-.
    rewrite !Zdigits2_log2, iter_xO_pow2, Z.log2_mul_pow2 by lia. lia. }
  destruct (binary_round_aux_pos s (Zpos mz) ez loc_Exact ltac:(lia) ltac:(lia))
    as [H|(m' & e' & H & _)]; [left|right; exists m', e']; exact H.
Qed.

End Round.

(** ** The quantizer *)

Section QuantizerProps.

Import Quantizer.

Lemma div_eucl_fst (a b : Z) : fst (Z.div_eucl a b) = a / b.
Proof. reflexivity. Qed.

(** The quotient mantissa of a division by [127.0] in float64. *)
Lemma div_core_127 (m1 : positive) (e1 : Z) :
  -92 <= e1 ->
  let r := SFdiv_core_binary 53 1024 (Zpos m1) e1 8936830510563328 (-46) in
  1 <= fst (fst r) /\ -98 <= Zdigits2 (fst (fst r)) + snd (fst r).
Proof.
  intros He. unfold SFdiv_core_binary.
  change (Zdigits2 8936830510563328) with 53.
  set (d1 := Zdigits2 (Zpos m1)).
  assert (Hd1 : d1 = Z.log2 (Zpos m1) + 1) by apply Zdigits2_log2.
  pose proof (Z.log2_nonneg (Zpos m1)) as Hl.
  pose proof (Z.log2_spec (Zpos m1) ltac:(lia)) as [Hlo _].
  replace (fexp 53 1024 (d1 + e1 - (53 + -46))) with (d1 + e1 - 60)
    by (unfold fexp, emin; lia).
  set (e' := Z.min (d1 + e1 - 60) (e1 - -46)).
  set (s := e1 - -46 - e').
  assert (Hs : 0 <= s) by (unfold s, e'; lia).
  set (m' := match s with Z.pos _ => Z.shiftl (Zpos m1) s | 0 => Zpos m1 | Z.neg _ => 0 end).
  assert (Hm' : m' = Zpos m1 * 2 ^ s).
  { unfold m'. destruct s as [|p|p] eqn:Es; [simpl; lia | | lia].
    now rewrite Z.shiftl_mul_pow2 by lia. }
  destruct (Z.div_eucl m' 8936830510563328) as [q r] eqn:Eq. simpl.
  assert (Hq : q = m' / 8936830510563328) by (rewrite <- div_eucl_fst, Eq; reflexivity).
  set (k := Z.max 52 (d1 - 54)).
  assert (Hk : 2 ^ k <= q).
  { rewrite Hq. apply Z.div_le_lower_bound; [lia|].
    rewrite Hm'. transitivity (2 ^ 53 * 2 ^ k).
    - apply Z.mul_le_mono_nonneg_r; [apply Z.pow_nonneg; lia|]. vm_compute. discriminate.
    - rewrite <- Z.pow_add_r by (unfold k; lia).
      transitivity (2 ^ Z.log2 (Zpos m1) * 2 ^ s).
      + rewrite <- Z.pow_add_r by lia. apply Z.pow_le_mono_r; [lia|].
        unfold k, s, e'. lia.
      + apply Z.mul_le_mono_nonneg_r; [apply Z.pow_nonneg; lia | exact Hlo]. }
  assert (Hq1 : 1 <= q).
  { pose proof (Z.pow_pos_nonneg 2 k ltac:(lia) ltac:(unfold k; lia)). lia. }
  split; [exact Hq1|].
  rewrite Zdigits2_pos_log2 by exact Hq1.
  assert (k <= Z.log2 q) by (apply Z.log2_le_pow2; lia).
  unfold k, e' in *. lia.
Qed.

Lemma f64_div_127 (m1 : positive) (e1 : Z) :
  -92 <= e1 ->
  f64_div (S754_finite false m1 e1) f64_127 = S754_infinity false \/
  exists m' e', f64_div (S754_finite false m1 e1) f64_127 = S754_finite false m' e' /\
    -98 <= Zdigits2 (Zpos m') + e'.
Proof.
  intros He. unfold f64_div, f64_127, SFdiv.
  pose proof (div_core_127 m1 e1 He) as [Hq Hd]. simpl in Hq, Hd.
  destruct (SFdiv_core_binary 53 1024 (Zpos m1) e1 8936830510563328 (-46)) as [[q e'] l].
  simpl in Hq, Hd. simpl xorb.
  destruct (binary_round_aux_pos 53 1024 ltac:(lia) false q e' l Hq)
    as [H|(m' & e'' & H & Hm)]; [unfold emin; lia | now left |].
  right. exists m', e''. split; [exact H | lia].
Qed.

Lemma guard_passed (x : float) :
  SFltb f64_1e_12 x = true ->
  x = S754_infinity false \/ exists m e, x = S754_finite false m e /\ -92 <= e.
Proof.
  unfold SFltb, f64_1e_12. destruct x as [s|s|  |s m e]; cbn -[Z.compare]; try discriminate.
  - destruct s; [discriminate|]. now left.
  - destruct s; [discriminate|]. intros H. right. exists m, e. split; [reflexivity|].
    revert H. destruct (Z.compare_spec (-92) e) as [C|C|C]; intros H; solve [lia | discriminate].
Qed.

(** The float32 divisor of [quantize_int8] is a non-zero number, whatever
    the maximum. *)
Lemma scale32_nonzero (mx : float) :
  nonzero_number
    (to_f32 (if SFltb f64_1e_12 mx then f64_div mx f64_127 else f64_1)).
Proof.
  destruct (SFltb f64_1e_12 mx) eqn:E; [|exact I].
  apply guard_passed in E as [->|(m & e & -> & He)]; [exact I|].
  destruct (f64_div_127 m e He) as [->|(m' & e' & -> & Hd)]; [exact I|].
  unfold to_f32.
  destruct (binary_round_pos 24 128 ltac:(lia) false m' e') as [->|(m2 & e2 & ->)];
    [unfold emin; lia | exact I | exact I].
Qed.

Lemma round_clip_int8_range (x : float) :
  x <> S754_nan -> exists z, round_clip_int8 x = Some z /\ -127 <= z <= 127.
Proof.
  destruct x as [s|s| |s m e]; intros Hx; try congruence; simpl; eexists;
    (split; [reflexivity|]); unfold np_clip; try lia.
  unfold np_clip. destruct s; lia.
Qed.

Lemma div_core_nonneg (prec emax : Z) (m1 m2 : positive) (e1 e2 : Z) :
  0 <= fst (fst (SFdiv_core_binary prec emax (Zpos m1) e1 (Zpos m2) e2)).
Proof.
  unfold SFdiv_core_binary.
  set (s := e1 - e2 - _).
  set (m' := match s with Z.pos _ => Z.shiftl (Zpos m1) s | 0 => Zpos m1 | Z.neg _ => 0 end).
  assert (Hm' : 0 <= m').
  { unfold m'. destruct s; try lia. apply Z.shiftl_nonneg. lia. }
  destruct (Z.div_eucl m' (Zpos m2)) as [q r] eqn:Eq. simpl.
  replace q with (m' / Zpos m2) by (rewrite <- div_eucl_fst, Eq; reflexivity).
  apply Z.div_pos; lia.
Qed.

Lemma f32_div_not_nan (x d : float) :
  finite32 x -> nonzero_number d -> f32_div x d <> S754_nan.
Proof.
  unfold f32_div, SFdiv.
  destruct x as [sx|sx| |sx mx ex]; simpl; try tauto;
    destruct d as [sd|sd| |sd md ed]; simpl; try tauto; try discriminate.
  intros _ _.
  pose proof (div_core_nonneg 24 128 mx md ex ed) as Hq.
  destruct (SFdiv_core_binary 24 128 (Zpos mx) ex (Zpos md) ed) as [[q e'] l].
  simpl in Hq. now apply binary_round_aux_not_nan.
Qed.

Lemma f32_div_zero (x d : float) :
  is_zero x -> nonzero_number d -> is_zero (f32_div x d).
Proof.
  destruct x as [sx|sx| |sx mx ex]; simpl; try tauto.
  destruct d as [sd|sd| |sd md ed]; simpl; tauto.
Qed.

Lemma quantize_entry (x d : float) :
  finite32 x -> nonzero_number d ->
  exists z, round_clip_int8 (f32_div x d) = Some z /\
    -127 <= z <= 127 /\ (is_zero x -> z = 0).
Proof.
  intros Hx Hd.
  destruct (round_clip_int8_range _ (f32_div_not_nan x d Hx Hd)) as (z & Ez & Hz).
  exists z. split; [exact Ez|]. split; [exact Hz|].
  intros Hx0. pose proof (f32_div_zero x d Hx0 Hd) as H0.
  destruct (f32_div x d); simpl in H0; try tauto. simpl in Ez. congruence.
Qed.

Lemma quantize_rows (w : list (list float)) (d : float) :
  Forall (Forall finite32) w -> nonzero_number d ->
  exists q,
    mapM (mapM (fun x => round_clip_int8 (f32_div x d))) w = Some q /\
    Forall2 (Forall2 (fun x z => -127 <= z <= 127 /\ (is_zero x -> z = 0))) w q.
Proof.
  intros Hw Hd.
  assert (Hrow : forall row, Forall finite32 row ->
    exists qr, mapM (fun x => round_clip_int8 (f32_div x d)) row = Some qr /\
      Forall2 (fun x z => -127 <= z <= 127 /\ (is_zero x -> z = 0)) row qr).
  { intros row Hr. induction Hr as [|x row Hx Hr (qr & E & F)].
    - exists []. split; [reflexivity | constructor].
    - destruct (quantize_entry x d Hx Hd) as (z & Ez & Hz).
      exists (z :: qr). simpl. rewrite Ez. simpl. rewrite E. simpl.
      split; [reflexivity | now constructor]. }
  induction Hw as [|row w Hr Hw (q & E & F)].
  - exists []. split; [reflexivity | constructor].
  - destruct (Hrow row Hr) as (qr & Er & Fr).
    exists (qr :: q). simpl. rewrite Er. simpl. rewrite E. simpl.
    split; [reflexivity | now constructor].
Qed.

Lemma np_max_zeros (a : list float) :
  a <> [] -> Forall is_zero a -> np_max (map SFabs a) = Some (S754_zero false).
Proof.
  destruct a as [|x a]; [congruence|]. intros _ H.
  apply Forall_cons in H as [Hx Ha]. simpl.
  destruct x; simpl in Hx; try tauto. simpl. f_equal.
  induction Ha as [|y a Hy Ha IH]; [reflexivity|].
  destruct y; simpl in Hy; try contradiction. exact IH.
Qed.

(** Claim C9, as amended.  For every non-empty float32 matrix with finite
    entries, [quantize_int8] returns [(q, scale)] where [scale] is
    [max(|w|) / 127] in float64 when [max(|w|) > 1e-12] and [1.0] otherwise,
    in particular when the matrix is all-zero; [q] has the shape of [w],
    every entry of [q] lies in [-127, 127], and every zero entry of [w] maps
    to a zero entry of [q]. *)
Theorem quantize_int8_contract (w : list (list float)) :
  concat w <> [] ->
  Forall (Forall finite32) w ->
  exists q scale mx,
    quantize_int8 w = Some (q, scale) /\
    np_max (map SFabs (concat w)) = Some mx /\
    scale = (if SFltb f64_1e_12 (to_f64 mx) then f64_div (to_f64 mx) f64_127 else f64_1) /\
    (Forall (Forall is_zero) w -> scale = f64_1) /\
    Forall2 (Forall2 (fun x z => -127 <= z <= 127 /\ (is_zero x -> z = 0))) w q.
Proof.
  intros Hne Hw. unfold quantize_int8.
  destruct (np_max (map SFabs (concat w))) as [mx|] eqn:Emx.
  2:{ destruct (concat w); [congruence | discriminate]. }
  simpl.
  destruct (quantize_rows w _ Hw (scale32_nonzero (to_f64 mx))) as (q & Eq & Hq).
  rewrite Eq. simpl. do 3 eexists. split; [reflexivity|]. split; [reflexivity|].
  split; [reflexivity|]. split; [|exact Hq].
  intros Hz. rewrite np_max_zeros in Emx; [|exact Hne|].
  - injection Emx as <-. reflexivity.
  - apply Forall_concat. exact Hz.
Qed.

Lemma quantize_int8_contract_witness :
  exists q scale mx,
    quantize_int8 w_sample = Some (q, scale) /\
    np_max (map SFabs (concat w_sample)) = Some mx /\
    scale = (if SFltb f64_1e_12 (to_f64 mx) then f64_div (to_f64 mx) f64_127 else f64_1) /\
    (Forall (Forall is_zero) w_sample -> scale = f64_1) /\
    Forall2 (Forall2 (fun x z => -127 <= z <= 127 /\ (is_zero x -> z = 0))) w_sample q.
Proof.
  apply (quantize_int8_contract w_sample).
  - discriminate.
  - repeat constructor.
Defined.

(** The one-entry matrix [[2^-50]] is not all-zero, yet its maximum is below
    the guard [1e-12]: the scale is [1.0], not [max(|w|) / 127], and the
    entry is quantized to 0. *)
Lemma tiny_matrix_gets_unit_scale :
  finite32 f32_tiny /\ ~ is_zero f32_tiny /\
  quantize_int8 [[f32_tiny]] = Some ([[0]], f64_1) /\
  f64_div (to_f64 f32_tiny) f64_127 = S754_finite false 4539061041759240 (-109) /\
  S754_finite false 4539061041759240 (-109) <> f64_1.
Proof.
  split; [reflexivity|]. split; [intros H; exact H|].
  split; [vm_compute; reflexivity|]. split; [vm_compute; reflexivity | discriminate].
Qed.

End QuantizerProps.

(** ** More on the two engines *)

Lemma add32_swap (x a b : Z) : add32 (add32 x a) b = add32 (add32 x b) a.
Proof. unfold add32. rewrite !np_int32_add_l. f_equal. lia. Qed.

Lemma zip_add32_swap (Ih ra rb : list Z) :
  length ra = length Ih -> length rb = length Ih ->
  zip_with add32 (zip_with add32 Ih ra) rb = zip_with add32 (zip_with add32 Ih rb) ra.
Proof.
  revert ra rb. induction Ih as [|x Ih IH]; intros [|a ra] [|b rb] Ha Hb;
    simpl in *; try discriminate; [reflexivity|].
  rewrite add32_swap. f_equal. apply IH; lia.
Qed.

Lemma np_broadcast_length (n : nat) (v v' : list Z) :
  Golden.np_broadcast_to n v = Some v' -> length v' = n.
Proof.
  unfold Golden.np_broadcast_to. destruct (Nat.eqb_spec (length v) n) as [<-|_].
  - now intros [= <-].
  - destruct v as [|x [|? ?]]; try discriminate. intros [= <-]. apply length_replicate.
Qed.

Lemma np_broadcast_same_length (n : nat) (v w : list Z) :
  length v = length w ->
  Golden.np_broadcast_to n v = None -> Golden.np_broadcast_to n w = None.
Proof.
  unfold Golden.np_broadcast_to. intros Hl. rewrite <- Hl.
  destruct (length v =? n)%nat; [discriminate|].
  destruct v as [|x [|? ?]], w as [|y [|? ?]]; simpl in *; try discriminate; auto.
Qed.

Lemma add_row32_swap (W : ndarray2) (Ih : list Z) (a b : nat) :
  (Ih1 ← Golden.add_row32 W Ih a; Golden.add_row32 W Ih1 b) =
  (Ih1 ← Golden.add_row32 W Ih b; Golden.add_row32 W Ih1 a).
Proof.
  unfold Golden.add_row32, get_row.
  destruct (a <? nrows W)%nat eqn:Ea, (b <? nrows W)%nat eqn:Eb; simpl;
    try reflexivity.
  - set (ra := map np_int32 (map (at2 W a) (seq 0 (ncols W)))).
    set (rb := map np_int32 (map (at2 W b) (seq 0 (ncols W)))).
    assert (Hl : length ra = length rb) by (unfold ra, rb; now rewrite !length_map).
    destruct (Golden.np_broadcast_to (length Ih) ra) as [ra'|] eqn:Ba;
      destruct (Golden.np_broadcast_to (length Ih) rb) as [rb'|] eqn:Bb; simpl.
    + pose proof (np_broadcast_length _ _ _ Ba) as La.
      pose proof (np_broadcast_length _ _ _ Bb) as Lb.
      rewrite !length_zip_with, La, Lb, Nat.min_id, Ba, Bb. simpl.
      f_equal. now apply zip_add32_swap.
    + now rewrite (np_broadcast_same_length _ _ _ (eq_sym Hl) Bb) in Ba.
    + now rewrite (np_broadcast_same_length _ _ _ Hl Ba) in Bb.
    + reflexivity.
  - destruct (Golden.np_broadcast_to _ _); reflexivity.
  - destruct (Golden.np_broadcast_to _ _); reflexivity.
Qed.

Lemma for_each_add_row32_perm (W : ndarray2) (ev ev' : list nat) :
  ev ≡ₚ ev' ->
  forall Ih, for_each (Golden.add_row32 W) Ih ev = for_each (Golden.add_row32 W) Ih ev'.
Proof.
  induction 1 as [|x l l' _ IH|x y l|l l' l'' _ IH1 _ IH2]; intros Ih.
  - reflexivity.
  - simpl. destruct (Golden.add_row32 W Ih x); simpl; [apply IH | reflexivity].
  - simpl. pose proof (add_row32_swap W Ih y x) as Hs.
    destruct (Golden.add_row32 W Ih y) as [I1|], (Golden.add_row32 W Ih x) as [I2|];
      simpl in *.
    + now rewrite Hs.
    + now rewrite Hs.
    + now rewrite <- Hs.
    + reflexivity.
  - now rewrite IH1.
Qed.

Lemma golden_timestep_perm (W1 W2 : ndarray2) (p : Golden.SNNParams)
    (st : Golden.state) (ev ev' : list nat) :
  ev ≡ₚ ev' -> Golden.timestep W1 W2 p st ev = Golden.timestep W1 W2 p st ev'.
Proof.
  intros H. unfold Golden.timestep, Golden.hidden_membrane.
  now rewrite (for_each_add_row32_perm W1 ev ev' H).
Qed.

Lemma golden_run_perm (W1 W2 : ndarray2) (p : Golden.SNNParams)
    (evs evs' : list (list nat)) :
  Forall2 Permutation evs evs' ->
  forall st, for_each (Golden.timestep W1 W2 p) st evs =
             for_each (Golden.timestep W1 W2 p) st evs'.
Proof.
  induction 1 as [|ev ev' evs evs' H _ IH]; intros st; [reflexivity|].
  simpl. rewrite (golden_timestep_perm W1 W2 p st ev ev' H).
  destruct (Golden.timestep W1 W2 p st ev'); simpl; [apply IH | reflexivity].
Qed.

(** The result of [snn_infer_events] does not depend on the order in which
    a timestep lists its source ids: windows whose timesteps are
    permutations of each other give the same class, confidence and counts
    (or raise alike), for arrays of any shape. *)
Theorem events_order_is_irrelevant (events events' : list (list nat))
    (W1 W2 : ndarray2) (p : Golden.SNNParams) :
  Forall2 Permutation events events' ->
  Golden.snn_infer_events events' W1 W2 p = Golden.snn_infer_events events W1 W2 p.
Proof.
  intros H. unfold Golden.snn_infer_events, window_of.
  rewrite <- (Forall2_length _ _ _ H).
  now rewrite (golden_run_perm W1 W2 p _ _ (Forall2_take _ _ _ _ H)).
Qed.

Lemma events_order_is_irrelevant_witness :
  Golden.snn_infer_events [[3; 0; 5]; [1; 2]]%nat W1_mixed W2_mixed (golden_params p_ref) =
  Golden.snn_infer_events [[0; 5; 3]; [2; 1]]%nat W1_mixed W2_mixed (golden_params p_ref).
Proof.
  apply (events_order_is_irrelevant [[0; 5; 3]; [2; 1]]%nat [[3; 0; 5]; [1; 2]]%nat).
  constructor; [|constructor; [|constructor]].
  - exact (perm_trans (perm_skip 0%nat (perm_swap 3%nat 5%nat [])) (perm_swap 3%nat 0%nat [5%nat])).
  - exact (perm_swap 1%nat 2%nat []).
Defined.

Lemma count_spikes_within (t : Z) (C : list Z) (bs : list bool) :
  0 <= t < 2147483647 ->
  counts_within t C -> counts_within (t + 1) (GenVec.count_spikes C bs).
Proof.
  intros Ht HC. unfold GenVec.count_spikes. revert bs.
  induction HC as [|c C Hc HC IH]; intros bs; [constructor|].
  destruct bs as [|b bs]; [constructor|]. simpl. constructor; [|apply IH].
  destruct b; [|lia]. unfold add32. rewrite np_int32_id by (unfold is_int32; lia). lia.
Qed.

Section GenVecCounts.

Variables (W1 W2 : ndarray2) (p : GenVec.IntSNNParams).
Hypothesis shapes : shapes_ok p W1 W2.

Lemma genvec_run_counts (masks : list Z) (st : GenVec.state) (t : Z) :
  state_ok p st -> 0 <= t -> t + Z.of_nat (length masks) < 2147483648 ->
  counts_within t (GenVec.Cout st) ->
  exists st', for_each (GenVec.timestep W1 W2 p) st masks = Some st' /\
    state_ok p st' /\ counts_within (t + Z.of_nat (length masks)) (GenVec.Cout st').
Proof.
  revert st t. induction masks as [|m masks IH]; intros st t Hok Ht Hb HC.
  - exists st. simpl. rewrite Z.add_0_r. auto.
  - simpl length in Hb.
    destruct (genvec_timestep_total W1 W2 p shapes st m Hok) as (st1 & E & Hok1).
    assert (HC1 : counts_within (t + 1) (GenVec.Cout st1)).
    { unfold GenVec.timestep in E.
      destruct (GenVec.weighted_input16 W1 _ _ _); [|discriminate]. simpl in E.
      destruct (GenVec.weighted_input16 W2 _ _ _); [|discriminate]. simpl in E.
      injection E as <-. simpl. apply count_spikes_within; [lia | exact HC]. }
    destruct (IH st1 (t + 1) Hok1 ltac:(lia) ltac:(lia) HC1) as (st' & E' & Hok' & HC').
    exists st'. simpl. rewrite E. simpl. split; [exact E'|]. split; [exact Hok'|].
    now replace (t + Z.of_nat (S (length masks))) with (t + 1 + Z.of_nat (length masks)) by lia.
Qed.

(** With weights of the shapes the parameters call for, at least one class
    and fewer than 2^31 timesteps, [snn_infer_int] returns a class below
    [n_out] and [n_out] counts, each between 0 and the number of timesteps
    processed, [min(len(spike_masks), window_len)]. *)
Theorem snn_infer_int_counts_bounded (masks : list Z) :
  (1 <= GenVec.n_out p)%nat ->
  Z.min (Z.of_nat (length masks)) (GenVec.window_len p) < 2 ^ 31 ->
  exists cls counts,
    GenVec.snn_infer_int masks W1 W2 p = Some (cls, counts) /\
    (cls < GenVec.n_out p)%nat /\
    length counts = GenVec.n_out p /\
    Forall (fun c => 0 <= c <= Z.max 0 (Z.min (Z.of_nat (length masks)) (GenVec.window_len p)))
      counts.
Proof.
  intros Hno HT. unfold GenVec.snn_infer_int.
  pose proof (length_window_of masks (GenVec.window_len p)) as HL.
  destruct (genvec_run_counts (window_of masks (GenVec.window_len p)) (GenVec.init p) 0
    (init_ok p) ltac:(lia) ltac:(change (2 ^ 31) with 2147483648 in HT; lia))
    as (st & E & Hok & HC).
  { apply Forall_replicate. lia. }
  destruct (np_argmax_spec (GenVec.Cout st)) as (cls & Ecls & mx & Hmx & _).
  { rewrite (ok_Cout_len _ _ Hok). exact Hno. }
  exists cls, (GenVec.Cout st). rewrite E. simpl. rewrite Ecls. simpl.
  split; [reflexivity|]. split; [|split].
  - apply lookup_lt_Some in Hmx. now rewrite (ok_Cout_len _ _ Hok) in Hmx.
  - exact (ok_Cout_len _ _ Hok).
  - rewrite HL in HC. simpl in HC.
    eapply Forall_impl; [exact HC|]. simpl. intros c Hc. lia.
Qed.

End GenVecCounts.

Lemma snn_infer_int_counts_bounded_witness :
  exists cls counts,
    GenVec.snn_infer_int window_mixed W1_mixed W2_mixed p_ref = Some (cls, counts) /\
    (cls < GenVec.n_out p_ref)%nat /\
    length counts = GenVec.n_out p_ref /\
    Forall (fun c => 0 <= c <= Z.max 0 (Z.min (Z.of_nat (length window_mixed))
                                          (GenVec.window_len p_ref))) counts.
Proof.
  apply (snn_infer_int_counts_bounded W1_mixed W2_mixed p_ref).
  - repeat split.
  - simpl; lia.
  - vm_compute; reflexivity.
Defined.

Lemma argmax_from_zeros (n i : nat) : argmax_from 0 0 i (replicate n 0) = 0%nat.
Proof. revert i. induction n as [|n IH]; intros i; [reflexivity|]. simpl. apply IH. Qed.

Lemma np_argmax_zeros (n : nat) :
  np_argmax (np_zeros n) = if (n =? 0)%nat then None else Some 0%nat.
Proof. destruct n as [|n]; [reflexivity|]. simpl. now rewrite argmax_from_zeros. Qed.

Lemma window_of_empty {A : Type} (xs : list A) (wl : Z) :
  xs = [] \/ wl <= 0 -> window_of xs wl = [].
Proof.
  unfold window_of. intros [->|H]; [apply take_nil|].
  replace (Z.to_nat _) with 0%nat by lia. reflexivity.
Qed.

(** Without a timestep to process (no mask words, or a window length of 0
    or less) both engines skip the loop and never read the weights: with at
    least one class they answer class 0 with all-zero counts (confidence 0),
    and with no class [np.argmax] raises on the empty counts. *)
Theorem empty_window_skips_the_loop (masks : list Z) (W1 W2 : ndarray2)
    (p : GenVec.IntSNNParams) :
  masks = [] \/ GenVec.window_len p <= 0 ->
  GenVec.snn_infer_int masks W1 W2 p =
    (if (GenVec.n_out p =? 0)%nat then None else Some (0%nat, np_zeros (GenVec.n_out p))) /\
  Golden.snn_infer_events (map (events_of_mask (GenVec.n_in p)) masks) W1 W2 (golden_params p) =
    (if (GenVec.n_out p =? 0)%nat then None else Some (0%nat, 0, np_zeros (GenVec.n_out p))).
Proof.
  intros H. unfold GenVec.snn_infer_int, Golden.snn_infer_events.
  rewrite window_of_map. simpl Golden.window_len.
  rewrite (window_of_empty masks _ H). simpl.
  rewrite np_argmax_zeros. destruct (GenVec.n_out p) as [|n]; split; reflexivity.
Qed.

Lemma empty_window_skips_the_loop_witness :
  GenVec.snn_infer_int [] W1_mixed W2_mixed p_ref =
    (if (GenVec.n_out p_ref =? 0)%nat then None else Some (0%nat, np_zeros (GenVec.n_out p_ref))) /\
  Golden.snn_infer_events (map (events_of_mask (GenVec.n_in p_ref)) []) W1_mixed W2_mixed
    (golden_params p_ref) =
    (if (GenVec.n_out p_ref =? 0)%nat then None else Some (0%nat, 0, np_zeros (GenVec.n_out p_ref))).
Proof. apply (empty_window_skips_the_loop [] W1_mixed W2_mixed p_ref). left. reflexivity. Defined.

(** ** The emulator: registers, frames and results *)

Section EmulatorFrames.

Import Emulator Regs.

Variable farray : Type.
Variable infer_counts :
  list (list bool) -> farray -> farray -> FloatSNNParams -> option (Z * Q * list Q).

#[local] Abbreviation emulator := (Emulator.emulator farray).
#[local] Abbreviation write_reg := (Emulator.write_reg farray infer_counts).
#[local] Abbreviation read_reg := (Emulator.read_reg farray).

Ltac regs_lookup :=
  repeat first [ rewrite lookup_insert_eq | rewrite lookup_insert_ne by done ].

(** The state a START that finds a frame ends in. *)
Lemma write_start_done (e : emulator) (value : Z) (w1 w2 : farray) (t pred : Z)
    (conf c0 c1 c2 : Q) (rest : list Q) :
  start_bit value = true -> reset_bit value = false ->
  W1 _ e = Some w1 -> W2 _ e = Some w2 ->
  regs _ e !! WINDOW_LEN = Some t ->
  1 <= t <= Z.of_nat (length (stream_buf _ e)) ->
  infer_counts (map (mask_to_spikes (n_in (cfg _ e))) (take (Z.to_nat t) (stream_buf _ e)))
    w1 w2 (float_params (cfg _ e) t) = Some (pred, conf, c0 :: c1 :: c2 :: rest) ->
  write_reg CONTROL value e =
    ({| cfg := cfg _ e;
        regs := <[CONTROL := Z.land value 0xFFFFFFFF]> (<[STATUS := STS_DONE]>
                (<[LATENCY_CYCLES := t * (Z.of_nat (n_hidden (cfg _ e)) + Z.of_nat (n_out (cfg _ e)))]>
                (<[CONF_Q15 := np_clip (py_round (Qmult conf (inject_Z (Z.shiftl 1 15)))) 0
                                 (Z.shiftl 1 15 - 1)]>
                (<[COUNT2 := py_int c2]> (<[COUNT1 := py_int c1]> (<[COUNT0 := py_int c0]>
                (<[RESULT_CLASS := pred]> (<[STATUS := STS_BUSY]> (regs _ e)))))))));
        stream_buf := drop (Z.to_nat t) (stream_buf _ e);
        W1 := Some w1; W2 := Some w2 |}, Some tt).
Proof.
  intros Hs Hr E1 E2 Ht [Ht1 Ht2] Hinf.
  rewrite write_control_unfold, Hs, Hr.
  unfold Emulator.bind at 1. unfold Emulator.ret at 1.
  unfold Emulator.bind at 1. unfold Emulator.start_inference. rewrite E1, E2.
  unfold mbind at 1. unfold emulator_bind, Emulator.bind at 1.
  unfold Emulator.get_reg at 1. rewrite Ht.
  replace (Z.of_nat (length (stream_buf _ e)) <? t) with false by (symmetry; apply Z.ltb_ge; lia).
  unfold py_slice_to, py_slice_from.
  replace (0 <=? t) with true by (symmetry; apply Z.leb_le; lia).
  destruct (take (Z.to_nat t) (stream_buf _ e)) as [|m0 frame] eqn:Efr.
  { apply (f_equal length) in Efr. rewrite length_take in Efr. simpl in Efr. lia. }
  unfold mbind, emulator_bind, Emulator.bind, Emulator.set_stream_buf, Emulator.set_reg,
    Emulator.lift_option. simpl. simpl in Hinf. rewrite Hinf. simpl.
  now rewrite E1, E2.
Qed.

(** The state a START that finds no frame ends in. *)
Lemma write_start_err (e : emulator) (value : Z) :
  start_bit value = true -> reset_bit value = false ->
  (W1 _ e = None \/ W2 _ e = None \/
   exists t, regs _ e !! WINDOW_LEN = Some t /\ Z.of_nat (length (stream_buf _ e)) < t) ->
  write_reg CONTROL value e =
    ({| cfg := cfg _ e;
        regs := <[CONTROL := Z.land value 0xFFFFFFFF]> (<[STATUS := STS_ERR]> (regs _ e));
        stream_buf := stream_buf _ e; W1 := W1 _ e; W2 := W2 _ e |}, Some tt).
Proof.
  intros Hs Hr Hcase. rewrite write_control_unfold, Hs, Hr.
  unfold Emulator.bind, Emulator.ret, Emulator.start_inference.
  destruct (W1 _ e) as [w1|] eqn:E1; [|simpl; now rewrite E1].
  destruct (W2 _ e) as [w2|] eqn:E2; [|simpl; now rewrite E1, E2].
  destruct Hcase as [H|[H|(t & Ht & Hlen)]]; try discriminate.
  unfold mbind, emulator_bind, Emulator.bind, Emulator.get_reg. rewrite Ht.
  apply Z.ltb_lt in Hlen. rewrite Hlen. simpl. now rewrite E1, E2.
Qed.

(** A write to a register other than CONTROL is stored, masked to 32
    bits, whatever the register: the read-only result, status and size
    registers included.  The next read of that offset returns the stored
    word; the other registers, the stream buffer and the weights are
    untouched. *)
Theorem write_reg_stores_any_register (e : emulator) (offset value : Z) :
  offset <> CONTROL ->
  exists e',
    write_reg offset value e = (e', Some tt) /\
    read_reg offset e' = Z.land value 0xFFFFFFFF /\
    0 <= read_reg offset e' < 2 ^ 32 /\
    (forall other, other <> offset -> read_reg other e' = read_reg other e) /\
    stream_buf _ e' = stream_buf _ e /\
    W1 _ e' = W1 _ e /\ W2 _ e' = W2 _ e /\ cfg _ e' = cfg _ e.
Proof.
  intros Hoff. unfold Emulator.write_reg.
  replace (offset =? CONTROL) with false by (symmetry; now apply Z.eqb_neq).
  assert (E : (if offset =? WINDOW_LEN
               then Emulator.set_reg farray offset (Z.land value 0xFFFFFFFF)
               else Emulator.set_reg farray offset (Z.land value 0xFFFFFFFF)) e
              = Emulator.set_reg farray offset (Z.land value 0xFFFFFFFF) e)
    by now destruct (offset =? WINDOW_LEN).
  rewrite E. eexists. split; [reflexivity|]. unfold Emulator.read_reg. simpl.
  rewrite lookup_insert_eq. simpl. split; [reflexivity|]. split.
  - change 0xFFFFFFFF with (Z.ones 32). rewrite Z.land_ones by lia.
    apply Z.mod_pos_bound. lia.
  - repeat split. intros other Hne. now rewrite lookup_insert_ne by congruence.
Qed.

(** A START that finds a frame on a loaded emulator: CONF_Q15 holds
    [round(conf * 32768)] clamped to [0, 32767], so a confidence of 1.0 or
    more reads back as 32767; LATENCY_CYCLES holds
    [WINDOW_LEN * (n_hidden + n_out)]; CONTROL keeps the written word, its
    START bit included; WINDOW_LEN, the weights and the configuration are
    unchanged. *)
Theorem start_writes_confidence_and_latency (e : emulator) (value : Z)
    (w1 w2 : farray) (t pred : Z) (conf : Q) (counts : list Q) :
  start_bit value = true -> reset_bit value = false ->
  W1 _ e = Some w1 -> W2 _ e = Some w2 ->
  regs _ e !! WINDOW_LEN = Some t ->
  1 <= t <= Z.of_nat (length (stream_buf _ e)) ->
  infer_counts (map (mask_to_spikes (n_in (cfg _ e))) (take (Z.to_nat t) (stream_buf _ e)))
    w1 w2 (float_params (cfg _ e) t) = Some (pred, conf, counts) ->
  (3 <= length counts)%nat ->
  exists e',
    write_reg CONTROL value e = (e', Some tt) /\
    read_reg CONF_Q15 e' = Z.min (Z.max (py_round (Qmult conf (inject_Z 32768))) 0) 32767 /\
    0 <= read_reg CONF_Q15 e' <= 32767 /\
    (Qle 1 conf -> read_reg CONF_Q15 e' = 32767) /\
    read_reg LATENCY_CYCLES e' =
      t * (Z.of_nat (n_hidden (cfg _ e)) + Z.of_nat (n_out (cfg _ e))) /\
    read_reg CONTROL e' = Z.land value 0xFFFFFFFF /\
    Z.testbit (read_reg CONTROL e') 0 = true /\
    read_reg WINDOW_LEN e' = t /\
    W1 _ e' = Some w1 /\ W2 _ e' = Some w2 /\ cfg _ e' = cfg _ e.
Proof.
  intros Hs Hr E1 E2 Ht Hlen Hinf Hc.
  destruct counts as [|c0 [|c1 [|c2 rest]]]; simpl in Hc; try lia.
  rewrite (write_start_done e value w1 w2 t pred conf c0 c1 c2 rest) by assumption.
  eexists. split; [reflexivity|]. unfold Emulator.read_reg. simpl.
  regs_lookup. simpl. rewrite Ht. simpl.
  change (Z.shiftl 1 15) with 32768. change (32768 - 1) with 32767.
  split; [reflexivity|]. split; [unfold np_clip; lia|]. split; [|split; [reflexivity|]].
  - intros Hconf. unfold np_clip.
    assert (32768 <= py_round (Qmult conf (inject_Z 32768))); [|lia].
    unfold py_round. destruct conf as [n d]. unfold Qle in Hconf. simpl in *.
    rewrite Pos.mul_1_r.
    assert (Hq : 32768 <= n * 32768 / Z.pos d).
    { apply Z.div_le_lower_bound; lia. }
    destruct (_ <? _); [lia|]. destruct (_ <? _); [lia|]. destruct (Z.even _); lia.
  - split; [reflexivity|]. split; [|auto].
    rewrite <- Z.bit0_odd, land_u32_bit by lia. exact Hs.
Qed.

End EmulatorFrames.

(** ** Spike rows and mask words *)

Lemma land1_testbit (m : Z) (i : nat) :
  negb (Z.land (Z.shiftr m (Z.of_nat i)) 1 =? 0) = Z.testbit m (Z.of_nat i).
Proof.
  change 1 with (Z.ones 1) at 1. rewrite Z.land_ones by lia. change (2 ^ 1) with 2.
  rewrite <- Z.bit0_mod, Z.shiftr_spec, Z.add_0_l by lia.
  now destruct (Z.testbit m (Z.of_nat i)).
Qed.

Lemma pack_fold_testbit (f : nat -> bool) (n a : nat) (m : Z) (k : nat) :
  Z.testbit
    (fold_left (fun m i => if f i then m else Z.lor m (Z.shiftl 1 (Z.of_nat i))) (seq a n) m)
    (Z.of_nat k) =
  Z.testbit m (Z.of_nat k) || ((a <=? k)%nat && (k <? a + n)%nat && negb (f k)).
Proof.
  revert a m. induction n as [|n IH]; intros a m.
  - simpl. destruct (Nat.leb_spec a k), (Nat.ltb_spec k (a + 0)); try lia;
      simpl; now rewrite orb_false_r.
  - cbn [seq fold_left]. rewrite IH.
    assert (Hbit : Z.testbit (Z.shiftl 1 (Z.of_nat a)) (Z.of_nat k) = (k =? a)%nat).
    { rewrite Z.shiftl_1_l. destruct (Nat.eqb_spec k a) as [->|Hne].
      - apply Z.pow2_bits_true. lia.
      - apply Z.pow2_bits_false. lia. }
    assert (Hm : Z.testbit (if f a then m else Z.lor m (Z.shiftl 1 (Z.of_nat a))) (Z.of_nat k)
                 = Z.testbit m (Z.of_nat k) || ((k =? a)%nat && negb (f a))).
    { destruct (f a); [now rewrite andb_false_r, orb_false_r|].
      now rewrite Z.lor_spec, Hbit, andb_true_r. }
    rewrite Hm. destruct (Nat.eqb_spec k a) as [->|Hne].
    + destruct (Nat.leb_spec (S a) a), (Nat.leb_spec a a), (Nat.ltb_spec a (a + S n));
        try lia. rewrite !andb_true_l, andb_false_l. now rewrite orb_false_r.
    + rewrite andb_false_l, orb_false_r.
      destruct (Nat.leb_spec (S a) k), (Nat.leb_spec a k), (Nat.ltb_spec k (S a + n)),
        (Nat.ltb_spec k (a + S n)); try lia; reflexivity.
Qed.

Lemma pack_row_testbit (x : ndarray2) (t k : nat) :
  Z.testbit (Driver.pack_row x t) (Z.of_nat k) =
  (k <? ncols x)%nat && negb (at2 x t k =? 0).
Proof.
  unfold Driver.pack_row.
  rewrite (pack_fold_testbit (fun i => at2 x t i =? 0)). rewrite Z.bits_0. simpl.
  reflexivity.
Qed.

Lemma pack_row_range (x : ndarray2) (t : nat) :
  0 <= Driver.pack_row x t < 2 ^ Z.of_nat (ncols x).
Proof.
  assert (H0 : 0 <= Driver.pack_row x t).
  { apply Z.bits_iff_nonneg_ex. exists (Z.of_nat (ncols x)). intros m Hm.
    replace m with (Z.of_nat (Z.to_nat m)) by lia. rewrite pack_row_testbit.
    destruct (Nat.ltb_spec (Z.to_nat m) (ncols x)); [lia | reflexivity]. }
  split; [exact H0|].
  destruct (Z.eq_dec (Driver.pack_row x t) 0) as [->|Hne].
  - apply Z.pow_pos_nonneg; lia.
  - apply Z.log2_lt_pow2; [lia|].
    destruct (Z.lt_ge_cases (Z.log2 (Driver.pack_row x t)) (Z.of_nat (ncols x))) as [|Hge];
      [assumption|].
    pose proof (Z.bit_log2 (Driver.pack_row x t) ltac:(lia)) as Hb.
    pose proof (Z.log2_nonneg (Driver.pack_row x t)).
    replace (Z.log2 _) with (Z.of_nat (Z.to_nat (Z.log2 (Driver.pack_row x t)))) in Hb by lia.
    rewrite pack_row_testbit in Hb.
    destruct (Nat.ltb_spec (Z.to_nat (Z.log2 (Driver.pack_row x t))) (ncols x)); [lia|].
    discriminate.
Qed.


(** ** Frames one after the other, and the driver *)

Section DriverProps.

Import Emulator Regs.

Variable farray : Type.
Variable infer_counts :
  list (list bool) -> farray -> farray -> FloatSNNParams -> option (Z * Q * list Q).

#[local] Abbreviation emulator := (Emulator.emulator farray).
#[local] Abbreviation write_reg := (Emulator.write_reg farray infer_counts).
#[local] Abbreviation read_reg := (Emulator.read_reg farray).
#[local] Abbreviation infer_from_masks := (Driver.infer_from_masks farray infer_counts).

Ltac regs_lookup :=
  repeat first [ rewrite lookup_insert_eq | rewrite lookup_insert_ne by done ].

(** Two STARTs on a loaded emulator holding two frames: the first runs the
    engine on words [0, t), the second on words [t, 2t), and the result
    registers then hold the second result; the words after the second frame
    stay queued. *)
Theorem two_starts_two_frames (e : emulator) (w1 w2 : farray) (t pred1 pred2 : Z)
    (conf1 conf2 : Q) (counts1 counts2 : list Q) :
  W1 _ e = Some w1 -> W2 _ e = Some w2 ->
  regs _ e !! WINDOW_LEN = Some t ->
  1 <= t -> 2 * t <= Z.of_nat (length (stream_buf _ e)) ->
  infer_counts (map (mask_to_spikes (n_in (cfg _ e))) (take (Z.to_nat t) (stream_buf _ e)))
    w1 w2 (float_params (cfg _ e) t) = Some (pred1, conf1, counts1) ->
  infer_counts (map (mask_to_spikes (n_in (cfg _ e)))
                  (take (Z.to_nat t) (drop (Z.to_nat t) (stream_buf _ e))))
    w1 w2 (float_params (cfg _ e) t) = Some (pred2, conf2, counts2) ->
  (3 <= length counts1)%nat -> (3 <= length counts2)%nat ->
  exists e1 e2,
    write_reg CONTROL CTRL_START e = (e1, Some tt) /\
    write_reg CONTROL CTRL_START e1 = (e2, Some tt) /\
    read_reg STATUS e1 = STS_DONE /\ read_reg RESULT_CLASS e1 = pred1 /\
    read_reg STATUS e2 = STS_DONE /\ read_reg RESULT_CLASS e2 = pred2 /\
    Some (read_reg COUNT0 e2) = py_int <$> counts2 !! 0%nat /\
    Some (read_reg COUNT1 e2) = py_int <$> counts2 !! 1%nat /\
    Some (read_reg COUNT2 e2) = py_int <$> counts2 !! 2%nat /\
    stream_buf _ e2 = drop (Z.to_nat (2 * t)) (stream_buf _ e).
Proof.
  intros E1 E2 Ht Ht1 Ht2 Hinf1 Hinf2 Hc1 Hc2.
  destruct counts1 as [|a0 [|a1 [|a2 rest1]]]; simpl in Hc1; try lia.
  destruct counts2 as [|b0 [|b1 [|b2 rest2]]]; simpl in Hc2; try lia.
  eexists. eexists.
  split; [apply (write_start_done _ _ e CTRL_START w1 w2 t pred1 conf1 a0 a1 a2 rest1);
          try assumption; try reflexivity; lia|].
  split.
  - apply (write_start_done _ _ _ CTRL_START w1 w2 t pred2 conf2 b0 b1 b2 rest2);
      try reflexivity; simpl.
    + regs_lookup. exact Ht.
    + rewrite length_drop. lia.
    + exact Hinf2.
  - unfold Emulator.read_reg. simpl. regs_lookup. simpl.
    repeat split. rewrite drop_drop. f_equal. lia.
Qed.

Lemma np_array_int32_ok (l : list Z) :
  Forall (fun c => - 2 ^ 31 <= c < 2 ^ 31) l -> Driver.np_array_int32 l = Driver.Returned l.
Proof.
  intros H. unfold Driver.np_array_int32.
  replace (forallb _ l) with true; [reflexivity|]. symmetry. apply forallb_forall.
  intros c Hc. rewrite Forall_forall in H. apply list_elem_of_In in Hc. specialize (H c Hc).
  apply andb_true_iff. split; [apply Z.leb_le | apply Z.ltb_lt]; lia.
Qed.

Lemma infer_from_masks_done (e : emulator) (masks : list Z) (w1 w2 : farray)
    (t pred : Z) (conf c0 c1 c2 : Q) (rest : list Q) :
  W1 _ e = Some w1 -> W2 _ e = Some w2 ->
  regs _ e !! WINDOW_LEN = Some t ->
  1 <= t <= Z.of_nat (length (stream_buf _ e ++ masks)) ->
  infer_counts (map (mask_to_spikes (n_in (cfg _ e)))
                  (take (Z.to_nat t) (stream_buf _ e ++ masks)))
    w1 w2 (float_params (cfg _ e) t) = Some (pred, conf, c0 :: c1 :: c2 :: rest) ->
  Forall (fun c => - 2 ^ 31 <= py_int c < 2 ^ 31) [c0; c1; c2] ->
  exists e',
    infer_from_masks masks e =
      (e', Driver.Returned
             {| Driver.pred_class := pred;
                Driver.counts := [py_int c0; py_int c1; py_int c2];
                Driver.conf :=
                  Qmake (np_clip (py_round (Qmult conf (inject_Z 32768))) 0 32767) 32768 |}) /\
    stream_buf _ e' = drop (Z.to_nat t) (stream_buf _ e ++ masks) /\
    W1 _ e' = Some w1 /\ W2 _ e' = Some w2 /\ cfg _ e' = cfg _ e /\
    regs _ e' !! WINDOW_LEN = Some t.
Proof.
  intros E1 E2 Ht Hlen Hinf Hr.
  unfold Driver.infer_from_masks.
  unfold mbind at 1. unfold Driver.driver_bind, Driver.dbind at 1.
  unfold Driver.backend at 1. unfold Emulator.stream_send_masks, Emulator.set_stream_buf.
  unfold mbind at 1. unfold Driver.dbind at 1. unfold Driver.backend at 1.
  rewrite (write_start_done _ _ _ CTRL_START w1 w2 t pred conf c0 c1 c2 rest)
    by (try reflexivity; assumption).
  unfold mbind, Driver.dbind, Driver.read, Emulator.read_reg. simpl.
  regs_lookup. simpl. regs_lookup. simpl.
  unfold Driver.lift. rewrite np_array_int32_ok.
  2:{ inversion Hr as [|? ? H0 Hr1]; subst. inversion Hr1 as [|? ? H1 Hr2]; subst.
      inversion Hr2 as [|? ? H2 _]; subst. repeat constructor; lia. }
  eexists. split; [reflexivity|]. simpl. regs_lookup. auto.
Qed.

Lemma infer_from_masks_err (e : emulator) (masks : list Z) :
  (W1 _ e = None \/ W2 _ e = None \/
   exists t, regs _ e !! WINDOW_LEN = Some t /\
             Z.of_nat (length (stream_buf _ e ++ masks)) < t) ->
  infer_from_masks masks e =
    ({| cfg := cfg _ e;
        regs := <[CONTROL := Z.land CTRL_START 0xFFFFFFFF]> (<[STATUS := STS_ERR]> (regs _ e));
        stream_buf := stream_buf _ e ++ masks; W1 := W1 _ e; W2 := W2 _ e |},
     Driver.Raised Driver.RuntimeError).
Proof.
  intros Hcase. unfold Driver.infer_from_masks.
  unfold mbind at 1. unfold Driver.driver_bind, Driver.dbind at 1.
  unfold Driver.backend at 1. unfold Emulator.stream_send_masks, Emulator.set_stream_buf.
  unfold mbind at 1. unfold Driver.dbind at 1. unfold Driver.backend at 1.
  rewrite write_start_err by (try reflexivity; exact Hcase).
  unfold mbind, Driver.dbind, Driver.read, Emulator.read_reg. simpl.
  regs_lookup. reflexivity.
Qed.




Lemma unpack_pack_row (x : ndarray2) (t : nat) :
  ncols x = 12%nat ->
  mask_to_spikes 12 (Driver.pack_row x t) =
  map (fun i => negb (at2 x t i =? 0)) (seq 0 12).
Proof.
  intros HC. unfold mask_to_spikes. apply map_ext_in. intros i Hi. apply in_seq in Hi.
  rewrite land1_testbit, pack_row_testbit, HC.
  destruct (Nat.ltb_spec i 12); [reflexivity | lia].
Qed.

Lemma init_sequence (e0 : emulator) (window_len : Z) :
  Driver.dbind farray (Driver.set_window_len farray infer_counts window_len)
    (fun _ => Driver.reset farray infer_counts) e0 =
  ({| cfg := cfg _ e0;
      regs := <[CONTROL := Z.land CTRL_RESET 0xFFFFFFFF]> (<[LATENCY_CYCLES := 0]>
              (<[CONF_Q15 := 0]> (<[COUNT2 := 0]> (<[COUNT1 := 0]> (<[COUNT0 := 0]>
              (<[RESULT_CLASS := 0]> (<[STATUS := 0]>
              (<[WINDOW_LEN := Z.land (Z.land window_len 0xFFFFFFFF) 0xFFFFFFFF]>
                 (regs _ e0)))))))));
      stream_buf := []; W1 := W1 _ e0; W2 := W2 _ e0 |}, Driver.Returned tt).
Proof.
  unfold Driver.set_window_len, Driver.reset.
  unfold mbind, Driver.driver_bind, Driver.dbind, Driver.backend.
  unfold Emulator.write_reg at 1.
  change (WINDOW_LEN =? CONTROL) with false. change (WINDOW_LEN =? WINDOW_LEN) with true.
  cbv iota. unfold Emulator.set_reg at 1.
  rewrite write_control_unfold.
  change (reset_bit CTRL_RESET) with true. change (start_bit CTRL_RESET) with false.
  cbv iota. reflexivity.
Qed.

Lemma land_u32_twice (v : Z) : Z.land (Z.land v 0xFFFFFFFF) 0xFFFFFFFF = v mod 2 ^ 32.
Proof.
  change 0xFFFFFFFF with (Z.ones 32). rewrite !Z.land_ones by lia.
  now rewrite Z.mod_mod by lia.
Qed.

Lemma new_driver_state (w1 w2 : farray) (window_len : Z) :
  exists e,
    Driver.new_driver farray infer_counts w1 w2 window_len = (e, Driver.Returned tt) /\
    regs _ e !! WINDOW_LEN = Some (window_len mod 2 ^ 32) /\
    stream_buf _ e = [] /\
    W1 _ e = Some w1 /\ W2 _ e = Some w2 /\ cfg _ e = cfg_default.
Proof.
  unfold Driver.new_driver, mbind, Driver.driver_bind. rewrite init_sequence.
  eexists. split; [reflexivity|]. cbn [regs stream_buf W1 W2 cfg].
  regs_lookup. rewrite land_u32_twice. repeat split.
Qed.

(** A new driver: [set_window_len] followed by [reset] leaves WINDOW_LEN at
    the requested length modulo 2^32, since the reset does not restore the
    configured default; STATUS is 0, the queue is empty, and CONTROL keeps
    the RESET bit it was written with. *)
Theorem new_driver_keeps_window_len (w1 w2 : farray) (window_len : Z) :
  exists e,
    Driver.new_driver farray infer_counts w1 w2 window_len = (e, Driver.Returned tt) /\
    read_reg WINDOW_LEN e = window_len mod 2 ^ 32 /\
    read_reg STATUS e = 0 /\
    read_reg CONTROL e = CTRL_RESET /\
    read_reg N_IN e = 12 /\ read_reg N_HIDDEN e = 32 /\ read_reg N_OUT e = 3 /\
    stream_buf _ e = [] /\
    W1 _ e = Some w1 /\ W2 _ e = Some w2.
Proof.
  unfold Driver.new_driver, mbind, Driver.driver_bind. rewrite init_sequence.
  eexists. split; [reflexivity|]. unfold Emulator.read_reg.
  cbn [regs stream_buf W1 W2 cfg]. regs_lookup. rewrite land_u32_twice.
  unfold Emulator.new_emulator. cbn [regs]. regs_lookup.
  repeat split.
Qed.


End DriverProps.

Lemma write_reg_stores_any_register_witness :
  exists e',
    Emulator.write_reg unit infer_fixed Regs.STATUS 0x100000007 emu_loaded = (e', Some tt) /\
    Emulator.read_reg unit Regs.STATUS e' = Z.land 0x100000007 0xFFFFFFFF /\
    0 <= Emulator.read_reg unit Regs.STATUS e' < 2 ^ 32 /\
    (forall other, other <> Regs.STATUS ->
       Emulator.read_reg unit other e' = Emulator.read_reg unit other emu_loaded) /\
    Emulator.stream_buf unit e' = Emulator.stream_buf unit emu_loaded /\
    Emulator.W1 unit e' = Emulator.W1 unit emu_loaded /\
    Emulator.W2 unit e' = Emulator.W2 unit emu_loaded /\
    Emulator.cfg unit e' = Emulator.cfg unit emu_loaded.
Proof.
  apply (write_reg_stores_any_register unit infer_fixed emu_loaded Regs.STATUS 0x100000007).
  discriminate.
Defined.

Lemma start_writes_confidence_and_latency_witness :
  exists e',
    Emulator.write_reg unit infer_fixed Regs.CONTROL 1 emu_three_words = (e', Some tt) /\
    Emulator.read_reg unit Regs.CONF_Q15 e' =
      Z.min (Z.max (Emulator.py_round (Qmult (3 # 4) (inject_Z 32768))) 0) 32767 /\
    0 <= Emulator.read_reg unit Regs.CONF_Q15 e' <= 32767 /\
    (Qle 1 (3 # 4) -> Emulator.read_reg unit Regs.CONF_Q15 e' = 32767) /\
    Emulator.read_reg unit Regs.LATENCY_CYCLES e' =
      2 * (Z.of_nat (Emulator.n_hidden (Emulator.cfg unit emu_three_words)) +
           Z.of_nat (Emulator.n_out (Emulator.cfg unit emu_three_words))) /\
    Emulator.read_reg unit Regs.CONTROL e' = Z.land 1 0xFFFFFFFF /\
    Z.testbit (Emulator.read_reg unit Regs.CONTROL e') 0 = true /\
    Emulator.read_reg unit Regs.WINDOW_LEN e' = 2 /\
    Emulator.W1 unit e' = Some tt /\ Emulator.W2 unit e' = Some tt /\
    Emulator.cfg unit e' = Emulator.cfg unit emu_three_words.
Proof.
  apply (start_writes_confidence_and_latency unit infer_fixed emu_three_words 1 tt tt 2 2
           (3 # 4)%Q [inject_Z 1; inject_Z 0; inject_Z 3]).
  - reflexivity.
  - reflexivity.
  - reflexivity.
  - reflexivity.
  - vm_compute; reflexivity.
  - vm_compute; split; discriminate.
  - reflexivity.
  - simpl; lia.
Defined.

Lemma two_starts_two_frames_witness :
  exists e1 e2,
    Emulator.write_reg unit infer_fixed Regs.CONTROL Regs.CTRL_START emu_four_words
      = (e1, Some tt) /\
    Emulator.write_reg unit infer_fixed Regs.CONTROL Regs.CTRL_START e1 = (e2, Some tt) /\
    Emulator.read_reg unit Regs.STATUS e1 = Regs.STS_DONE /\
    Emulator.read_reg unit Regs.RESULT_CLASS e1 = 2 /\
    Emulator.read_reg unit Regs.STATUS e2 = Regs.STS_DONE /\
    Emulator.read_reg unit Regs.RESULT_CLASS e2 = 2 /\
    Some (Emulator.read_reg unit Regs.COUNT0 e2) =
      Emulator.py_int <$> [inject_Z 1; inject_Z 0; inject_Z 3] !! 0%nat /\
    Some (Emulator.read_reg unit Regs.COUNT1 e2) =
      Emulator.py_int <$> [inject_Z 1; inject_Z 0; inject_Z 3] !! 1%nat /\
    Some (Emulator.read_reg unit Regs.COUNT2 e2) =
      Emulator.py_int <$> [inject_Z 1; inject_Z 0; inject_Z 3] !! 2%nat /\
    Emulator.stream_buf unit e2 =
      drop (Z.to_nat (2 * 2)) (Emulator.stream_buf unit emu_four_words).
Proof.
  apply (two_starts_two_frames unit infer_fixed emu_four_words tt tt 2 2 2
           (3 # 4)%Q (3 # 4)%Q
           [inject_Z 1; inject_Z 0; inject_Z 3] [inject_Z 1; inject_Z 0; inject_Z 3]).
  - reflexivity.
  - reflexivity.
  - vm_compute; reflexivity.
  - lia.
  - vm_compute; discriminate.
  - reflexivity.
  - reflexivity.
  - simpl; lia.
  - simpl; lia.
Defined.






(** ** Test vectors: masks against event lists *)

Lemma mask_from_testbit (x : list Quantizer.float) (i : nat) (m : Z) (k : nat) :
  Z.testbit (Step0.mask_from i x m) (Z.of_nat k) =
  Z.testbit m (Z.of_nat k) ||
  match x !! (k - i)%nat with
  | Some v => (i <=? k)%nat && Step0.gt_half v
  | None => false
  end.
Proof.
  revert i m. induction x as [|v x IH]; intros i m.
  - simpl. now rewrite orb_false_r.
  - cbn [Step0.mask_from]. rewrite IH.
    assert (Hm : Z.testbit (if Step0.gt_half v then Z.lor m (Z.shiftl 1 (Z.of_nat i)) else m)
                   (Z.of_nat k) = Z.testbit m (Z.of_nat k) || ((k =? i)%nat && Step0.gt_half v)).
    { destruct (Step0.gt_half v); [|now rewrite andb_false_r, orb_false_r].
      rewrite Z.lor_spec, Z.shiftl_1_l, andb_true_r. f_equal.
      destruct (Nat.eqb_spec k i) as [->|Hne].
      - apply Z.pow2_bits_true. lia.
      - apply Z.pow2_bits_false. lia. }
    rewrite Hm. destruct (lt_eq_lt_dec k i) as [[Hlt| ->]|Hgt].
    + replace (k - S i)%nat with 0%nat by lia. replace (k - i)%nat with 0%nat by lia.
      replace (k =? i)%nat with false by (symmetry; apply Nat.eqb_neq; lia).
      replace (S i <=? k)%nat with false by (symmetry; apply Nat.leb_gt; lia).
      replace (i <=? k)%nat with false by (symmetry; apply Nat.leb_gt; lia).
      cbn [lookup list_lookup andb]. rewrite !orb_false_r.
      destruct (x !! 0%nat); now rewrite orb_false_r.
    + replace (i - S i)%nat with 0%nat by lia. rewrite Nat.sub_diag.
      rewrite Nat.eqb_refl, Nat.leb_refl.
      replace (S i <=? i)%nat with false by (symmetry; apply Nat.leb_gt; lia).
      cbn [lookup list_lookup andb].
      destruct (x !! 0%nat); now rewrite orb_false_r.
    + replace (k - i)%nat with (S (k - S i)) by lia.
      replace (k =? i)%nat with false by (symmetry; apply Nat.eqb_neq; lia).
      replace (S i <=? k)%nat with true by (symmetry; apply Nat.leb_le; lia).
      replace (i <=? k)%nat with true by (symmetry; apply Nat.leb_le; lia).
      cbn [lookup list_lookup andb]. now rewrite orb_false_r.
Qed.

Lemma spikes_to_mask_bit (x : list Quantizer.float) (k : nat) :
  Z.testbit (Step0.spikes_to_mask x) (Z.of_nat k) =
  match x !! k with Some v => Step0.gt_half v | None => false end.
Proof.
  unfold Step0.spikes_to_mask. rewrite mask_from_testbit, Z.bits_0, Nat.sub_0_r. simpl.
  now destruct (x !! k).
Qed.

Lemma mask_bit_u12 (m : Z) (ch : nat) :
  GenVec.mask_bit (Z.land m 0xFFF) ch = (ch <? 12)%nat && Z.testbit m (Z.of_nat ch).
Proof.
  unfold GenVec.mask_bit. rewrite land1_testbit, Z.land_spec.
  change 0xFFF with (Z.ones 12).
  destruct (Nat.ltb_spec ch 12).
  - rewrite Z.ones_spec_low by lia. now rewrite andb_true_r.
  - rewrite Z.ones_spec_high by lia. now rewrite andb_false_r.
Qed.

Lemma filter_bool_ext {A : Type} (f g : A -> bool) (l : list A) :
  Forall (fun x => f x = g x) l ->
  filter (fun x => f x = true) l = filter (fun x => g x = true) l.
Proof.
  induction 1 as [|x l Hx _ IH]; [reflexivity|].
  rewrite !filter_cons, IH, Hx. reflexivity.
Qed.

Lemma events_of_row_mask (x : Step0.farray2) (t : nat) :
  (Step0.f_ncols x <= 12)%nat ->
  events_of_mask (Step0.f_ncols x)
    (Step0.spikes_to_mask (map (Step0.f_at x t) (seq 0 (Step0.f_ncols x)))) =
  filter (fun ch => Step0.gt_half (Step0.f_at x t ch) = true) (seq 0 (Step0.f_ncols x)).
Proof.
  intros HC. unfold events_of_mask. apply filter_bool_ext, Forall_forall.
  intros ch Hch. apply elem_of_seq in Hch.
  rewrite mask_bit_u12, spikes_to_mask_bit, list_lookup_fmap, lookup_seq_lt by lia.
  simpl. destruct (Nat.ltb_spec ch 12); [|lia]. reflexivity.
Qed.

Lemma vector_masks_closed (x_np : Step0.farray2) (n : nat) :
  (n <= Step0.f_nrows x_np)%nat ->
  mapM (fun t => Step0.spikes_to_mask <$> Step0.f_row x_np t) (seq 0 n) =
  Some (map (fun t => Step0.spikes_to_mask
                        (map (Step0.f_at x_np t) (seq 0 (Step0.f_ncols x_np)))) (seq 0 n)).
Proof.
  intros Hn. apply mapM_Some. apply Forall2_fmap_r, Forall_Forall2_diag, Forall_forall.
  intros t Ht. apply elem_of_seq in Ht. unfold Step0.f_row.
  destruct (Nat.ltb_spec t (Step0.f_nrows x_np)); [reflexivity | lia].
Qed.

Lemma events_of_vector_masks (x_np : Step0.farray2) (n : nat) :
  (Step0.f_ncols x_np <= 12)%nat -> (n <= Step0.f_nrows x_np)%nat ->
  map (events_of_mask (Step0.f_ncols x_np))
    (map (fun t => Step0.spikes_to_mask
                     (map (Step0.f_at x_np t) (seq 0 (Step0.f_ncols x_np)))) (seq 0 n)) =
  take n (Step0.spikes_to_event_lists x_np).
Proof.
  intros HC Hn. unfold Step0.spikes_to_event_lists.
  rewrite map_map, <- fmap_take, take_seq, Nat.min_l by lia.
  apply map_ext. intros t. now apply events_of_row_mask.
Qed.

(** For a spike array of at most 12 channels, the mask word
    [spikes_to_mask] builds from a row and the event list
    [spikes_to_event_lists] builds from it name the same channels: reading
    the low 12 bits of the mask in increasing order gives the event list.
    The mask loop needs [window_len] rows; it raises on fewer. *)
Theorem vector_masks_match_events (x_np : Step0.farray2) (window_len : Z) :
  (Step0.f_ncols x_np <= 12)%nat ->
  (window_len <= Z.of_nat (Step0.f_nrows x_np) ->
   exists masks,
     Step0.vector_masks x_np window_len = Some masks /\
     length masks = Z.to_nat window_len /\
     map (events_of_mask (Step0.f_ncols x_np)) masks =
       take (Z.to_nat window_len) (Step0.spikes_to_event_lists x_np)) /\
  (Z.of_nat (Step0.f_nrows x_np) < window_len ->
   Step0.vector_masks x_np window_len = None).
Proof.
  intros HC. split.
  - intros Hn. unfold Step0.vector_masks. rewrite vector_masks_closed by lia.
    eexists. split; [reflexivity|]. split; [now rewrite length_map, length_seq|].
    apply events_of_vector_masks; lia.
  - intros Hn. unfold Step0.vector_masks.
    destruct (mapM _ _) as [masks|] eqn:E; [|reflexivity].
    apply mapM_Some_1 in E.
    assert (Hin : Step0.f_nrows x_np ∈ seq 0 (Z.to_nat window_len)) by (apply elem_of_seq; lia).
    apply list_elem_of_lookup in Hin as [i Hi].
    destruct (Forall2_lookup_l _ _ _ _ _ E Hi) as (m & _ & Hm).
    unfold Step0.f_row in Hm. rewrite Nat.ltb_irrefl in Hm. discriminate.
Qed.

(** A test vector replays on the int16 engine: with at most 12 channels, at
    most 32 hidden neurons, leak shift 4 and a window of at most 10
    timesteps that the spike array covers, the masks [main] writes, fed to
    [snn_infer_int], give the class and the counts [main] writes with them,
    which it computed with [snn_infer_events] on the event lists. *)
Theorem test_vector_replays_on_int16_engine (x_np : Step0.farray2) (W1 W2 : ndarray2)
    (p : GenVec.IntSNNParams) :
  shapes_ok p W1 W2 -> int8_matrix W1 -> int8_matrix W2 ->
  Step0.f_ncols x_np = GenVec.n_in p ->
  (GenVec.n_in p <= 12)%nat -> (GenVec.n_hidden p <= 32)%nat ->
  GenVec.leak_h_shift p = 4 -> GenVec.leak_o_shift p = 4 ->
  GenVec.window_len p <= 10 ->
  GenVec.window_len p <= Z.of_nat (Step0.f_nrows x_np) ->
  (1 <= GenVec.n_out p)%nat ->
  exists masks cls conf counts,
    Step0.vector_masks x_np (GenVec.window_len p) = Some masks /\
    Golden.snn_infer_events (Step0.spikes_to_event_lists x_np) W1 W2 (golden_params p)
      = Some (cls, conf, counts) /\
    GenVec.snn_infer_int masks W1 W2 p = Some (cls, counts).
Proof.
  intros Hs H1 H2 HC Hin Hh Lh Lo Hw HT Hout.
  set (n := Z.to_nat (GenVec.window_len p)).
  assert (Hn : (n <= Step0.f_nrows x_np)%nat) by (unfold n; lia).
  set (masks := map (fun t => Step0.spikes_to_mask
                 (map (Step0.f_at x_np t) (seq 0 (Step0.f_ncols x_np)))) (seq 0 n)).
  assert (Lm : length masks = n) by (unfold masks; now rewrite length_map, length_seq).
  assert (Hev : window_of (Step0.spikes_to_event_lists x_np) (GenVec.window_len p) =
                map (events_of_mask (GenVec.n_in p)) masks).
  { unfold masks. rewrite <- HC, events_of_vector_masks by (rewrite ?HC; lia).
    unfold window_of, Step0.spikes_to_event_lists. rewrite length_map, length_seq.
    f_equal. unfold n. lia. }
  assert (Hwm : window_of masks (GenVec.window_len p) = masks).
  { unfold window_of. apply take_ge. rewrite Lm. unfold n. lia. }
  pose proof (run_within W1 W2 p Hs H1 H2 Hin Hh Lh Lo masks 0 _
    ltac:(rewrite Lm; unfold n; lia) (init_within p Hin Hh)) as Hfit.
  rewrite <- widen_init in Hfit.
  destruct (run_agree W1 W2 p Hs ltac:(lia) ltac:(lia) _ _ (init_ok p) Hfit)
    as (st' & E16 & E32 & Hok).
  destruct (np_argmax_spec (GenVec.Cout st')) as (cls & Ecls & mx & Hmx & _).
  { rewrite (ok_Cout_len _ _ Hok). exact Hout. }
  exists masks, cls. eexists. exists (GenVec.Cout st').
  split; [unfold Step0.vector_masks; now apply vector_masks_closed|].
  unfold Golden.snn_infer_events, GenVec.snn_infer_int.
  simpl Golden.window_len. rewrite Hev, Hwm, widen_init in *. rewrite E16, E32. simpl.
  rewrite Ecls. simpl. rewrite Hmx. simpl. auto.
Qed.

Lemma vector_masks_match_events_witness :
  (10 <= Z.of_nat (Step0.f_nrows x_np_sample) ->
   exists masks,
     Step0.vector_masks x_np_sample 10 = Some masks /\
     length masks = Z.to_nat 10 /\
     map (events_of_mask (Step0.f_ncols x_np_sample)) masks =
       take (Z.to_nat 10) (Step0.spikes_to_event_lists x_np_sample)) /\
  (Z.of_nat (Step0.f_nrows x_np_sample) < 10 ->
   Step0.vector_masks x_np_sample 10 = None).
Proof. apply (vector_masks_match_events x_np_sample 10). simpl; lia. Defined.

Lemma test_vector_replays_on_int16_engine_witness :
  exists masks cls conf counts,
    Step0.vector_masks x_np_sample (GenVec.window_len p_ref) = Some masks /\
    Golden.snn_infer_events (Step0.spikes_to_event_lists x_np_sample) W1_mixed W2_mixed
      (golden_params p_ref) = Some (cls, conf, counts) /\
    GenVec.snn_infer_int masks W1_mixed W2_mixed p_ref = Some (cls, counts).
Proof.
  apply (test_vector_replays_on_int16_engine x_np_sample W1_mixed W2_mixed p_ref).
  - repeat split.
  - exact W1_mixed_int8.
  - exact W2_mixed_int8.
  - reflexivity.
  - simpl; lia.
  - simpl; lia.
  - reflexivity.
  - reflexivity.
  - simpl; lia.
  - simpl; lia.
  - simpl; lia.
Defined.

(** ** The files written for the RTL *)

Lemma hex_digit_value_digit (d : Z) :
  0 <= d < 16 -> hex_digit_value (Writers.hex_digit d) = Some d.
Proof.
  intros H.
  assert (Hc : forallb (fun d => match hex_digit_value (Writers.hex_digit d) with
                                 | Some d' => d' =? d
                                 | None => false
                                 end) (map Z.of_nat (seq 0 16)) = true) by (vm_compute; reflexivity).
  rewrite forallb_forall in Hc. specialize (Hc d).
  destruct (hex_digit_value (Writers.hex_digit d)) as [d'|].
  - f_equal. apply Z.eqb_eq, Hc. apply in_map_iff. exists (Z.to_nat d).
    split; [lia | apply in_seq; lia].
  - discriminate Hc. apply in_map_iff. exists (Z.to_nat d). split; [lia | apply in_seq; lia].
Qed.

Lemma hex_value_snoc (l : list ascii) (c : ascii) :
  hex_value (l ++ [c]) = a ← hex_value l; d ← hex_digit_value c; Some (16 * a + d).
Proof. unfold hex_value. now rewrite foldl_app. Qed.

Lemma hex_digits_value (fuel : nat) (n : Z) :
  0 <= n < 16 ^ Z.of_nat fuel -> (1 <= fuel)%nat ->
  hex_value (Writers.hex_digits fuel n) = Some n /\
  (1 <= length (Writers.hex_digits fuel n))%nat /\
  (forall w : nat, n < 16 ^ Z.of_nat w -> (1 <= w)%nat ->
     (length (Writers.hex_digits fuel n) <= w)%nat).
Proof.
  revert n. induction fuel as [|fuel IH]; intros n Hn Hf; [lia|].
  cbn [Writers.hex_digits]. destruct (Z.ltb_spec n 16) as [Hlt|Hge].
  - split; [|split].
    + unfold hex_value. simpl. rewrite hex_digit_value_digit by lia. reflexivity.
    + simpl. lia.
    + intros w _ Hw. simpl. lia.
  - assert (Hfuel : (1 <= fuel)%nat).
    { destruct fuel; [|lia]. simpl in Hn. lia. }
    assert (Hq : 0 <= n / 16 < 16 ^ Z.of_nat fuel).
    { split; [apply Z.div_pos; lia|]. apply Z.div_lt_upper_bound; [lia|].
      replace (16 * 16 ^ Z.of_nat fuel) with (16 ^ Z.of_nat (S fuel)); [lia|].
      rewrite Nat2Z.inj_succ, Z.pow_succ_r by lia. reflexivity. }
    destruct (IH (n / 16) Hq Hfuel) as (Hv & Hl & Hw).
    split; [|split].
    + rewrite hex_value_snoc, Hv. simpl.
      rewrite hex_digit_value_digit by (apply Z.mod_pos_bound; lia). simpl.
      f_equal. pose proof (Z.div_mod n 16 ltac:(lia)). lia.
    + rewrite length_app. simpl. lia.
    + intros w Hnw Hw1. rewrite length_app. simpl.
      destruct w as [|[|w]]; [lia | simpl in Hnw; lia |].
      assert (length (Writers.hex_digits fuel (n / 16)) <= S w)%nat; [|lia].
      apply Hw; [|lia]. apply Z.div_lt_upper_bound; [lia|].
      replace (16 * 16 ^ Z.of_nat (S w)) with (16 ^ Z.of_nat (S (S w))); [lia|].
      rewrite (Nat2Z.inj_succ (S w)), Z.pow_succ_r by lia. reflexivity.
Qed.

Lemma hex_value_zeros (k : nat) (l : list ascii) :
  hex_value (replicate k "0"%char ++ l) = hex_value l.
Proof.
  unfold hex_value. rewrite foldl_app. f_equal.
  induction k as [|k IH]; [reflexivity|].
  rewrite replicate_S_end, foldl_app, IH. reflexivity.
Qed.

Lemma log2_fuel (n : Z) : 0 <= n -> n < 16 ^ Z.of_nat (S (Z.to_nat (Z.log2 n))).
Proof.
  intros Hn. destruct (Z.eq_dec n 0) as [->|Hne]; [reflexivity|].
  pose proof (Z.log2_spec n ltac:(lia)) as [_ Hlt].
  pose proof (Z.log2_nonneg n) as Hl.
  rewrite Nat2Z.inj_succ, Z2Nat.id by lia.
  eapply Z.lt_le_trans; [exact Hlt|].
  change 16 with (2 ^ 4). rewrite <- Z.pow_mul_r by lia.
  apply Z.pow_le_mono_r; lia.
Qed.

(** A non-negative integer below [16^width] is written with exactly
    [width] digits, which denote it. *)
Lemma format_X_spec (width : nat) (n : Z) :
  (1 <= width)%nat -> 0 <= n < 16 ^ Z.of_nat width ->
  exists cs, Writers.format_X width n = String.string_of_list_ascii cs /\
    length cs = width /\ hex_value cs = Some n.
Proof.
  intros Hw Hn. unfold Writers.format_X.
  replace (n <? 0) with false by (symmetry; apply Z.ltb_ge; lia).
  rewrite Z.abs_eq by lia.
  destruct (hex_digits_value (S (Z.to_nat (Z.log2 n))) n) as (Hv & Hl & Hb);
    [split; [lia | apply log2_fuel; lia] | lia |].
  specialize (Hb width ltac:(lia) Hw).
  set (ds := Writers.hex_digits _ n) in *. cbn [app length].
  eexists. split; [reflexivity|]. split.
  - rewrite length_app, length_replicate. lia.
  - now rewrite hex_value_zeros.
Qed.

Lemma land_byte (val : Z) : Z.land val 0xFF = val mod 256.
Proof. change 0xFF with (Z.ones 8). now rewrite Z.land_ones by lia. Qed.

(** [int8_to_twos_complement_hex] writes every integer as exactly two
    upper-case hexadecimal digits, those of [val mod 256]; for an int8 value
    reading the byte back as a signed 8-bit number gives the value again. *)
Theorem int8_hex_round_trip (val : Z) :
  exists cs u,
    Writers.int8_to_twos_complement_hex val = String.string_of_list_ascii cs /\
    length cs = 2%nat /\
    hex_value cs = Some u /\ u = val mod 256 /\
    (is_int8 val -> wrap_signed 8 u = val).
Proof.
  unfold Writers.int8_to_twos_complement_hex. rewrite land_byte.
  destruct (format_X_spec 2 (val mod 256)) as (cs & E & L & V); [lia| |].
  { pose proof (Z.mod_pos_bound val 256). change (16 ^ Z.of_nat 2) with 256. lia. }
  exists cs, (val mod 256). split; [exact E|]. split; [exact L|]. split; [exact V|].
  split; [reflexivity|]. unfold is_int8, wrap_signed. intros Hv.
  change (2 ^ (8 - 1)) with 128. change (2 ^ 8) with 256.
  Z.to_euclidean_division_equations. lia.
Qed.

Lemma concat_rows_lookup {A : Type} (f : nat -> list A) (c n i j : nat) :
  (forall k, length (f k) = c) ->
  length (concat (map f (seq 0 n))) = (n * c)%nat /\
  ((i < n)%nat -> (j < c)%nat -> concat (map f (seq 0 n)) !! (i * c + j)%nat = f i !! j).
Proof.
  intros Hc. induction n as [|n [IHl IHk]].
  - split; [reflexivity | lia].
  - rewrite seq_S, map_app, concat_app. simpl. rewrite app_nil_r. split.
    + rewrite length_app, IHl, Hc. lia.
    + intros Hi Hj. destruct (Nat.eq_dec i n) as [->|Hne].
      * rewrite lookup_app_r by (rewrite IHl; lia). rewrite IHl. f_equal. lia.
      * rewrite lookup_app_l by (rewrite IHl; nia). apply IHk; lia.
Qed.

Lemma reshape_flat_spec (a : ndarray2) :
  length (Writers.reshape_flat a) = (nrows a * ncols a)%nat /\
  forall i j, (i < nrows a)%nat -> (j < ncols a)%nat ->
    Writers.reshape_flat a !! (i * ncols a + j)%nat = Some (at2 a i j).
Proof.
  unfold Writers.reshape_flat.
  pose proof (fun i j => concat_rows_lookup (fun i => map (at2 a i) (seq 0 (ncols a)))
                (ncols a) (nrows a) i j
                (fun k => eq_trans (length_map _ _) (length_seq _ _))) as H.
  split; [exact (proj1 (H 0%nat 0%nat))|].
  intros i j Hi Hj. rewrite (proj2 (H i j) Hi Hj), list_lookup_fmap, lookup_seq_lt by lia.
  reflexivity.
Qed.

Lemma np_uint8_land (b : Z) : Writers.np_uint8 b = Z.land b 0xFF.
Proof. unfold Writers.np_uint8. now rewrite land_byte. Qed.

Lemma np_uint8_int8 (b : Z) : Writers.np_uint8 (Writers.np_int8 b) = Z.land b 0xFF.
Proof.
  rewrite land_byte. unfold Writers.np_uint8, Writers.np_int8, wrap_signed.
  change (2 ^ (8 - 1)) with 128. change (2 ^ 8) with 256.
  Z.to_euclidean_division_equations. lia.
Qed.

(** The three writers of weight bytes agree: [write_hex_bytes]
    (weights_w1.hex), [write_mem] (w1.mem of step 0.2) and, after its comment
    line, [write_weight_mem] (w1.mem of the vector generator) write the same
    lines for the same array, one two-digit byte per entry in row-major
    order: entry [(i, j)] is on line [i * ncols + j], the address the RTL
    reads it from. *)
Theorem weight_files_agree (W : ndarray2) (label : string) :
  Writers.write_hex_bytes W = Writers.write_mem W /\
  tail (Writers.write_weight_mem W label) = Writers.write_mem W /\
  length (Writers.write_mem W) = (nrows W * ncols W)%nat /\
  forall i j, (i < nrows W)%nat -> (j < ncols W)%nat ->
    Writers.write_mem W !! (i * ncols W + j)%nat =
      Some (Writers.int8_to_twos_complement_hex (at2 W i j)).
Proof.
  destruct (reshape_flat_spec W) as [Hl Hk].
  unfold Writers.write_hex_bytes, Writers.write_mem, Writers.write_weight_mem.
  split; [|split; [|split]].
  - apply map_ext. intros b. now rewrite np_uint8_land.
  - simpl. rewrite map_map. apply map_ext. intros b. now rewrite np_uint8_int8.
  - now rewrite length_map.
  - intros i j Hi Hj. now rewrite list_lookup_fmap, Hk.
Qed.

(** The .coe file: two header lines, then one line per entry in row-major
    order, the byte followed by a comma, except the last entry, which is
    followed by the semicolon that ends the vector.  An empty array leaves
    the two header lines, the vector unterminated. *)
Theorem write_coe_layout (data : ndarray2) (radix : Z) :
  length (Writers.write_coe data radix) = (2 + nrows data * ncols data)%nat /\
  Writers.write_coe data radix !! 0%nat =
    Some ("memory_initialization_radix=" +:+ pretty radix +:+ ";") /\
  Writers.write_coe data radix !! 1%nat = Some "memory_initialization_vector=" /\
  forall i j, (i < nrows data)%nat -> (j < ncols data)%nat ->
    Writers.write_coe data radix !! (2 + (i * ncols data + j))%nat =
      Some (Writers.int8_to_twos_complement_hex (at2 data i j) +:+
            (if ((i =? nrows data - 1) && (j =? ncols data - 1))%nat then ";" else ",")).
Proof.
  destruct (reshape_flat_spec data) as [Hl Hk]. unfold Writers.write_coe.
  split; [|split; [reflexivity|split; [reflexivity|]]].
  - cbn [length]. rewrite length_imap, Hl. reflexivity.
  - intros i j Hi Hj.
    change (2 + (i * ncols data + j))%nat with (S (S (i * ncols data + j))).
    rewrite !lookup_cons.
    rewrite list_lookup_imap, Hk by assumption. simpl. do 2 f_equal. rewrite Hl.
    destruct (Nat.eqb_spec (i * ncols data + j) (nrows data * ncols data - 1)) as [E|E];
      destruct (Nat.eqb_spec i (nrows data - 1)) as [Ei|Ei];
      destruct (Nat.eqb_spec j (ncols data - 1)) as [Ej|Ej]; simpl; try reflexivity;
      exfalso; nia.
Qed.

Lemma format_word (v : Z) : 0 <= v < 2 ^ 32 -> word_line (Writers.format_X 8 v) v.
Proof.
  intros Hv. destruct (format_X_spec 8 v) as (cs & E & L & V); [lia | exact Hv |].
  exists cs. auto.
Qed.

Lemma format_words (vs : list Z) :
  Forall (fun v => 0 <= v < 2 ^ 32) vs -> Forall2 word_line (map (Writers.format_X 8) vs) vs.
Proof.
  induction 1 as [|v vs Hv _ IH]; constructor; [now apply format_word | exact IH].
Qed.

(** spikes.mem: after the comment line, one line per mask word in order;
    a word below 2^32 is written as exactly eight upper-case hexadecimal
    digits that denote it. *)
Theorem write_spike_mem_round_trip (masks : list Z) (label : string) :
  Forall (fun m => 0 <= m < 2 ^ 32) masks ->
  exists header lines,
    Writers.write_spike_mem masks label = header :: lines /\
    length lines = length masks /\
    Forall2 word_line lines masks.
Proof.
  intros H. unfold Writers.write_spike_mem. eexists. eexists.
  split; [reflexivity|]. split; [now rewrite length_map | now apply format_words].
Qed.

(** expected.mem for a test case: with weights of the shapes the parameters
    call for and fewer than 2^31 timesteps, [snn_infer_int] returns, and
    [write_expected_mem] on its result raises [IndexError] when there are
    fewer than three classes; with three or more it writes two comment
    lines, then the class and one count per class, each as exactly eight
    hexadecimal digits that denote it. *)
Theorem expected_mem_of_inference (masks : list Z) (W1 W2 : ndarray2)
    (p : GenVec.IntSNNParams) (label : string) :
  shapes_ok p W1 W2 ->
  (1 <= GenVec.n_out p)%nat -> Z.of_nat (GenVec.n_out p) <= 2 ^ 32 ->
  Z.min (Z.of_nat (length masks)) (GenVec.window_len p) < 2 ^ 31 ->
  exists cls counts,
    GenVec.snn_infer_int masks W1 W2 p = Some (cls, counts) /\
    ((GenVec.n_out p < 3)%nat ->
     Writers.write_expected_mem (Z.of_nat cls) counts label = None) /\
    ((3 <= GenVec.n_out p)%nat ->
     exists c1 c2 words,
       Writers.write_expected_mem (Z.of_nat cls) counts label = Some (c1 :: c2 :: words) /\
       length words = S (GenVec.n_out p) /\
       Forall2 word_line words (Z.of_nat cls :: counts)).
Proof.
  intros Hs Hno Hno32 HT. unfold GenVec.snn_infer_int.
  pose proof (length_window_of masks (GenVec.window_len p)) as HL.
  destruct (genvec_run_counts W1 W2 p Hs (window_of masks (GenVec.window_len p))
    (GenVec.init p) 0 (init_ok p) ltac:(lia)
    ltac:(change (2 ^ 31) with 2147483648 in HT; lia))
    as (st & E & Hok & HC).
  { apply Forall_replicate. lia. }
  destruct (np_argmax_spec (GenVec.Cout st)) as (cls & Ecls & mx & Hmx & _).
  { rewrite (ok_Cout_len _ _ Hok). exact Hno. }
  exists cls, (GenVec.Cout st). rewrite E. simpl. rewrite Ecls. simpl.
  split; [reflexivity|].
  pose proof (ok_Cout_len _ _ Hok) as Hlen.
  apply lookup_lt_Some in Hmx. rewrite Hlen in Hmx.
  assert (Hw : Forall (fun v => 0 <= v < 2 ^ 32) (GenVec.Cout st)).
  { eapply Forall_impl; [exact HC|]. simpl. intros c Hc.
    change (2 ^ 31) with 2147483648 in HT. change (2 ^ 32) with 4294967296. lia. }
  unfold Writers.write_expected_mem. split.
  - intros Hlt. destruct (GenVec.Cout st) as [|a [|b [|c rest]]]; simpl in *;
      try reflexivity; lia.
  - intros Hge. destruct (GenVec.Cout st) as [|a [|b [|c rest]]] eqn:EC; simpl in Hlen; try lia.
    simpl. do 3 eexists. split; [reflexivity|]. split.
    + simpl. rewrite length_map. simpl. lia.
    + constructor; [apply format_word; lia|]. exact (format_words _ Hw).
Qed.

Lemma write_spike_mem_round_trip_witness :
  exists header lines,
    Writers.write_spike_mem window_mixed "tc" = header :: lines /\
    length lines = length window_mixed /\
    Forall2 word_line lines window_mixed.
Proof.
  apply (write_spike_mem_round_trip window_mixed "tc").
  repeat constructor; vm_compute; discriminate.
Defined.

Lemma expected_mem_of_inference_witness :
  exists cls counts,
    GenVec.snn_infer_int window_mixed W1_mixed W2_mixed p_ref = Some (cls, counts) /\
    ((GenVec.n_out p_ref < 3)%nat ->
     Writers.write_expected_mem (Z.of_nat cls) counts "tc" = None) /\
    ((3 <= GenVec.n_out p_ref)%nat ->
     exists c1 c2 words,
       Writers.write_expected_mem (Z.of_nat cls) counts "tc" = Some (c1 :: c2 :: words) /\
       length words = S (GenVec.n_out p_ref) /\
       Forall2 word_line words (Z.of_nat cls :: counts)).
Proof.
  apply (expected_mem_of_inference window_mixed W1_mixed W2_mixed p_ref "tc").
  - repeat split.
  - simpl; lia.
  - vm_compute; discriminate.
  - vm_compute; reflexivity.
Defined.

(** ** The leak factor of the float engine *)

Lemma in_range_list (a n : nat) (s : Z) :
  Z.of_nat a <= s < Z.of_nat (a + n) -> In s (map Z.of_nat (seq a n)).
Proof. intros H. apply in_map_iff. exists (Z.to_nat s). split; [lia | apply in_seq; lia]. Qed.

Lemma alpha_exact_upto_53 (s : Z) :
  1 <= s <= 53 -> FloatEngine.shift_to_alpha s = Some (one_minus_pow2 s).
Proof.
  intros Hs.
  assert (Hc : forallb (fun s =>
      match FloatEngine.shift_to_alpha s, one_minus_pow2 s with
      | Some (S754_finite false m e), S754_finite false m' e' => (m =? m')%positive && (e =? e')
      | _, _ => false
      end) (map Z.of_nat (seq 1 53)) = true) by (vm_compute; reflexivity).
  rewrite forallb_forall in Hc. specialize (Hc s (in_range_list 1 53 s ltac:(lia))).
  destruct (FloatEngine.shift_to_alpha s) as [[| | |[|] m e]|]; try discriminate.
  destruct (one_minus_pow2 s) as [| | |[|] m' e']; try discriminate.
  apply andb_true_iff in Hc as [Hm He].
  apply Pos.eqb_eq in Hm. apply Z.eqb_eq in He. now subst.
Qed.

Lemma alpha_one_from_54 (s : Z) :
  54 <= s <= 1023 -> FloatEngine.shift_to_alpha s = Some Quantizer.f64_1.
Proof.
  intros Hs.
  assert (Hc : forallb (fun s =>
      match FloatEngine.shift_to_alpha s with
      | Some (S754_finite false m e) => (m =? 4503599627370496)%positive && (e =? -52)
      | _ => false
      end) (map Z.of_nat (seq 54 970)) = true) by (vm_compute; reflexivity).
  rewrite forallb_forall in Hc. specialize (Hc s (in_range_list 54 970 s ltac:(lia))).
  destruct (FloatEngine.shift_to_alpha s) as [[| | |[|] m e]|]; try discriminate.
  apply andb_true_iff in Hc as [Hm He].
  apply Pos.eqb_eq in Hm. apply Z.eqb_eq in He. now subst.
Qed.

(** [shift_to_alpha]: a shift of 1 or less, zero and negative shifts
    included, gives 0.5; for shifts from 1 to 53 the result is exactly
    [1 - 2^-shift]; from 54 to 1023 the subtraction rounds to 1.0, no leak at
    all; from 1024 on [2.0 ** shift] raises [OverflowError].  The integer
    engines do not clamp the shift: with shift 0 their leak step clears the
    potential, where the float engine halves it. *)
Theorem shift_to_alpha_values (shift : Z) :
  (shift <= 1 -> FloatEngine.shift_to_alpha shift = Some (one_minus_pow2 1)) /\
  (1 <= shift <= 53 -> FloatEngine.shift_to_alpha shift = Some (one_minus_pow2 shift)) /\
  (54 <= shift <= 1023 -> FloatEngine.shift_to_alpha shift = Some Quantizer.f64_1) /\
  (1024 <= shift -> FloatEngine.shift_to_alpha shift = None) /\
  one_minus_pow2 1 = S754_finite false 4503599627370496 (-53) /\
  (forall v, is_int16 v -> GenVec.leak16 0 v = 0 /\ Golden.leak32 0 v = 0).
Proof.
  split; [|split; [|split; [|split; [|split]]]].
  - intros Hs. rewrite <- (alpha_exact_upto_53 1) by lia.
    unfold FloatEngine.shift_to_alpha. now replace (Z.max 1 shift) with 1 by lia.
  - apply alpha_exact_upto_53.
  - apply alpha_one_from_54.
  - intros Hs. unfold FloatEngine.shift_to_alpha, FloatEngine.pow2.
    replace (Z.max 1 shift <? 1024) with false by (symmetry; apply Z.ltb_ge; lia).
    reflexivity.
  - reflexivity.
  - intros v Hv. rewrite leak16_exact, leak32_exact by (assumption || lia).
    rewrite Z.shiftr_0_r. lia.
Qed.

(** ** The generated test patterns *)

Lemma py_range_bounds (n t : Z) : t ∈ TestPatterns.py_range n -> 0 <= t < n.
Proof.
  unfold TestPatterns.py_range. intros H. apply list_elem_of_fmap in H as (k & -> & Hk).
  apply elem_of_seq in Hk. lia.
Qed.

Lemma ramp_bounds (t : Z) : 0 <= t -> 0 <= Z.shiftl 1 (Z.min (t + 1) 12) - 1 < 4096.
Proof.
  intros Ht. rewrite Z.shiftl_1_l.
  assert (1 <= 2 ^ Z.min (t + 1) 12 <= 2 ^ 12); [|change (2 ^ 12) with 4096 in *; lia].
  split; [apply (Z.pow_le_mono_r 2 0); lia | apply Z.pow_le_mono_r; lia].
Qed.

(** [generate_test_cases] returns eight patterns.  Every mask is a 12-bit
    word, given that the random draws are.  For a window of at least one
    timestep every pattern has exactly [window_len] masks; for a window
    length of 0 or less seven patterns are empty while
    [tc5_burst_then_silence] still holds its burst word. *)
Theorem generated_patterns_fit_window (p : GenVec.IntSNNParams) (rand42 rand123 : Z -> Z) :
  (forall k, 0 <= rand42 k < 4096) -> (forall k, 0 <= rand123 k < 4096) ->
  length (TestPatterns.generate_test_cases p rand42 rand123) = 8%nat /\
  Forall (fun tc => Forall (fun m => 0 <= m < 4096) tc.2)
    (TestPatterns.generate_test_cases p rand42 rand123) /\
  (1 <= GenVec.window_len p ->
   Forall (fun tc => Z.of_nat (length tc.2) = GenVec.window_len p)
     (TestPatterns.generate_test_cases p rand42 rand123)) /\
  (GenVec.window_len p <= 0 ->
   map (fun tc => length tc.2) (TestPatterns.generate_test_cases p rand42 rand123)
     = [0; 0; 0; 0; 0; 1; 0; 0]%nat).
Proof.
  intros H42 H123. unfold TestPatterns.generate_test_cases.
  split; [reflexivity|]. split; [|split].
  - repeat constructor; simpl; unfold TestPatterns.py_repeat;
      try (apply Forall_replicate; lia); try lia;
      apply Forall_map, Forall_forall; intros t Ht; simpl.
    + destruct (t mod 2 =? 0); lia.
    + apply ramp_bounds. apply py_range_bounds in Ht. lia.
    + apply H42.
    + apply H123.
  - intros Hw. repeat constructor; simpl;
      unfold TestPatterns.py_repeat, TestPatterns.py_range;
      rewrite ?length_map, ?length_replicate, ?length_seq; lia.
  - intros Hw. simpl. unfold TestPatterns.py_repeat, TestPatterns.py_range.
    rewrite !length_map, !length_replicate, !length_seq.
    replace (Z.to_nat (GenVec.window_len p)) with 0%nat by lia.
    replace (Z.to_nat (GenVec.window_len p - 1)) with 0%nat by lia. reflexivity.
Qed.

Lemma generated_patterns_fit_window_witness :
  length (TestPatterns.generate_test_cases p_ref (fun _ => 0x5A5)
            (fun _ => 0x0F3)) = 8%nat /\
  Forall (fun tc => Forall (fun m => 0 <= m < 4096) tc.2)
    (TestPatterns.generate_test_cases p_ref (fun _ => 0x5A5)
       (fun _ => 0x0F3)) /\
  (1 <= GenVec.window_len p_ref ->
   Forall (fun tc => Z.of_nat (length tc.2) = GenVec.window_len p_ref)
     (TestPatterns.generate_test_cases p_ref (fun _ => 0x5A5)
        (fun _ => 0x0F3))) /\
  (GenVec.window_len p_ref <= 0 ->
   map (fun tc => length tc.2)
     (TestPatterns.generate_test_cases p_ref (fun _ => 0x5A5)
        (fun _ => 0x0F3))
     = [0; 0; 0; 0; 0; 1; 0; 0]%nat).
Proof.
  apply (generated_patterns_fit_window p_ref (fun _ => 0x5A5)
           (fun _ => 0x0F3)).
  - intros k. lia.
  - intros k. lia.
Defined.

(** ** The delta encoders *)

Section EncoderProps.

Variables (prec emax : Z).

Lemma sub_self_no_spike (x thr : Quantizer.float) :
  positive_float thr -> Encoder.delta_step prec emax x x thr = (x, Encoder.NoSpike).
Proof.
  intros Hthr. unfold Encoder.delta_step.
  assert (Hd : match SFsub prec emax x x with
               | S754_zero _ | S754_nan => True
               | _ => False
               end).
  { destruct x as [[|]|[|]| |s m e]; simpl; try exact I. now rewrite Z.sub_diag. }
  destruct thr as [|[|]| |[|] mt et]; simpl in Hthr; try contradiction;
    destruct (SFsub prec emax x x) as [?|?| |? ? ?]; try contradiction; reflexivity.
Qed.

Lemma row_step_first (xs thresholds : list Quantizer.float) :
  Forall positive_float thresholds -> (length xs <= length thresholds)%nat ->
  Encoder.row_step prec emax xs xs thresholds = Some (map (fun x => (x, Encoder.NoSpike)) xs).
Proof.
  intros Hthr. revert xs. induction Hthr as [|thr thresholds Hp _ IH]; intros xs Hl.
  - destruct xs; [reflexivity | simpl in Hl; lia].
  - destruct xs as [|x xs]; [reflexivity|]. simpl in *.
    rewrite IH by lia. simpl. now rewrite sub_self_no_spike.
Qed.

Lemma row_step_total (xs acc thresholds : list Quantizer.float) :
  length acc = length xs -> (length xs <= length thresholds)%nat ->
  exists r, Encoder.row_step prec emax xs acc thresholds = Some r /\ length r = length xs.
Proof.
  revert acc thresholds. induction xs as [|x xs IH]; intros acc thresholds Ha Hl.
  - exists []. destruct acc; [split; reflexivity | discriminate].
  - destruct acc as [|a acc]; [discriminate|].
    destruct thresholds as [|thr thresholds]; [simpl in Hl; lia|].
    simpl in *. destruct (IH acc thresholds) as (r & E & Lr); [lia | lia |].
    rewrite E. simpl. eexists. split; [reflexivity|]. simpl. now rewrite Lr.
Qed.

Lemma rows_step_total (rows : list (list Quantizer.float)) (acc thresholds : list Quantizer.float)
    (F : nat) :
  Forall (fun xs => length xs = F) rows -> length acc = F ->
  (F <= length thresholds)%nat ->
  exists spk, Encoder.rows_step prec emax rows acc thresholds = Some spk /\
    length spk = length rows /\ Forall (fun r => length r = F) spk.
Proof.
  intros Hrows. revert acc. induction Hrows as [|xs rows Hx _ IH]; intros acc Ha Hl.
  - exists []. auto.
  - simpl. destruct (row_step_total xs acc thresholds) as (r & E & Lr); [lia | lia |].
    rewrite E. simpl.
    destruct (IH (map fst r)) as (spk & E' & Ls & Hs); [rewrite length_map; lia | lia |].
    rewrite E'. simpl. eexists. split; [reflexivity|]. split; [simpl; now rewrite Ls|].
    constructor; [rewrite length_map; lia | exact Hs].
Qed.

Lemma f_rows (x : Step0.farray2) :
  mapM (Step0.f_row x) (seq 0 (Step0.f_nrows x)) =
  Some (map (fun t => map (Step0.f_at x t) (seq 0 (Step0.f_ncols x))) (seq 0 (Step0.f_nrows x))).
Proof.
  apply mapM_Some. apply Forall2_fmap_r, Forall_Forall2_diag, Forall_forall.
  intros t Ht. apply elem_of_seq in Ht. unfold Step0.f_row.
  destruct (Nat.ltb_spec t (Step0.f_nrows x)); [reflexivity | lia].
Qed.

(** What the two encoders compute from a window of at least one row, with
    at least one threshold per feature. *)
Lemma encoders_run (x : Step0.farray2) (thresholds : list Quantizer.float) :
  (1 <= Step0.f_nrows x)%nat -> (Step0.f_ncols x <= length thresholds)%nat ->
  exists spk,
    Encoder.rows_step prec emax
      (map (fun t => map (Step0.f_at x t) (seq 0 (Step0.f_ncols x))) (seq 0 (Step0.f_nrows x)))
      (map (Step0.f_at x 0) (seq 0 (Step0.f_ncols x))) thresholds = Some spk /\
    length spk = Step0.f_nrows x /\
    Forall (fun r => length r = Step0.f_ncols x) spk /\
    (Forall positive_float thresholds ->
     spk !! 0%nat = Some (replicate (Step0.f_ncols x) Encoder.NoSpike)).
Proof.
  intros HT Hl.
  destruct (rows_step_total
    (map (fun t => map (Step0.f_at x t) (seq 0 (Step0.f_ncols x))) (seq 0 (Step0.f_nrows x)))
    (map (Step0.f_at x 0) (seq 0 (Step0.f_ncols x))) thresholds (Step0.f_ncols x))
    as (spk & E & Ls & Hs).
  { apply Forall_map, Forall_forall. intros t _. simpl. now rewrite length_map, length_seq. }
  { now rewrite length_map, length_seq. }
  { exact Hl. }
  exists spk. split; [exact E|]. split; [now rewrite Ls, length_map, length_seq|].
  split; [exact Hs|]. intros Hthr.
  destruct (Step0.f_nrows x) as [|n]; [lia|].
  rewrite <- cons_seq in E. cbn [map Encoder.rows_step] in E.
  rewrite row_step_first in E by (rewrite ?length_map, ?length_seq; assumption).
  simpl in E. destruct (Encoder.rows_step _ _ _ _ _); [|discriminate].
  injection E as <-. simpl. f_equal. rewrite !map_map. simpl.
  transitivity (replicate (length (seq 0 (Step0.f_ncols x))) Encoder.NoSpike);
    [|now rewrite length_seq].
  generalize (seq 0 (Step0.f_ncols x)).
  intros cols. induction cols as [|a cols IH]; [reflexivity|]. simpl. now rewrite IH.
Qed.

Lemma row_events_silent (F k n : nat) :
  Encoder.row_events F k (replicate n Encoder.NoSpike) = [].
Proof. revert k. induction n as [|n IH]; intros k; [reflexivity|]. simpl. apply IH. Qed.

(** With thresholds above zero, the first timestep of an encoded window
    never spikes: the accumulator starts at the first row, so every delta
    of that row is zero (or NaN).  [encode_window_posneg] returns [T] rows of
    [2F] entries whose first row is all zeros, and [encode_pos_neg] returns
    [T] event lists whose first is empty. *)
Theorem first_timestep_never_spikes (x_win : Step0.farray2)
    (thresholds : list Quantizer.float) :
  (1 <= Step0.f_nrows x_win)%nat ->
  length thresholds = Step0.f_ncols x_win ->
  Forall positive_float thresholds ->
  exists spk events,
    Encoder.encode_window_posneg prec emax x_win thresholds = Some spk /\
    Encoder.encode_pos_neg prec emax x_win thresholds = Some events /\
    length spk = Step0.f_nrows x_win /\
    Forall (fun row => length row = (2 * Step0.f_ncols x_win)%nat) spk /\
    spk !! 0%nat = Some (replicate (2 * Step0.f_ncols x_win) (S754_zero false)) /\
    length events = Step0.f_nrows x_win /\
    events !! 0%nat = Some [].
Proof.
  intros HT Hl Hthr.
  destruct (encoders_run x_win thresholds HT ltac:(lia)) as (spk & E & Ls & Hs & H0).
  specialize (H0 Hthr).
  unfold Encoder.encode_window_posneg, Encoder.encode_pos_neg.
  rewrite Hl, Nat.eqb_refl, f_rows. unfold Step0.f_row.
  replace (0 <? Step0.f_nrows x_win)%nat with true by (symmetry; apply Nat.ltb_lt; lia).
  simpl. rewrite E. simpl. eexists. eexists.
  split; [reflexivity|]. split; [reflexivity|].
  split; [now rewrite length_map|]. split; [|split; [|split]].
  - apply Forall_map. eapply Forall_impl; [exact Hs|]. simpl. intros r Hr.
    rewrite length_app, !length_map. lia.
  - rewrite list_lookup_fmap, H0. simpl. f_equal.
    rewrite !fmap_replicate, <- replicate_add. f_equal. lia.
  - now rewrite length_map.
  - rewrite list_lookup_fmap, H0. simpl. f_equal. apply row_events_silent.
Qed.

End EncoderProps.

Lemma first_timestep_never_spikes_witness :
  exists spk events,
    Encoder.encode_window_posneg 24 128 x_win_sample thresholds_sample = Some spk /\
    Encoder.encode_pos_neg 24 128 x_win_sample thresholds_sample = Some events /\
    length spk = Step0.f_nrows x_win_sample /\
    Forall (fun row => length row = (2 * Step0.f_ncols x_win_sample)%nat) spk /\
    spk !! 0%nat = Some (replicate (2 * Step0.f_ncols x_win_sample) (S754_zero false)) /\
    length events = Step0.f_nrows x_win_sample /\
    events !! 0%nat = Some [].
Proof.
  apply (first_timestep_never_spikes 24 128 x_win_sample thresholds_sample).
  - simpl; lia.
  - reflexivity.
  - repeat constructor.
Defined.

Lemma filter_shift (f : option Encoder.spike -> bool) (s : Encoder.spike)
    (r : list Encoder.spike) (k n : nat) :
  filter (fun ch => f ((s :: r) !! (ch - k)%nat) = true) (seq (S k) n) =
  filter (fun ch => f (r !! (ch - S k)%nat) = true) (seq (S k) n).
Proof.
  apply filter_bool_ext, Forall_forall. intros ch Hch. apply elem_of_seq in Hch.
  replace (ch - k)%nat with (S (ch - S k)) by lia. reflexivity.
Qed.

Lemma row_events_perm (F k : nat) (r : list Encoder.spike) :
  Encoder.row_events F k r ≡ₚ
  filter (fun ch => is_pos (r !! (ch - k)%nat) = true) (seq k (length r)) ++
  filter (fun ch => is_neg (r !! (ch - (F + k))%nat) = true) (seq (F + k) (length r)).
Proof.
  revert k. induction r as [|s r IH]; intros k; [reflexivity|].
  cbn [length seq]. rewrite !filter_cons, !Nat.sub_diag.
  rewrite (filter_shift is_pos), (filter_shift is_neg s r (F + k)).
  specialize (IH (S k)). replace (F + S k)%nat with (S (F + k)) in IH by lia.
  destruct s; simpl.
  - now rewrite IH.
  - rewrite IH. apply Permutation_middle.
  - exact IH.
Qed.

Lemma flags_lookup (r : list Encoder.spike) (ch : nat) :
  (map (fun s => match s with Encoder.Pos => Encoder.one 24 128 | _ => S754_zero false end) r ++
   map (fun s => match s with Encoder.Neg => Encoder.one 24 128 | _ => S754_zero false end) r)
    !! ch =
  if (ch <? length r)%nat
  then Some (if is_pos (r !! ch) then Encoder.one 24 128 else S754_zero false)
  else if (ch <? length r + length r)%nat
       then Some (if is_neg (r !! (ch - length r)%nat) then Encoder.one 24 128
                  else S754_zero false)
       else None.
Proof.
  destruct (Nat.ltb_spec ch (length r)) as [Hlt|Hge].
  - rewrite lookup_app_l by now rewrite length_map.
    rewrite list_lookup_fmap. destruct (lookup_lt_is_Some_2 r ch Hlt) as [s ->].
    now destruct s.
  - rewrite lookup_app_r by now rewrite length_map. rewrite length_map.
    destruct (Nat.ltb_spec ch (length r + length r)) as [Hlt|Hge2].
    + rewrite list_lookup_fmap.
      destruct (lookup_lt_is_Some_2 r (ch - length r) ltac:(lia)) as [s ->]. now destruct s.
    + apply lookup_ge_None. rewrite length_map. lia.
Qed.

Lemma channels_of_flags (r : list Encoder.spike) :
  channels_above_half
    (map (fun s => match s with Encoder.Pos => Encoder.one 24 128 | _ => S754_zero false end) r ++
     map (fun s => match s with Encoder.Neg => Encoder.one 24 128 | _ => S754_zero false end) r)
  = filter (fun ch => is_pos (r !! (ch - 0)%nat) = true) (seq 0 (length r)) ++
    filter (fun ch => is_neg (r !! (ch - (length r + 0))%nat) = true)
      (seq (length r + 0) (length r)).
Proof.
  unfold channels_above_half. rewrite length_app, !length_map, seq_app, filter_app.
  rewrite Nat.add_0_r. f_equal; apply filter_bool_ext, Forall_forall; intros ch Hch;
    apply elem_of_seq in Hch; rewrite flags_lookup.
  - destruct (Nat.ltb_spec ch (length r)); [|lia]. rewrite Nat.sub_0_r.
    now destruct (is_pos (r !! ch)).
  - destruct (Nat.ltb_spec ch (length r)); [lia|].
    destruct (Nat.ltb_spec ch (length r + length r)); [|lia].
    now destruct (is_neg (r !! (ch - length r)%nat)).
Qed.

Lemma event_lists_of_rows (a : Step0.farray2) (rows : list (list Quantizer.float)) :
  Step0.f_nrows a = length rows ->
  Forall (fun row => length row = Step0.f_ncols a) rows ->
  (forall t row c v, rows !! t = Some row -> row !! c = Some v -> Step0.f_at a t c = v) ->
  Step0.spikes_to_event_lists a = map channels_above_half rows.
Proof.
  intros Hn Hc Hat. unfold Step0.spikes_to_event_lists. rewrite Hn.
  apply list_eq. intros t. rewrite !list_lookup_fmap.
  destruct (rows !! t) as [row|] eqn:Er.
  - rewrite lookup_seq_lt by (apply lookup_lt_Some in Er; lia). simpl. f_equal.
    unfold channels_above_half.
    rewrite Forall_lookup in Hc. rewrite (Hc t row Er).
    apply filter_bool_ext, Forall_forall. intros ch Hch. apply elem_of_seq in Hch.
    destruct (lookup_lt_is_Some_2 row ch ltac:(rewrite (Hc t row Er); lia)) as [v Ev].
    now rewrite Ev, (Hat t row ch v Er Ev).
  - rewrite lookup_seq_ge by (apply lookup_ge_None in Er; lia). reflexivity.
Qed.

(** The two delta encoders agree on float32 arrays: at every timestep the
    event list of [encode_pos_neg] is a permutation of the channels that
    [spikes_to_event_lists] reads from the spike array of
    [encode_window_posneg] (a feature's positive channel [k], negative
    channel [F + k]); [snn_infer_events] gives the same result on both. *)
Theorem delta_encoders_agree (x : Step0.farray2) (thresholds : list Quantizer.float)
    (x_spk : Step0.farray2) (W1 W2 : ndarray2) (p : Golden.SNNParams) :
  (1 <= Step0.f_nrows x)%nat ->
  length thresholds = Step0.f_ncols x ->
  exists spk events,
    Encoder.encode_window_posneg 24 128 x thresholds = Some spk /\
    Encoder.encode_pos_neg 24 128 x thresholds = Some events /\
    (Step0.f_nrows x_spk = length spk ->
     Step0.f_ncols x_spk = (2 * Step0.f_ncols x)%nat ->
     (forall t row c v, spk !! t = Some row -> row !! c = Some v -> Step0.f_at x_spk t c = v) ->
     Forall2 Permutation events (Step0.spikes_to_event_lists x_spk) /\
     Golden.snn_infer_events events W1 W2 p =
       Golden.snn_infer_events (Step0.spikes_to_event_lists x_spk) W1 W2 p).
Proof.
  intros HT Hl.
  destruct (encoders_run 24 128 x thresholds HT ltac:(lia)) as (spk & E & Ls & Hs & _).
  unfold Encoder.encode_window_posneg, Encoder.encode_pos_neg.
  rewrite Hl, Nat.eqb_refl, f_rows. unfold Step0.f_row.
  replace (0 <? Step0.f_nrows x)%nat with true by (symmetry; apply Nat.ltb_lt; lia).
  simpl. rewrite E. simpl. eexists. eexists.
  split; [reflexivity|]. split; [reflexivity|]. intros Hn Hc Hat.
  assert (Hperm : Forall2 Permutation
            (map (Encoder.row_events (Step0.f_ncols x) 0) spk)
            (Step0.spikes_to_event_lists x_spk)).
  { rewrite (event_lists_of_rows x_spk _ Hn); [| |exact Hat].
    - rewrite map_map. apply Forall2_fmap, Forall_Forall2_diag.
      eapply Forall_impl; [exact Hs|]. simpl. intros r Hr.
      rewrite channels_of_flags, Hr. rewrite <- Hr at 2 4. apply row_events_perm.
    - apply Forall_map. eapply Forall_impl; [exact Hs|]. simpl. intros r Hr.
      rewrite length_app, !length_map. lia. }
  split; [exact Hperm|].
  unfold Golden.snn_infer_events, window_of.
  rewrite <- (Forall2_length _ _ _ Hperm).
  now rewrite <- (golden_run_perm W1 W2 p _ _ (Forall2_take _ _ _ _ Hperm)).
Qed.

Lemma delta_encoders_agree_witness :
  exists spk events,
    Encoder.encode_window_posneg 24 128 x_win_sample thresholds_sample = Some spk /\
    Encoder.encode_pos_neg 24 128 x_win_sample thresholds_sample = Some events /\
    (Step0.f_nrows x_win_spikes = length spk ->
     Step0.f_ncols x_win_spikes = (2 * Step0.f_ncols x_win_sample)%nat ->
     (forall t row c v, spk !! t = Some row -> row !! c = Some v ->
        Step0.f_at x_win_spikes t c = v) ->
     Forall2 Permutation events (Step0.spikes_to_event_lists x_win_spikes) /\
     Golden.snn_infer_events events W1_mixed W2_mixed (golden_params p_ref) =
       Golden.snn_infer_events (Step0.spikes_to_event_lists x_win_spikes) W1_mixed W2_mixed
         (golden_params p_ref)).
Proof.
  apply (delta_encoders_agree x_win_sample thresholds_sample x_win_spikes W1_mixed W2_mixed
           (golden_params p_ref)).
  - simpl; lia.
  - reflexivity.
Defined.

(** ** Windows and labels *)

Lemma py_slice_inside {A : Type} (x : list A) (a n : Z) :
  0 <= a -> 0 <= n -> a + n <= Z.of_nat (length x) ->
  Dataset.py_slice x a (a + n) = take (Z.to_nat n) (drop (Z.to_nat a) x) /\
  length (Dataset.py_slice x a (a + n)) = Z.to_nat n.
Proof.
  intros Ha Hn Hb. unfold Dataset.py_slice, Dataset.py_bound.
  replace (a <? 0) with false by (symmetry; apply Z.ltb_ge; lia).
  replace (a + n <? 0) with false by (symmetry; apply Z.ltb_ge; lia).
  replace (Z.max 0 (Z.min (Z.of_nat (length x)) (a + n)) -
           Z.max 0 (Z.min (Z.of_nat (length x)) a)) with n by lia.
  replace (Z.max 0 (Z.min (Z.of_nat (length x)) a)) with a by lia.
  split; [reflexivity|]. rewrite length_take, length_drop. lia.
Qed.

Lemma window_bounds (T window_len stride : Z) (k : nat) :
  0 <= T -> 1 <= window_len -> 1 <= stride ->
  (k < window_count T window_len stride)%nat ->
  0 <= Z.of_nat k * stride /\ Z.of_nat k * stride + window_len <= T.
Proof.
  unfold window_count. intros HT Hw Hs Hk.
  destruct (Z.ltb_spec T window_len); [simpl in Hk; lia|].
  assert (0 <= (T - window_len) / stride) by (apply Z.div_pos; lia).
  assert (Z.of_nat k <= (T - window_len) / stride) by lia.
  pose proof (Z.mul_div_le (T - window_len) stride ltac:(lia)). nia.
Qed.

Lemma windows_of_lengths {A : Type} (x : list A) (window_len stride : Z) :
  1 <= window_len -> 1 <= stride ->
  Forall (fun w => length w = Z.to_nat window_len) (windows_of x window_len stride).
Proof.
  intros Hw Hs. apply Forall_map, Forall_forall. intros k Hk. apply elem_of_seq in Hk.
  simpl. destruct (window_bounds (Z.of_nat (length x)) window_len stride k) as [H0 H1];
    [lia | lia | lia | lia |].
  rewrite length_take, length_drop. nia.
Qed.

(** What [make_windows] returns for a window length and a stride of at
    least 1. *)
Lemma make_windows_eq {A : Type} (x : list A) (y window_len stride : Z) :
  1 <= window_len -> 1 <= stride -> - 2 ^ 63 <= y < 2 ^ 63 ->
  Dataset.make_windows x y window_len stride =
    Some (windows_of x window_len stride,
          replicate (window_count (Z.of_nat (length x)) window_len stride) y).
Proof.
  intros Hw Hs Hy. unfold Dataset.make_windows, Dataset.py_range3.
  replace (stride =? 0) with false by (symmetry; apply Z.eqb_neq; lia).
  replace (0 <? stride) with true by (symmetry; apply Z.ltb_lt; lia).
  set (T := Z.of_nat (length x)).
  replace (T - window_len + 1 - 0 + stride - 1) with (T - window_len + 1 * stride) by lia.
  rewrite Z.div_add by lia.
  replace (Z.to_nat ((T - window_len) / stride + 1)) with (window_count T window_len stride).
  2:{ unfold window_count. destruct (Z.ltb_spec T window_len); [|reflexivity].
      assert ((T - window_len) / stride < 0) by (apply Z.div_lt_upper_bound; lia). lia. }
  set (n := window_count T window_len stride).
  simpl mbind.
  set (windows := map _ (map _ (seq 0 n))).
  assert (Hwin : windows = windows_of x window_len stride).
  { unfold windows, windows_of. fold T. fold n. rewrite map_map.
    apply map_ext_in. intros k Hk. apply in_seq in Hk.
    destruct (window_bounds T window_len stride k) as [H0 H1]; [lia | lia | lia | lia |].
    cbv beta. rewrite Z.add_0_l.
    rewrite (proj1 (py_slice_inside x (Z.of_nat k * stride) window_len H0 ltac:(lia) H1)).
    do 2 f_equal. lia. }
  pose proof (windows_of_lengths x window_len stride Hw Hs) as Hlen. rewrite <- Hwin in Hlen.
  assert (Hlw : length windows = n).
  { rewrite Hwin. unfold windows_of. now rewrite length_map, length_seq. }
  assert (Hlab : map (fun _ : Z => y) (map (fun i : nat => 0 + Z.of_nat i * stride) (seq 0 n))
                 = replicate n y).
  { rewrite map_map. clear. generalize 0%nat. induction n as [|n IH]; intros a;
      [reflexivity|]. simpl. now rewrite IH. }
  rewrite Hlab, <- Hwin. clearbody windows.
  remember windows as ws eqn:Ew in |- * at 1. destruct ws as [|w0 windows'].
  - replace (window_len <? 0) with false by (symmetry; apply Z.ltb_ge; lia).
    rewrite <- Ew in Hlw |- *. simpl in Hlw. now rewrite <- Hlw.
  - unfold Dataset.np_stack_windows. rewrite <- Ew. cbv iota. rewrite Ew.
    replace (forallb _ windows) with true.
    2:{ symmetry. apply forallb_forall. intros w Hwl. apply Nat.eqb_eq.
        rewrite Forall_forall in Hlen. rewrite (Hlen w) by now apply list_elem_of_In.
        symmetry. apply Hlen. rewrite <- Ew. left. }
    simpl. replace ((- 2 ^ 63 <=? y) && (y <? 2 ^ 63)) with true; [reflexivity|].
    symmetry. apply andb_true_iff. split; [apply Z.leb_le | apply Z.ltb_lt]; lia.
Qed.

(** [make_windows] with a window length and a stride of at least 1: when
    the run has fewer rows than a window it returns no window; otherwise it
    returns [(T - window_len) // stride + 1] windows, window [k] holding the
    [window_len] rows from row [k * stride] on, each labelled [y].  Rows
    after the last full window are dropped. *)
Theorem make_windows_spec {A : Type} (x : list A) (y window_len stride : Z) :
  1 <= window_len -> 1 <= stride -> - 2 ^ 63 <= y < 2 ^ 63 ->
  exists Xw Yw,
    Dataset.make_windows x y window_len stride = Some (Xw, Yw) /\
    Z.of_nat (length Xw) =
      (if Z.of_nat (length x) <? window_len then 0
       else (Z.of_nat (length x) - window_len) / stride + 1) /\
    Yw = replicate (length Xw) y /\
    forall k : nat, (k < length Xw)%nat ->
      Xw !! k = Some (take (Z.to_nat window_len) (drop (k * Z.to_nat stride) x)) /\
      (length (take (Z.to_nat window_len) (drop (k * Z.to_nat stride) x))
         = Z.to_nat window_len) /\
      (k * Z.to_nat stride + Z.to_nat window_len <= length x)%nat.
Proof.
  intros Hw Hs Hy. rewrite (make_windows_eq x y window_len stride Hw Hs Hy).
  eexists. eexists. split; [reflexivity|].
  assert (Hl : length (windows_of x window_len stride)
               = window_count (Z.of_nat (length x)) window_len stride).
  { unfold windows_of. now rewrite length_map, length_seq. }
  rewrite Hl. split; [|split; [reflexivity|]].
  - unfold window_count. destruct (Z.ltb_spec (Z.of_nat (length x)) window_len); [reflexivity|].
    assert (0 <= (Z.of_nat (length x) - window_len) / stride) by (apply Z.div_pos; lia). lia.
  - intros k Hk.
    destruct (window_bounds (Z.of_nat (length x)) window_len stride k) as [H0 H1];
      [lia | lia | lia | exact Hk |].
    split; [|split].
    + unfold windows_of. now rewrite list_lookup_fmap, lookup_seq_lt by exact Hk.
    + rewrite length_take, length_drop. nia.
    + nia.
Qed.

Lemma make_windows_spec_witness :
  exists Xw Yw,
    Dataset.make_windows [1; 2; 3; 4; 5; 6; 7; 8] 2 3 2 = Some (Xw, Yw) /\
    Z.of_nat (length Xw) =
      (if Z.of_nat (length [1; 2; 3; 4; 5; 6; 7; 8]) <? 3 then 0
       else (Z.of_nat (length [1; 2; 3; 4; 5; 6; 7; 8]) - 3) / 2 + 1) /\
    Yw = replicate (length Xw) 2 /\
    forall k : nat, (k < length Xw)%nat ->
      Xw !! k = Some (take (Z.to_nat 3) (drop (k * Z.to_nat 2) [1; 2; 3; 4; 5; 6; 7; 8])) /\
      (length (take (Z.to_nat 3) (drop (k * Z.to_nat 2) [1; 2; 3; 4; 5; 6; 7; 8]))
         = Z.to_nat 3) /\
      (k * Z.to_nat 2 + Z.to_nat 3 <= length [1; 2; 3; 4; 5; 6; 7; 8])%nat.
Proof. apply (make_windows_spec [1; 2; 3; 4; 5; 6; 7; 8] 2 3 2); lia. Defined.

Lemma list_index_spec (label : string) (classes : list string) :
  match Dataset.list_index label classes with
  | Some i => classes !! i = Some label /\
              forall j, (j < i)%nat -> classes !! j <> Some label
  | None => label ∉ classes
  end.
Proof.
  induction classes as [|c classes IH]; simpl.
  - apply not_elem_of_nil.
  - destruct (String.eqb_spec c label) as [->|Hne].
    + split; [reflexivity|]. intros j Hj. lia.
    + destruct (Dataset.list_index label classes) as [i|]; simpl.
      * destruct IH as [Hi Hfirst]. split; [exact Hi|].
        intros [|j] Hj; simpl; [congruence | apply Hfirst; lia].
      * intros Hin. apply elem_of_cons in Hin as [->|Hin]; [congruence | contradiction].
Qed.

(** [label_to_int] and list indexing are inverse: a label of the class list
    maps to the first position that holds it, and an unknown label is
    refused with a [ValueError]. *)
Theorem label_to_int_round_trip (label : string) (classes : list string) :
  (label ∈ classes ->
   exists i, Dataset.label_to_int label classes = Some i /\
     classes !! i = Some label /\
     forall j, (j < i)%nat -> classes !! j <> Some label) /\
  (label ∉ classes -> Dataset.label_to_int label classes = None) /\
  (forall i, NoDup classes -> classes !! i = Some label ->
     Dataset.label_to_int label classes = Some i).
Proof.
  pose proof (list_index_spec label classes) as Hspec.
  unfold Dataset.label_to_int. split; [|split].
  - intros Hin. rewrite bool_decide_eq_true_2 by exact Hin.
    destruct (Dataset.list_index label classes) as [i|]; [eauto | contradiction].
  - intros Hnot. now rewrite bool_decide_eq_false_2 by exact Hnot.
  - intros i Hnd Hi. rewrite bool_decide_eq_true_2 by (eapply list_elem_of_lookup_2; eauto).
    destruct (Dataset.list_index label classes) as [i'|].
    + destruct Hspec as [Hi' _]. f_equal. exact (NoDup_lookup _ _ _ _ Hnd Hi' Hi).
    + exfalso. apply Hspec. eapply list_elem_of_lookup_2; eauto.
Qed.

(** ** The windows of all runs *)

Lemma concat_filter_nonempty {A B : Type} (f : B -> list A) (P : B -> Prop)
    `{!forall b, Decision (P b)} (l : list B) :
  Forall (fun b => ~ P b -> f b = []) l ->
  concat (map f (filter P l)) = concat (map f l).
Proof.
  induction 1 as [|b l Hb _ IH]; [reflexivity|].
  rewrite filter_cons. destruct (decide (P b)) as [Hd|Hd]; simpl.
  - now rewrite IH.
  - now rewrite IH, (Hb Hd).
Qed.

Lemma rows_of_length (x : Step0.farray2) : length (Build.rows_of x) = Step0.f_nrows x.
Proof. unfold Build.rows_of. now rewrite length_map, length_seq. Qed.

(** [concat_windows] on runs of one feature count, with a window length and
    a stride of at least 1: the result holds the windows of every run, run
    after run, and beside them each run's label once per window, so windows
    and labels stay aligned.  A run shorter than a window adds nothing. *)
Theorem concat_windows_aligned (items : list (Step0.farray2 * Z)) (window_len stride : Z)
    (F : nat) :
  1 <= window_len -> 1 <= stride ->
  Forall (fun item => Step0.f_ncols item.1 = F /\ - 2 ^ 63 <= item.2 < 2 ^ 63) items ->
  exists X Y,
    Build.concat_windows items window_len stride = Some (X, Y) /\
    X = concat (map (fun item => windows_of (Build.rows_of item.1) window_len stride) items) /\
    Y = concat (map (fun item =>
          replicate (window_count (Z.of_nat (Step0.f_nrows item.1)) window_len stride) item.2)
          items) /\
    length X = length Y /\
    Forall (fun w => length w = Z.to_nat window_len) X.
Proof.
  intros Hw Hs Hitems. unfold Build.concat_windows.
  set (per := fun item : Step0.farray2 * Z =>
    (Step0.f_ncols item.1,
     (windows_of (Build.rows_of item.1) window_len stride,
      replicate (window_count (Z.of_nat (Step0.f_nrows item.1)) window_len stride) item.2))).
  assert (Hper : mapM (fun item : Step0.farray2 * Z =>
                    r ← Dataset.make_windows (Build.rows_of item.1) item.2 window_len stride;
                    Some (Step0.f_ncols item.1, r)) items = Some (map per items)).
  { apply mapM_Some, Forall2_fmap_r, Forall_Forall2_diag.
    eapply Forall_impl; [exact Hitems|]. intros item [_ Hy]. simpl.
    rewrite make_windows_eq by assumption. unfold per. now rewrite rows_of_length. }
  rewrite Hper. simpl mbind.
  set (kept := filter _ (map per items)).
  assert (HX : concat (map (fun r => r.2.1) kept) =
               concat (map (fun item => windows_of (Build.rows_of item.1) window_len stride)
                         items)).
  { unfold kept. rewrite (concat_filter_nonempty (fun r => r.2.1)).
    - now rewrite map_map.
    - apply Forall_forall. intros r _ Hr. destruct (r.2.1); [reflexivity | simpl in Hr; lia]. }
  assert (HY : concat (map (fun r => r.2.2) kept) =
               concat (map (fun item => replicate
                   (window_count (Z.of_nat (Step0.f_nrows item.1)) window_len stride) item.2)
                   items)).
  { unfold kept. rewrite (concat_filter_nonempty (fun r => r.2.2)).
    - now rewrite map_map.
    - apply Forall_map, Forall_forall. intros item _. unfold per, windows_of. simpl.
      rewrite length_map, length_seq, rows_of_length. intros Hn.
      now replace (window_count (Z.of_nat (Step0.f_nrows item.1)) window_len stride)
        with 0%nat by lia. }
  assert (Hshape : Forall (fun r => length (hd [] r.2.1) = Z.to_nat window_len /\ r.1 = F) kept).
  { unfold kept. apply Forall_forall. intros r Hr.
    apply list_elem_of_filter in Hr as [Hpos Hr].
    apply list_elem_of_fmap in Hr as (item & -> & Hitem).
    rewrite Forall_forall in Hitems. destruct (Hitems item Hitem) as [HF _].
    split; [|exact HF]. unfold per in *. simpl in *.
    pose proof (windows_of_lengths (Build.rows_of item.1) window_len stride Hw Hs) as Hl.
    destruct (windows_of (Build.rows_of item.1) window_len stride) as [|w ws];
      [simpl in Hpos; lia|].
    now apply Forall_cons in Hl as [Hl _]. }
  assert (Hlen : Forall (fun w => length w = Z.to_nat window_len)
            (concat (map (fun item => windows_of (Build.rows_of item.1) window_len stride)
                       items))).
  { apply Forall_concat, Forall_map, Forall_forall. intros item _.
    now apply windows_of_lengths. }
  assert (Hll : length (concat (map (fun item =>
                    windows_of (Build.rows_of item.1) window_len stride) items)) =
                length (concat (map (fun item => replicate
                   (window_count (Z.of_nat (Step0.f_nrows item.1)) window_len stride) item.2)
                   items))).
  { clear. induction items as [|item items IH]; [reflexivity|].
    simpl. rewrite !length_app, IH. f_equal. unfold windows_of.
    now rewrite length_replicate, length_map, length_seq, rows_of_length. }
  clearbody kept. destruct kept as [|r0 kept'] eqn:Ek.
  - replace (window_len <? 0) with false by (symmetry; apply Z.ltb_ge; lia).
    exists [], []. simpl in HX, HY. rewrite <- HX, <- HY in *. auto.
  - unfold Build.np_concatenate. cbn [map].
    set (g := fun r : nat * (list (list (list Quantizer.float)) * list Z) =>
                (length (hd [] r.2.1), r.1, r.2.1)).
    replace (forallb _ _) with true.
    2:{ symmetry. apply forallb_forall. intros a Ha.
        apply (in_map_iff g (r0 :: kept')) in Ha as (r & <- & Hr).
        rewrite Forall_forall in Hshape.
        destruct (Hshape r ltac:(now apply list_elem_of_In)) as [H1 H2].
        destruct (Hshape r0 ltac:(left)) as [H3 H4]. simpl.
        rewrite H1, H2, H3, H4, !Nat.eqb_refl. reflexivity. }
    simpl. rewrite map_map. simpl in HX, HY. simpl. rewrite HX, HY. eauto 10.
Qed.

Lemma concat_windows_aligned_witness :
  exists X Y,
    Build.concat_windows [(run_five, 1); (run_two, 0); (run_five, 2)] 3 2 = Some (X, Y) /\
    X = concat (map (fun item => windows_of (Build.rows_of item.1) 3 2)
                  [(run_five, 1); (run_two, 0); (run_five, 2)]) /\
    Y = concat (map (fun item =>
          replicate (window_count (Z.of_nat (Step0.f_nrows item.1)) 3 2) item.2)
          [(run_five, 1); (run_two, 0); (run_five, 2)]) /\
    length X = length Y /\
    Forall (fun w => length w = Z.to_nat 3) X.
Proof.
  apply (concat_windows_aligned [(run_five, 1); (run_two, 0); (run_five, 2)] 3 2 1); [lia | lia |].
  repeat constructor; simpl; lia.
Defined.
